(** * Location analytics of the AgriSol backend (PostgreSQL functions and triggers)

    Shallow embedding of the SQL in [src/Frontend/Backend coms/]:
    - [Step3]: the trigger functions [update_location_analytics],
      [update_disease_tracking] and [recalculate_location_analytics] of
      STEP_3_FUNCTIONS_AND_TRIGGERS_FIXED.sql;
    - [Schema]: the trigger [update_location_analytics] and the daily
      [refresh_location_analytics] of LOCATION_TRACKING_SCHEMA.sql, and the
      leaderboard query [get_location_leaderboard] of
      STEP_5_HELPER_FUNCTIONS_FIXED.sql, which reads that table's columns.

    Tables are lists of rows in scan order; a nullable column is an [option];
    INTEGER columns and COUNT results are [Z]; NUMERIC values are exact
    rationals [Q]; timestamps are [Z] (seconds).  The type of
    [disease_tracking.severity_average] is declared in no file of the
    repository, so its values are kept as the expressions the database
    evaluates in that type ([Step3.sev]).  [NOW()]-valued bookkeeping
    columns ([created_at], [updated_at], [last_updated]) are left out. *)

From Stdlib Require Import String Ascii ZArith QArith Qabs Qround List Bool Lia.
From Stdlib Require Import Sorted Permutation Lqa.
Import ListNotations.
Open Scope Z_scope.
Open Scope string_scope.
Open Scope list_scope.

(** Generic helpers: SQL aggregates over a list of rows. *)

(** COUNT(DISTINCT x): NULLs are not counted. *)
Definition count_distinct (xs : list (option string)) : Z :=
  Z.of_nat (length (nodup string_dec
    (flat_map (fun o => match o with Some x => [x] | None => [] end) xs))).

(** COUNT( * ) FILTER (WHERE p). *)
Definition count_if {A} (p : A -> bool) (l : list A) : Z :=
  Z.of_nat (length (filter p l)).

(** MAX / MIN over a non-empty group (the groups of a GROUP BY are never
    empty, so the value on [] is never used). *)
Definition max_of {A} (f : A -> Z) (l : list A) : Z :=
  match l with
  | [] => 0
  | x :: r => fold_left (fun m y => Z.max m (f y)) r (f x)
  end.

Definition min_of {A} (f : A -> Z) (l : list A) : Z :=
  match l with
  | [] => 0
  | x :: r => fold_left (fun m y => Z.min m (f y)) r (f x)
  end.

(** The groups of a GROUP BY, listed once each in order of first appearance. *)
Definition add_group {A} (eqb : A -> A -> bool) (gs : list A) (g : A) : list A :=
  if existsb (eqb g) gs then gs else gs ++ [g].

Definition group_keys {A} (eqb : A -> A -> bool) (l : list A) : list A :=
  fold_left (add_group eqb) l [].

Definition opt_eqb (a b : option string) : bool :=
  match a, b with
  | Some x, Some y => String.eqb x y
  | None, None => true
  | _, _ => false
  end.

(** ROUND(x, 3) on NUMERIC: to three decimals, halves away from zero. *)
Definition round3 (q : Q) : Q :=
  let n := Qnum q * 1000 in
  let d := Zpos (Qden q) in
  if Z.leb 0 n then ((2 * n + d) / (2 * d)) # 1000
  else (- ((2 * - n + d) / (2 * d))) # 1000.

Module Step3.

(** A row of [scan_history] as the STEP_3 functions read it. *)
Record scan := mk_scan {
  scan_id : string;
  user_id : option string;
  province : option string;
  district : option string;
  sector : option string;
  disease_detected : option string;
  confidence_score : option Q;
  created_at : Z
}.

Definition loc_tuple : Type := (option string * option string * option string)%type.

Definition scan_tuple (e : scan) : loc_tuple := (province e, district e, sector e).

Definition tuple_eqb (a b : loc_tuple) : bool :=
  match a, b with
  | (p1, d1, s1), (p2, d2, s2) => opt_eqb p1 p2 && opt_eqb d1 d2 && opt_eqb s1 s2
  end.

(** The nested IF / CASE building [location_key] (lines 13-26, 108-120 and
    207-218 of STEP_3; also lines 31-42 of STEP_5). *)
Definition location_key_of (p d s : option string) : string :=
  match p with
  | Some p =>
      match d with
      | Some d =>
          match s with
          | Some s => (p ++ ">" ++ d ++ ">" ++ s)%string
          | None => (p ++ ">" ++ d)%string
          end
      | None => p
      end
  | None => "Unknown"
  end.

Definition location_key (e : scan) : string :=
  location_key_of (province e) (district e) (sector e).

(** [disease_detected = 'Healthy' OR disease_detected IS NULL]. *)
Definition is_healthy (e : scan) : bool :=
  match disease_detected e with
  | None => true
  | Some d => String.eqb d "Healthy"
  end.

(** [disease_detected != 'Healthy' AND disease_detected IS NOT NULL]. *)
Definition is_diseased (e : scan) : bool :=
  match disease_detected e with
  | None => false
  | Some d => negb (String.eqb d "Healthy")
  end.

Definition b2z (b : bool) : Z := if b then 1 else 0.

(** [COALESCE(confidence_score, 0.5)]. *)
Definition confidence (e : scan) : Q :=
  match confidence_score e with
  | Some c => c
  | None => 1 # 2
  end.

(** A row of [location_analytics] as STEP_3 writes it. *)
Record loc_row := mk_loc_row {
  location_hierarchy : string;
  la_province : option string;
  la_district : option string;
  la_sector : option string;
  total_scans : Z;
  healthy_scans : Z;
  diseased_scans : Z;
  unique_users : Z;
  last_scan_date : Z
}.

Definition qsum (l : list Q) : Q := fold_left Qplus l 0%Q.

(** A value of [disease_tracking.severity_average], kept as the expression
    the database evaluated to produce it.  No file of the repository creates
    [disease_tracking], so the column's type is unknown: NUMERIC rounds a
    quotient to its display scale, a floating-point type to its precision.
    - [sev_lit c]: the value [c] assigned to the column
      ([COALESCE(NEW.confidence_score, 0.5)] of the trigger's INSERT);
    - [sev_online a n c]: [(a * n + c) / (n + 1)], the trigger's UPDATE, from
      the stored [a], the old [occurrence_count] [n] and the confidence [c];
    - [sev_avg cs]: [AVG(cs)], the recomputation's INSERT;
    - [sev_round3 a]: [ROUND(a, 3)], read back by STEP_5 (defined on NUMERIC
      only, where it rounds the value to three decimals). *)
Inductive sev : Type :=
| sev_lit (c : Q)
| sev_online (a : sev) (n : Z) (c : Q)
| sev_avg (cs : list Q)
| sev_round3 (a : sev).

(** The arithmetic of the column's type: the value it stores for an
    assignment, for the online-mean update and for an AVG. *)
Record sev_arith := mk_sev_arith {
  ar_lit : Q -> Q;
  ar_online : Q -> Z -> Q -> Q;
  ar_avg : list Q -> Q
}.

Fixpoint sev_value (ar : sev_arith) (x : sev) : Q :=
  match x with
  | sev_lit c => ar_lit ar c
  | sev_online a n c => ar_online ar (sev_value ar a) n c
  | sev_avg cs => ar_avg ar cs
  | sev_round3 a => round3 (sev_value ar a)
  end.

(** Exact rational arithmetic, with no rounding. *)
Definition exact_arith : sev_arith :=
  mk_sev_arith (fun c => c)
    (fun a n c => ((a * inject_Z n + c) / inject_Z (n + 1))%Q)
    (fun cs => (qsum cs / inject_Z (Z.of_nat (length cs)))%Q).

Definition sev_exact (x : sev) : Q := sev_value exact_arith x.

(** [q] is a finite binary-decimal fraction: [q * 2^a * 5^b] is an integer
    for some [a] and [b].  Every NUMERIC value (an integer times a power of
    ten) and every finite REAL or DOUBLE PRECISION value (an integer times a
    power of two) is one. *)
Definition representable (q : Q) : Prop :=
  exists (a b : nat) (m : Z),
    (q * inject_Z (2 ^ Z.of_nat a * 5 ^ Z.of_nat b) == inject_Z m)%Q.

(** A row of [disease_tracking] as STEP_3 writes it. *)
Record dis_row := mk_dis_row {
  dt_location_hierarchy : string;
  dt_province : option string;
  dt_district : option string;
  dt_sector : option string;
  disease_name : string;
  occurrence_count : Z;
  severity_average : sev;
  first_detected : Z;
  last_detected : Z
}.

(** [SELECT COUNT(DISTINCT user_id) FROM scan_history WHERE] the null-safe
    match of (province, district, sector) with [t]. *)
Definition count_users (log : list scan) (t : loc_tuple) : Z :=
  count_distinct (map user_id (filter (fun x => tuple_eqb (scan_tuple x) t) log)).

Definition set_unique_users (r : loc_row) (n : Z) : loc_row :=
  mk_loc_row (location_hierarchy r) (la_province r) (la_district r) (la_sector r)
    (total_scans r) (healthy_scans r) (diseased_scans r) n (last_scan_date r).

(** [update_location_analytics] (STEP_3 lines 5-93).  [log] is
    [scan_history] as the AFTER INSERT trigger sees it: NEW included. *)
Definition update_location_analytics (log : list scan) (e : scan)
    (la : list loc_row) : list loc_row :=
  let key := location_key e in
  let is_key r := String.eqb (location_hierarchy r) key in
  match find is_key la with
  | None =>
      let la' := la ++ [mk_loc_row key (province e) (district e) (sector e)
                          1 (b2z (is_healthy e)) (b2z (is_diseased e)) 1
                          (created_at e)] in
      map (fun r => if is_key r then set_unique_users r (count_users log (scan_tuple e))
                    else r) la'
  | Some _ =>
      map (fun r =>
             if is_key r then
               mk_loc_row (location_hierarchy r) (la_province r) (la_district r)
                 (la_sector r)
                 (total_scans r + 1)
                 (healthy_scans r + b2z (is_healthy e))
                 (diseased_scans r + b2z (is_diseased e))
                 (count_users log (scan_tuple e))
                 (Z.max (last_scan_date r) (created_at e))
             else r) la
  end.

(** [update_disease_tracking] (STEP_3 lines 96-169).  The SET list reads the
    old [occurrence_count] on every right-hand side. *)
Definition update_disease_tracking (e : scan) (dt : list dis_row) : list dis_row :=
  match disease_detected e with
  | None => dt
  | Some d =>
      if String.eqb d "Healthy" then dt else
      let key := location_key e in
      let is_row r := String.eqb (dt_location_hierarchy r) key
                      && String.eqb (disease_name r) d in
      match find is_row dt with
      | None =>
          dt ++ [mk_dis_row key (province e) (district e) (sector e) d 1
                   (sev_lit (confidence e)) (created_at e) (created_at e)]
      | Some _ =>
          map (fun r =>
                 if is_row r then
                   mk_dis_row (dt_location_hierarchy r) (dt_province r)
                     (dt_district r) (dt_sector r) (disease_name r)
                     (occurrence_count r + 1)
                     (sev_online (severity_average r) (occurrence_count r)
                        (confidence e))
                     (first_detected r)
                     (Z.max (last_detected r) (created_at e))
                 else r) dt
      end
  end.

(** The database: the event log and the two aggregate tables. *)
Record store := mk_store {
  scan_history : list scan;
  location_analytics : list loc_row;
  disease_tracking : list dis_row
}.

Definition empty_store : store := mk_store [] [] [].

(** [INSERT INTO scan_history] with its two AFTER INSERT ... FOR EACH ROW
    triggers; they touch disjoint tables, so their firing order is immaterial. *)
Definition insert_scan (e : scan) (s : store) : store :=
  let log := scan_history s ++ [e] in
  mk_store log
    (update_location_analytics log e (location_analytics s))
    (update_disease_tracking e (disease_tracking s)).

Definition apply_all (es : list scan) (s : store) : store :=
  fold_left (fun s e => insert_scan e s) es s.

(** The INSERT statement as a whole: [scan_history.id] is the table's
    PRIMARY KEY (LOCATION_TRACKING_SCHEMA line 9), so a row whose id is
    already in the table raises a unique violation and the statement,
    triggers included, is rolled back ([None]); otherwise the row is
    inserted and the triggers fire. *)
Definition insert_statement (e : scan) (s : store) : option store :=
  if existsb (fun x => String.eqb (scan_id x) (scan_id e)) (scan_history s)
  then None
  else Some (insert_scan e s).

(** The database after the statement: unchanged when it was rolled back. *)
Definition state_after_insert (e : scan) (s : store) : store :=
  match insert_statement e s with
  | Some s' => s'
  | None => s
  end.

(** [recalculate_location_analytics] (STEP_3 lines 185-275). *)
Definition group_row (log : list scan) (g : loc_tuple) : loc_row :=
  let es := filter (fun x => tuple_eqb (scan_tuple x) g) log in
  match g with
  | (p, d, s) =>
      mk_loc_row (location_key_of p d s) p d s
        (Z.of_nat (length es))
        (count_if is_healthy es)
        (count_if is_diseased es)
        (count_distinct (map user_id es))
        (max_of created_at es)
  end.

Definition recompute_location (log : list scan) : list loc_row :=
  map (group_row log) (group_keys tuple_eqb (map scan_tuple log)).

Definition dis_group : Type := (loc_tuple * string)%type.

Definition label (e : scan) : string :=
  match disease_detected e with Some d => d | None => "" end.

Definition dis_group_of (e : scan) : dis_group := (scan_tuple e, label e).

Definition dis_group_eqb (a b : dis_group) : bool :=
  tuple_eqb (fst a) (fst b) && String.eqb (snd a) (snd b).

Definition dis_group_row (ds : list scan) (g : dis_group) : dis_row :=
  let es := filter (fun x => dis_group_eqb (dis_group_of x) g) ds in
  match g with
  | ((p, d, s), n) =>
      mk_dis_row (location_key_of p d s) p d s n
        (Z.of_nat (length es))
        (sev_avg (map confidence es))
        (min_of created_at es)
        (max_of created_at es)
  end.

Definition recompute_disease (log : list scan) : list dis_row :=
  let ds := filter is_diseased log in
  map (dis_group_row ds) (group_keys dis_group_eqb (map dis_group_of ds)).

Definition recalculate_location_analytics (s : store) : store :=
  mk_store (scan_history s)
    (recompute_location (scan_history s))
    (recompute_disease (scan_history s)).

Definition tuple_key (t : loc_tuple) : string :=
  let '(p, d, s) := t in location_key_of p d s.

(** Distinct location tuples of the log derive distinct keys. *)
Definition keys_injective (E : list scan) : Prop :=
  forall x y, In x E -> In y E -> location_key x = location_key y ->
              scan_tuple x = scan_tuple y.

(** The row with [severity_average] replaced by the exact value of its
    expression, in lowest terms: two rows have the same canonical form when
    they agree in every column and their severity expressions have the same
    value in exact arithmetic. *)
Definition dis_row_canon (r : dis_row) : dis_row :=
  mk_dis_row (dt_location_hierarchy r) (dt_province r) (dt_district r)
    (dt_sector r) (disease_name r) (occurrence_count r)
    (sev_lit (Qred (sev_exact (severity_average r)))) (first_detected r)
    (last_detected r).

(** Decidable forms of the two conditions under which the recomputation is
    compared with the triggers: no two distinct location tuples of the log
    share a key, and the log is in non-decreasing [created_at] order. *)
Definition keys_injectiveb (E : list scan) : bool :=
  forallb (fun x => forallb (fun y =>
    implb (String.eqb (location_key x) (location_key y))
          (tuple_eqb (scan_tuple x) (scan_tuple y))) E) E.

Fixpoint created_sorted (E : list scan) : bool :=
  match E with
  | [] => true
  | x :: r => forallb (fun y => Z.leb (created_at x) (created_at y)) r && created_sorted r
  end.

(** [WHERE location_hierarchy = key] / [WHERE location_hierarchy = key AND
    disease_name = d], as the [SELECT ... INTO existing_record] lookups read
    them (first matching row). *)
Definition find_location (k : string) (la : list loc_row) : option loc_row :=
  find (fun r => String.eqb (location_hierarchy r) k) la.

Definition dis_row_is (k d : string) (r : dis_row) : bool :=
  String.eqb (dt_location_hierarchy r) k && String.eqb (disease_name r) d.

(** States of the database reachable from empty tables by inserting scans
    (firing the triggers) and running the full recomputation.  [insert_scan]
    does not check the primary key, so this includes every state the
    database reaches through [insert_statement], and more. *)
Inductive reachable : store -> Prop :=
| reach_empty : reachable empty_store
| reach_insert e s : reachable s -> reachable (insert_scan e s)
| reach_recalc s : reachable s -> reachable (recalculate_location_analytics s).

End Step3.

Module Schema.

(** A row of [scan_history] (LOCATION_TRACKING_SCHEMA.sql lines 8-35); the
    columns no function below reads (severity, coordinates, image metadata)
    are left out. *)
Record scan := mk_scan {
  scan_id : string;
  user_id : option string;
  crop_type : string;
  predicted_disease : string;
  confidence_score : Q;
  country : string;
  province : option string;
  district : option string;
  sector : option string;
  location_string : string;
  created_at : Z
}.

(** A row of [location_analytics] (lines 41-76); the prefix [la_] keeps the
    location columns apart from those of [scan]. *)
Record la_row := mk_la_row {
  la_location_string : string;
  la_country : string;
  la_province : option string;
  la_district : option string;
  la_sector : option string;
  total_scans : Z;
  total_users : Z;
  healthy_scans : Z;
  disease_scans : Z;
  scans_last_7_days : Z;
  scans_last_30_days : Z;
  active_users_last_7_days : Z;
  active_users_last_30_days : Z;
  healthy_percentage : Q;
  most_common_disease : option string;
  most_common_crop : option string;
  growth_rate_7_days : Q;
  growth_rate_30_days : Q;
  last_scan_at : option Z
}.

(** ILIKE '%healthy%': case-insensitive substring test (ASCII case folding). *)
Definition lower_ascii (c : ascii) : ascii :=
  let n := nat_of_ascii c in
  if Nat.leb 65 n && Nat.leb n 90 then ascii_of_nat (n + 32) else c.

Fixpoint lower (s : string) : string :=
  match s with
  | EmptyString => EmptyString
  | String c r => String (lower_ascii c) (lower r)
  end.

Definition ilike_healthy (s : string) : bool :=
  match index 0 "healthy" (lower s) with
  | Some _ => true
  | None => false
  end.

(** ROUND(x, 2) on NUMERIC: to two decimals, halves away from zero. *)
Definition round2 (q : Q) : Q :=
  let n := Qnum q * 100 in
  let d := Zpos (Qden q) in
  if Z.leb 0 n then ((2 * n + d) / (2 * d)) # 100
  else (- ((2 * - n + d) / (2 * d))) # 100.

(** Assignment to a DECIMAL(5,2) column: the value is rounded to two
    decimals, and an absolute value of 1000 or more is a numeric overflow
    error. *)
Definition dec52 (q : Q) : option Q :=
  let r := round2 q in
  if Qle_bool 1000 (Qabs r) then None else Some r.

Fixpoint map_opt {A B} (f : A -> option B) (l : list A) : option (list B) :=
  match l with
  | [] => Some []
  | x :: r =>
      match f x, map_opt f r with
      | Some y, Some ys => Some (y :: ys)
      | _, _ => None
      end
  end.

(** The trigger [update_location_analytics] (lines 167-211): INSERT ... ON
    CONFLICT (location_string) DO UPDATE.  It fails (and the INSERT into
    [scan_history] with it) when the new [healthy_percentage] overflows
    DECIMAL(5,2). *)
Definition update_location_analytics (e : scan) (la : list la_row)
    : option (list la_row) :=
  let h := if ilike_healthy (predicted_disease e) then 1 else 0 in
  let d := if negb (ilike_healthy (predicted_disease e)) then 1 else 0 in
  let same r := String.eqb (la_location_string r) (location_string e) in
  match find same la with
  | None =>
      Some (la ++ [mk_la_row (location_string e) (country e) (province e)
                     (district e) (sector e) 1 0 h d 0 0 0 0 0 None
                     (Some (crop_type e)) 0 0 (Some (created_at e))])
  | Some _ =>
      map_opt (fun r =>
        if same r then
          match dec52 (round2 (inject_Z (healthy_scans r + h) * 100
                               / inject_Z (total_scans r + 1))) with
          | Some hp =>
              Some (mk_la_row (la_location_string r) (la_country r) (la_province r)
                      (la_district r) (la_sector r) (total_scans r + 1)
                      (total_users r) (healthy_scans r + h) (disease_scans r + d)
                      (scans_last_7_days r) (scans_last_30_days r)
                      (active_users_last_7_days r) (active_users_last_30_days r)
                      hp (most_common_disease r) (most_common_crop r)
                      (growth_rate_7_days r) (growth_rate_30_days r)
                      (Some (created_at e)))
          | None => None
          end
        else Some r) la
  end.

Record db := mk_db {
  scan_history : list scan;
  location_analytics : list la_row
}.

Definition empty_db : db := mk_db [] [].

(** INSERT INTO scan_history with its AFTER INSERT trigger; a failing trigger
    rolls the statement back.  (The trigger on [disease_tracking] does not
    touch [location_analytics].) *)
Definition insert_scan (e : scan) (s : db) : db :=
  match update_location_analytics e (location_analytics s) with
  | Some la => mk_db (scan_history s ++ [e]) la
  | None => s
  end.

(** [created_at >= NOW() - INTERVAL 'n days'], timestamps in seconds. *)
Definition in_window (now : Z) (days : Z) (x : scan) : bool :=
  Z.leb (now - days * 86400) (created_at x).

Definition at_location (r : la_row) (x : scan) : bool :=
  String.eqb (location_string x) (la_location_string r).

(** The first UPDATE of [refresh_location_analytics] (lines 352-382). *)
Definition refresh_counts (now : Z) (log : list scan) (r : la_row) : la_row :=
  let here := filter (at_location r) log in
  let w7 := filter (in_window now 7) here in
  let w30 := filter (in_window now 30) here in
  mk_la_row (la_location_string r) (la_country r) (la_province r)
    (la_district r) (la_sector r) (total_scans r)
    (count_distinct (map user_id here)) (healthy_scans r) (disease_scans r)
    (Z.of_nat (length w7)) (Z.of_nat (length w30))
    (count_distinct (map user_id w7)) (count_distinct (map user_id w30))
    (healthy_percentage r) (most_common_disease r) (most_common_crop r)
    (growth_rate_7_days r) (growth_rate_30_days r) (last_scan_at r).

(** The CASE of the second UPDATE (lines 386-397). *)
Definition growth (total recent : Z) : Q :=
  if Z.ltb 0 (total - recent)
  then round2 (inject_Z recent / inject_Z (total - recent) * 100)
  else 0.

Definition refresh_growth (r : la_row) : option la_row :=
  match dec52 (growth (total_scans r) (scans_last_7_days r)),
        dec52 (growth (total_scans r) (scans_last_30_days r)) with
  | Some g7, Some g30 =>
      Some (mk_la_row (la_location_string r) (la_country r) (la_province r)
              (la_district r) (la_sector r) (total_scans r) (total_users r)
              (healthy_scans r) (disease_scans r) (scans_last_7_days r)
              (scans_last_30_days r) (active_users_last_7_days r)
              (active_users_last_30_days r) (healthy_percentage r)
              (most_common_disease r) (most_common_crop r) g7 g30 (last_scan_at r))
  | _, _ => None
  end.

(** [refresh_location_analytics()] at time [now]; [None] when a growth rate
    overflows DECIMAL(5,2), which aborts the whole call. *)
Definition refresh_location_analytics (now : Z) (s : db) : option db :=
  match map_opt refresh_growth
          (map (refresh_counts now (scan_history s)) (location_analytics s)) with
  | Some la => Some (mk_db (scan_history s) la)
  | None => None
  end.

Inductive reachable : db -> Prop :=
| reach_empty : reachable empty_db
| reach_insert e s : reachable s -> reachable (insert_scan e s)
| reach_refresh now s s' :
    reachable s -> refresh_location_analytics now s = Some s' -> reachable s'.

(** [get_location_leaderboard(limit_count)] of STEP_5 (lines 5-61), over the
    columns of this table. *)
Record leader_row := mk_leader_row {
  rank : Z;
  location_name : string;
  location_hierarchy : string;
  lb_province : option string;
  lb_district : option string;
  lb_sector : option string;
  lb_total_scans : Z;
  lb_healthy_scans : Z;
  diseased_scans : Z;
  unique_users : Z;
  last_scan_date : option Z;
  disease_rate : Q
}.

Definition location_name_of (r : la_row) : string :=
  match la_sector r, la_district r, la_province r with
  | Some s, _, _ => s
  | None, Some d, _ => d
  | None, None, Some p => p
  | None, None, None => "Unknown"
  end.

(** The CASE computing [disease_rate] (lines 51-55). *)
Definition disease_rate_of (r : la_row) : Q :=
  if Z.ltb 0 (total_scans r)
  then round2 (inject_Z (disease_scans r) / inject_Z (total_scans r) * 100)
  else 0.

Definition to_leader (n : Z) (r : la_row) : leader_row :=
  mk_leader_row n (location_name_of r)
    (Step3.location_key_of (la_province r) (la_district r) (la_sector r))
    (la_province r) (la_district r) (la_sector r) (total_scans r)
    (healthy_scans r) (disease_scans r) (total_users r) (last_scan_at r)
    (disease_rate_of r).

(** ROW_NUMBER() over the sorted rows, from [n]. *)
Fixpoint number_rows (n : Z) (l : list la_row) : list leader_row :=
  match l with
  | [] => []
  | r :: t => to_leader n r :: number_rows (n + 1) t
  end.

(** What ORDER BY total_scans DESC guarantees of the sorted rows: a
    permutation of its input, in non-increasing [total_scans] order; the
    order of rows with equal [total_scans] is not fixed. *)
Definition desc_total (a b : la_row) : Prop := total_scans b <= total_scans a.

Definition order_by_total_desc (input sorted : list la_row) : Prop :=
  Permutation input sorted /\ Sorted desc_total sorted.

(** One such ordering: a stable insertion sort. *)
Fixpoint insert_desc (r : la_row) (l : list la_row) : list la_row :=
  match l with
  | [] => [r]
  | y :: t =>
      if Z.ltb (total_scans r) (total_scans y) then y :: insert_desc r t
      else r :: y :: t
  end.

Fixpoint sort_desc (l : list la_row) : list la_row :=
  match l with
  | [] => []
  | r :: t => insert_desc r (sort_desc t)
  end.

(** SELECT ... WHERE total_scans > 0 ORDER BY total_scans DESC LIMIT n, for
    a given ordering [sorted] of the filtered rows. *)
Definition leaderboard_of (limit_count : Z) (sorted : list la_row)
    : list leader_row :=
  firstn (Z.to_nat limit_count) (number_rows 1 sorted).

Definition positive_rows (la : list la_row) : list la_row :=
  filter (fun r => Z.ltb 0 (total_scans r)) la.

(** The query with the insertion sort as ORDER BY; a negative LIMIT is an
    error. *)
Definition get_location_leaderboard (limit_count : Z) (la : list la_row)
    : option (list leader_row) :=
  if Z.ltb limit_count 0 then None
  else Some (leaderboard_of limit_count (sort_desc (positive_rows la))).

(** The row invariant of [location_analytics] kept by the trigger and the
    refresh. *)
Definition row_inv (r : la_row) : Prop :=
  0 <= healthy_scans r /\ 0 <= disease_scans r /\
  healthy_scans r + disease_scans r = total_scans r /\ 1 <= total_scans r /\
  (0 <= healthy_percentage r <= 100)%Q.

End Schema.

(** ** Further definitions: the aggregates read back as functions of the log,
    and the remaining STEP_5 queries *)

Definition zsum (l : list Z) : Z := fold_right Z.add 0 l.

Module Step3Keys.
Import Step3.
Definition key_label_eqb (a b : string * string) : bool :=
  String.eqb (fst a) (fst b) && String.eqb (snd a) (snd b).
Definition key_label (e : scan) : string * string := (location_key e, label e).
Definition dis_row_key (r : dis_row) : string * string :=
  (dt_location_hierarchy r, disease_name r).

(** A [location_analytics] row agrees with the scans [es] of the log that
    carry its key: it counts them, splits them into healthy and diseased,
    and holds their latest [created_at]. *)
Definition loc_row_ok (E : list scan) (r : loc_row) : Prop :=
  let es := filter (fun x => String.eqb (location_key x) (location_hierarchy r)) E in
  es <> [] /\
  total_scans r = Z.of_nat (length es) /\
  healthy_scans r = count_if is_healthy es /\
  diseased_scans r = count_if is_diseased es /\
  last_scan_date r = max_of created_at es.

(** A [disease_tracking] row agrees with the diseased scans [es] of the log
    carrying its (key, disease): it counts them, holds the [created_at] of
    the first one and the latest [created_at], and the exact value of its
    severity expression is the mean of their confidences. *)
Definition dis_row_ok (E : list scan) (r : dis_row) : Prop :=
  let es := filter (fun x => key_label_eqb (key_label x) (dis_row_key r))
                   (filter is_diseased E) in
  exists x rest, es = x :: rest /\
  occurrence_count r = Z.of_nat (length es) /\
  first_detected r = created_at x /\
  last_detected r = max_of created_at es /\
  (sev_exact (severity_average r) == qsum (map confidence es) / inject_Z (Z.of_nat (length es)))%Q.
End Step3Keys.

Module SchemaKeys.
Import Schema.

(** [predicted_disease ILIKE '%healthy%'] of a scan. *)
Definition healthy_scan (x : scan) : bool := ilike_healthy (predicted_disease x).

(** A [location_analytics] row agrees with the scans [es] of the log that
    carry its [location_string]: its location columns and [most_common_crop]
    are those of the first of them, it counts them and splits them by the
    ILIKE test, [last_scan_at] is the [created_at] of the last one inserted,
    and [healthy_percentage] is 0 while the row has one scan and the
    rounded percentage of healthy scans afterwards. *)
Definition la_row_ok (log : list scan) (r : la_row) : Prop :=
  let es := filter (fun x => String.eqb (location_string x) (la_location_string r)) log in
  exists x rest, es = x :: rest /\
  la_country r = country x /\ la_province r = province x /\
  la_district r = district x /\ la_sector r = sector x /\
  most_common_crop r = Some (crop_type x) /\
  total_scans r = Z.of_nat (length es) /\
  healthy_scans r = count_if healthy_scan es /\
  disease_scans r = count_if (fun y => negb (healthy_scan y)) es /\
  last_scan_at r = Some (created_at (last es x)) /\
  healthy_percentage r =
    (if Z.eqb (total_scans r) 1 then 0%Q
     else round2 (inject_Z (healthy_scans r) * 100 / inject_Z (total_scans r))).
End SchemaKeys.

Module SchemaDisease.
Import Schema.

(** A row of the [disease_tracking] table of LOCATION_TRACKING_SCHEMA.sql
    (lines 113-134), without the columns no trigger writes. *)
Record dt_row := mk_dt_row {
  dt_location_string : string;
  dt_crop_type : string;
  dt_disease_name : string;
  total_cases : Z;
  cases_last_7_days : Z;
  cases_last_30_days : Z;
  first_detected : Z;
  last_detected : Z
}.

Definition dt_key (r : dt_row) : string * string * string :=
  (dt_location_string r, dt_crop_type r, dt_disease_name r).

Definition scan_key (e : scan) : string * string * string :=
  (location_string e, crop_type e, predicted_disease e).

Definition key3_eqb (a b : string * string * string) : bool :=
  match a, b with
  | (a1, a2, a3), (b1, b2, b3) => String.eqb a1 b1 && String.eqb a2 b2 && String.eqb a3 b3
  end.

(** The trigger [update_disease_tracking] (lines 220-250): INSERT ... ON
    CONFLICT (location_string, crop_type, disease_name) DO UPDATE. *)
Definition update_disease_tracking (e : scan) (dt : list dt_row) : list dt_row :=
  let same r := String.eqb (dt_location_string r) (location_string e)
                && String.eqb (dt_crop_type r) (crop_type e)
                && String.eqb (dt_disease_name r) (predicted_disease e) in
  match find same dt with
  | None =>
      dt ++ [mk_dt_row (location_string e) (crop_type e) (predicted_disease e)
               1 1 1 (created_at e) (created_at e)]
  | Some _ =>
      map (fun r =>
             if same r then
               mk_dt_row (dt_location_string r) (dt_crop_type r) (dt_disease_name r)
                 (total_cases r + 1) (cases_last_7_days r) (cases_last_30_days r)
                 (first_detected r) (created_at e)
             else r) dt
  end.

(** The table after the trigger has fired for the inserted scans [log], in
    order, from an empty table. *)
Definition disease_tracking_of (log : list scan) : list dt_row :=
  fold_left (fun dt e => update_disease_tracking e dt) log [].

(** A row agrees with the scans [es] of the log carrying its (location,
    crop, disease): it counts them, its 7- and 30-day counters hold 1, and
    it holds the [created_at] of the first and of the last of them. *)
Definition dt_row_ok (log : list scan) (r : dt_row) : Prop :=
  let es := filter (fun x => key3_eqb (scan_key x) (dt_key r)) log in
  exists x rest, es = x :: rest /\
  total_cases r = Z.of_nat (length es) /\
  cases_last_7_days r = 1 /\ cases_last_30_days r = 1 /\
  first_detected r = created_at x /\
  last_detected r = created_at (last es x).
End SchemaDisease.

Module Like.
(** A LIKE pattern read with the default escape character backslash: [%]
    matches any sequence, [_] any single character, and an escaped character
    itself; a pattern ending in a lone escape is an error. *)
Inductive tok := TAny | TOne | TLit (c : ascii).

Fixpoint tokens (p : string) : option (list tok) :=
  match p with
  | EmptyString => Some []
  | String c r =>
      if Ascii.eqb c "%" then option_map (cons TAny) (tokens r)
      else if Ascii.eqb c "_" then option_map (cons TOne) (tokens r)
      else if Ascii.eqb c "\" then
        match r with
        | EmptyString => None
        | String c2 r2 => option_map (cons (TLit c2)) (tokens r2)
        end
      else option_map (cons (TLit c)) (tokens r)
  end.

Fixpoint like_match (ts : list tok) (s : string) : bool :=
  match ts with
  | [] => match s with EmptyString => true | String _ _ => false end
  | TAny :: ts' =>
      (fix any (s : string) : bool :=
         like_match ts' s || match s with EmptyString => false | String _ s' => any s' end) s
  | TOne :: ts' => match s with EmptyString => false | String _ s' => like_match ts' s' end
  | TLit c :: ts' =>
      match s with
      | EmptyString => false
      | String c' s' => Ascii.eqb c c' && like_match ts' s'
      end
  end.

(** [s ILIKE pat]: LIKE on the lower-cased text and pattern; [None] is the
    error of a pattern ending in the escape character. *)
Definition ilike (s pat : string) : option bool :=
  option_map (fun ts => like_match ts (Schema.lower s)) (tokens (Schema.lower pat)).
End Like.


(** [t] occurs in [s]. *)
Definition contains (t s : string) : Prop := exists pre post, s = (pre ++ t ++ post)%string.

(** [t] holds none of the LIKE special characters [%], [_] and backslash. *)
Definition plain (t : string) : Prop :=
  forall c, In c (list_ascii_of_string t) -> c <> "%"%char /\ c <> "_"%char /\ c <> "\"%char.

Definition no_wildcards (t : string) : bool :=
  forallb (fun c => negb (Ascii.eqb c "%") && negb (Ascii.eqb c "_") && negb (Ascii.eqb c "\"))
    (list_ascii_of_string t).

Module Step5.
Import Like.

(** [LIMIT n]: no limit for NULL, an error for a negative count. *)
Definition limit_rows {A} (limit_count : option Z) (l : list A) : option (list A) :=
  match limit_count with
  | None => Some l
  | Some n => if Z.ltb n 0 then None else Some (firstn (Z.to_nat n) l)
  end.

(** [col ILIKE pat] in a WHERE or CASE condition, for the tokens [ts] of
    the pattern: a NULL column gives NULL, which neither condition takes. *)
Definition ilike_col (ts : list tok) (v : option string) : bool :=
  match v with
  | Some x => like_match ts (Schema.lower x)
  | None => false
  end.

(** Case-insensitive substring test on a nullable column, the reading of
    [col ILIKE '%' || t || '%'] for a term [t] free of wildcards. *)
Definition substring_col (t : string) (v : option string) : bool :=
  match v with
  | Some x => match index 0 (Schema.lower t) (Schema.lower x) with Some _ => true | None => false end
  | None => false
  end.

(** The pattern ['%' || t || '%'] of the searches. *)
Definition contains_pattern (t : string) : string := ("%" ++ t ++ "%")%string.

(** [search_locations(search_term)] (lines 355-400). *)
Record search_row := mk_search_row {
  sr_location_name : string;
  sr_location_hierarchy : string;
  sr_province : option string;
  sr_district : option string;
  sr_sector : option string;
  sr_total_scans : Z;
  match_type : string
}.

(** The WHERE and the CASE of the query, for a column condition [col]
    (the query's is [ilike_col] of its pattern). *)
Definition search_hit (col : option string -> bool) (r : Schema.la_row) : bool :=
  col (Schema.la_province r) || col (Schema.la_district r) || col (Schema.la_sector r).

Definition match_type_of (col : option string -> bool) (r : Schema.la_row) : string :=
  if col (Schema.la_province r) then "Province"
  else if col (Schema.la_district r) then "District"
  else if col (Schema.la_sector r) then "Sector"
  else "Other".

Definition to_search_row (col : option string -> bool) (r : Schema.la_row) : search_row :=
  mk_search_row (Schema.location_name_of r)
    (Step3.location_key_of (Schema.la_province r) (Schema.la_district r) (Schema.la_sector r))
    (Schema.la_province r) (Schema.la_district r) (Schema.la_sector r)
    (Schema.total_scans r) (match_type_of col r).

(** The possible results of the query: a NULL term makes every ILIKE NULL
    and selects nothing; otherwise the matching rows in some order allowed
    by ORDER BY total_scans DESC. *)
Definition search_locations_result (search_term : option string)
    (la : list Schema.la_row) (out : list search_row) : Prop :=
  match search_term with
  | None => out = []
  | Some t =>
      exists ts sorted,
        tokens (Schema.lower (contains_pattern t)) = Some ts /\
        Schema.order_by_total_desc (filter (search_hit (ilike_col ts)) la) sorted /\
        out = map (to_search_row (ilike_col ts)) sorted
  end.

(** One run of the query, with the insertion sort as ORDER BY; [None] is
    the error of a pattern ending in the escape character. *)
Definition search_locations (search_term : option string) (la : list Schema.la_row)
    : option (list search_row) :=
  match search_term with
  | None => Some []
  | Some t =>
      match tokens (Schema.lower (contains_pattern t)) with
      | None => None
      | Some ts =>
          Some (map (to_search_row (ilike_col ts))
                  (Schema.sort_desc (filter (search_hit (ilike_col ts)) la)))
      end
  end.

(** [get_disease_tracking_by_location(location_filter)] (lines 104-155),
    over the [disease_tracking] rows of STEP_3. *)
Record dtl_row := mk_dtl_row {
  dtl_location_name : string;
  dtl_location_hierarchy : string;
  dtl_province : option string;
  dtl_district : option string;
  dtl_sector : option string;
  dtl_disease_name : string;
  dtl_occurrence_count : Z;
  dtl_severity_average : Step3.sev;
  dtl_first_detected : Z;
  dtl_last_detected : Z
}.

Definition dt_location_name (r : Step3.dis_row) : string :=
  match Step3.dt_sector r, Step3.dt_district r, Step3.dt_province r with
  | Some s, _, _ => s
  | None, Some d, _ => d
  | None, None, Some p => p
  | None, None, None => "Unknown"
  end.

Definition to_dtl_row (r : Step3.dis_row) : dtl_row :=
  mk_dtl_row (dt_location_name r)
    (Step3.location_key_of (Step3.dt_province r) (Step3.dt_district r) (Step3.dt_sector r))
    (Step3.dt_province r) (Step3.dt_district r) (Step3.dt_sector r)
    (Step3.disease_name r) (Step3.occurrence_count r)
    (Step3.sev_round3 (Step3.severity_average r))
    (Step3.first_detected r) (Step3.last_detected r).

Definition dt_hit (col : option string -> bool) (r : Step3.dis_row) : bool :=
  col (Step3.dt_province r) || col (Step3.dt_district r) || col (Step3.dt_sector r).

(** ORDER BY occurrence_count DESC, last_detected DESC: [a] may come
    before [b]. *)
Definition dt_order (a b : Step3.dis_row) : Prop :=
  Step3.occurrence_count b < Step3.occurrence_count a \/
  (Step3.occurrence_count b = Step3.occurrence_count a /\
   Step3.last_detected b <= Step3.last_detected a).

Definition dt_selected (location_filter : option string) (dt : list Step3.dis_row)
    : option (list Step3.dis_row) :=
  match location_filter with
  | None => Some dt
  | Some f =>
      match tokens (Schema.lower (contains_pattern f)) with
      | None => None
      | Some ts => Some (filter (dt_hit (ilike_col ts)) dt)
      end
  end.

Definition disease_tracking_by_location_result (location_filter : option string)
    (dt : list Step3.dis_row) (out : list dtl_row) : Prop :=
  exists sel sorted, dt_selected location_filter dt = Some sel /\
    Permutation sel sorted /\ Sorted dt_order sorted /\ out = map to_dtl_row sorted.

(** One run, with a stable insertion sort as ORDER BY. *)
Definition dt_strictly_before (a b : Step3.dis_row) : bool :=
  Z.ltb (Step3.occurrence_count b) (Step3.occurrence_count a) ||
  (Z.eqb (Step3.occurrence_count b) (Step3.occurrence_count a) &&
   Z.ltb (Step3.last_detected b) (Step3.last_detected a)).

Fixpoint insert_dt (r : Step3.dis_row) (l : list Step3.dis_row) : list Step3.dis_row :=
  match l with
  | [] => [r]
  | y :: t => if dt_strictly_before y r then y :: insert_dt r t else r :: y :: t
  end.

Fixpoint sort_dt (l : list Step3.dis_row) : list Step3.dis_row :=
  match l with
  | [] => []
  | r :: t => insert_dt r (sort_dt t)
  end.

Definition get_disease_tracking_by_location (location_filter : option string)
    (dt : list Step3.dis_row) : option (list dtl_row) :=
  option_map (fun sel => map to_dtl_row (sort_dt sel)) (dt_selected location_filter dt).

(** Sample rows for the witnesses below. *)
Definition sample_la (p d s : option string) (total : Z) : Schema.la_row :=
  Schema.mk_la_row "sample" "Rwanda" p d s total 1 0 total 0 0 0 0 0 None None 0 0 None.

Definition sample_dt (p d s : option string) (n : Z) : Step3.dis_row :=
  Step3.mk_dis_row (Step3.location_key_of p d s) p d s "Leaf Rust" n (Step3.sev_lit (1 # 2)) 0 n.
End Step5.

Module Step5More.
Import Schema Step5.

Definition is_not_null {A} (v : option A) : bool :=
  match v with Some _ => true | None => false end.

(** [hierarchy_level = t]: NULL when [hierarchy_level] is NULL, which no
    WHEN takes. *)
Definition level_is (hierarchy_level : option string) (t : string) : bool :=
  match hierarchy_level with Some l => String.eqb l t | None => false end.

(** [get_location_analytics_by_level(hierarchy_level)] (STEP_5 lines
    243-303): the CASE of its WHERE. *)
Definition level_selected (hierarchy_level : option string) (r : la_row) : bool :=
  if level_is hierarchy_level "province" then
    negb (is_not_null (la_district r)) && negb (is_not_null (la_sector r))
  else if level_is hierarchy_level "district" then
    is_not_null (la_district r) && negb (is_not_null (la_sector r))
  else if level_is hierarchy_level "sector" then is_not_null (la_sector r)
  else true.

Record level_row := mk_level_row {
  lv_location_name : string;
  lv_location_hierarchy : string;
  lv_province : option string;
  lv_district : option string;
  lv_sector : option string;
  lv_total_scans : Z;
  lv_healthy_scans : Z;
  lv_diseased_scans : Z;
  lv_unique_users : Z;
  lv_disease_rate : Q;
  lv_last_scan_date : option Z
}.

Definition to_level_row (r : la_row) : level_row :=
  mk_level_row (location_name_of r)
    (Step3.location_key_of (la_province r) (la_district r) (la_sector r))
    (la_province r) (la_district r) (la_sector r) (total_scans r)
    (healthy_scans r) (disease_scans r) (total_users r) (disease_rate_of r)
    (last_scan_at r).

Definition level_rows (hierarchy_level : option string) (la : list la_row) : list la_row :=
  filter (fun r => level_selected hierarchy_level r && Z.ltb 0 (total_scans r)) la.

(** The possible results: the selected rows in an order allowed by ORDER BY
    total_scans DESC. *)
Definition by_level_result (hierarchy_level : option string) (la : list la_row)
    (out : list level_row) : Prop :=
  exists sorted, order_by_total_desc (level_rows hierarchy_level la) sorted /\
    out = map to_level_row sorted.

(** One run, with the insertion sort as ORDER BY. *)
Definition get_location_analytics_by_level (hierarchy_level : option string)
    (la : list la_row) : list level_row :=
  map to_level_row (sort_desc (level_rows hierarchy_level la)).

(** A row of [scan_history] as [get_user_scan_history] and
    [get_recent_scans] (STEP_5 lines 160-240) read it; [created_at] has a
    default but no NOT NULL. *)
Record sh_scan := mk_sh_scan {
  sh_id : string;
  sh_user_id : option string;
  plant_type : option string;
  disease_detected : option string;
  confidence_score : option Q;
  sh_province : option string;
  sh_district : option string;
  sh_sector : option string;
  latitude : option Q;
  longitude : option Q;
  sh_created_at : option Z;
  image_url : option string
}.

Definition sh_location_name (x : sh_scan) : string :=
  match sh_sector x, sh_district x, sh_province x with
  | Some s, _, _ => s
  | None, Some d, _ => d
  | None, None, Some p => p
  | None, None, None => "Unknown"
  end.

(** ORDER BY created_at DESC, NULLs first as PostgreSQL puts them in
    descending order: [a] may come before [b]. *)
Definition created_desc (a b : sh_scan) : Prop :=
  match sh_created_at a, sh_created_at b with
  | None, _ => True
  | Some _, None => False
  | Some x, Some y => y <= x
  end.

(** [b] must come after [a]: [a] is strictly newer, or NULL against a date. *)
Definition created_before (a b : option Z) : Prop :=
  match a, b with
  | None, Some _ => True
  | Some x, Some y => y < x
  | _, _ => False
  end.

Record hist_row := mk_hist_row {
  h_scan_id : string;
  h_plant_type : option string;
  h_disease_detected : option string;
  h_confidence_score : option Q;
  h_location_name : string;
  h_province : option string;
  h_district : option string;
  h_sector : option string;
  h_latitude : option Q;
  h_longitude : option Q;
  h_scan_date : option Z;
  h_image_url : option string
}.

Definition to_hist_row (x : sh_scan) : hist_row :=
  mk_hist_row (sh_id x) (plant_type x) (disease_detected x) (confidence_score x)
    (sh_location_name x) (sh_province x) (sh_district x) (sh_sector x)
    (latitude x) (longitude x) (sh_created_at x) (image_url x).

(** [sh.user_id = user_uuid]: NULL on either side selects nothing. *)
Definition of_user (user_uuid : option string) (x : sh_scan) : bool :=
  match sh_user_id x, user_uuid with
  | Some u, Some v => String.eqb u v
  | _, _ => false
  end.

Definition user_scan_history_result (user_uuid : option string)
    (limit_count : option Z) (log : list sh_scan) (out : list hist_row) : Prop :=
  exists sorted, Permutation (filter (of_user user_uuid) log) sorted /\
    Sorted created_desc sorted /\
    limit_rows limit_count (map to_hist_row sorted) = Some out.

(** [DATE_PART('day', NOW() - created_at)::INTEGER]: the difference of two
    timestamps is an interval whose whole 24-hour periods are days, with
    the sign of the difference, so the day field truncates toward zero. *)
Definition days_ago (now : Z) (created_at : option Z) : option Z :=
  option_map (fun t => Z.quot (now - t) 86400) created_at.

Record recent_row := mk_recent_row {
  r_scan_id : string;
  r_user_id : option string;
  r_plant_type : option string;
  r_disease_detected : option string;
  r_confidence_score : option Q;
  r_location_name : string;
  r_province : option string;
  r_district : option string;
  r_sector : option string;
  r_scan_date : option Z;
  r_days_ago : option Z
}.

Definition to_recent_row (now : Z) (x : sh_scan) : recent_row :=
  mk_recent_row (sh_id x) (sh_user_id x) (plant_type x) (disease_detected x)
    (confidence_score x) (sh_location_name x) (sh_province x) (sh_district x)
    (sh_sector x) (sh_created_at x) (days_ago now (sh_created_at x)).

Definition recent_scans_result (now : Z) (limit_count : option Z)
    (log : list sh_scan) (out : list recent_row) : Prop :=
  exists sorted, Permutation log sorted /\ Sorted created_desc sorted /\
    limit_rows limit_count (map (to_recent_row now) sorted) = Some out.

(** NULLs first, then non-decreasing. *)
Definition days_le (a b : option Z) : Prop :=
  match a, b with
  | None, _ => True
  | Some _, None => False
  | Some x, Some y => x <= y
  end.

(** [get_location_rankings(ranking_type, limit_count)] (STEP_5 lines
    306-370).  The window's sort key: the quotient is taken exactly (NUMERIC
    division keeps at least 16 significant digits). *)
Definition rank_key (ranking_type : option string) (r : la_row) : Q :=
  if level_is ranking_type "scans" then inject_Z (total_scans r)
  else if level_is ranking_type "users" then inject_Z (total_users r)
  else if level_is ranking_type "disease_rate" then
    (if Z.ltb 0 (total_scans r)
     then inject_Z (disease_scans r) / inject_Z (total_scans r) * 100
     else 0)
  else inject_Z (total_scans r).

(** The [metric_value] column: as the key, rounded for 'disease_rate'. *)
Definition metric_value_of (ranking_type : option string) (r : la_row) : Q :=
  if level_is ranking_type "scans" then inject_Z (total_scans r)
  else if level_is ranking_type "users" then inject_Z (total_users r)
  else if level_is ranking_type "disease_rate" then disease_rate_of r
  else inject_Z (total_scans r).

Definition metric_label_of (ranking_type : option string) : string :=
  if level_is ranking_type "scans" then "Total Scans"
  else if level_is ranking_type "users" then "Unique Users"
  else if level_is ranking_type "disease_rate" then "Disease Rate %"
  else "Total Scans".

Record rank_row := mk_rank_row {
  rk_rank : Z;
  rk_location_name : string;
  rk_location_hierarchy : string;
  rk_province : option string;
  rk_district : option string;
  rk_sector : option string;
  rk_metric_value : Q;
  rk_metric_label : string
}.

Definition to_rank_row (ranking_type : option string) (nr : Z * la_row) : rank_row :=
  let (n, r) := nr in
  mk_rank_row n (location_name_of r)
    (Step3.location_key_of (la_province r) (la_district r) (la_sector r))
    (la_province r) (la_district r) (la_sector r)
    (metric_value_of ranking_type r) (metric_label_of ranking_type).

(** ROW_NUMBER() from [n] along the window's order. *)
Fixpoint number_from (n : Z) (l : list la_row) : list (Z * la_row) :=
  match l with
  | [] => []
  | r :: t => (n, r) :: number_from (n + 1) t
  end.

(** The possible results: the rows with scans numbered along some order of
    the window (key DESC), then put in some order by metric_value DESC and
    cut by LIMIT.  Ties are ordered arbitrarily at both stages. *)
Definition rankings_result (ranking_type : option string) (limit_count : option Z)
    (la : list la_row) (out : list rank_row) : Prop :=
  exists windowed final,
    Permutation (positive_rows la) windowed /\
    Sorted (fun a b => rank_key ranking_type b <= rank_key ranking_type a)%Q windowed /\
    Permutation (number_from 1 windowed) final /\
    Sorted (fun a b => metric_value_of ranking_type (snd b)
                       <= metric_value_of ranking_type (snd a))%Q final /\
    limit_rows limit_count (map (to_rank_row ranking_type) final) = Some out.

(** [get_analytics_summary()] (STEP_5 lines 64-100). *)
Record summary := mk_summary {
  s_total_scans : Z;
  s_total_healthy_scans : Z;
  s_total_diseased_scans : Z;
  s_unique_users : Z;
  s_active_locations : Z;
  s_top_disease : option string;
  s_disease_count : option Z;
  s_most_active_location : option string;
  s_location_scan_count : option Z
}.

(** [SELECT ... ORDER BY key DESC LIMIT 1] as a scalar subquery: NULL on an
    empty table, otherwise some row with the largest key. *)
Definition top_row {A} (key : A -> Z) (l : list A) (r : option A) : Prop :=
  match r with
  | None => l = []
  | Some x => In x l /\ Forall (fun y => key y <= key x) l
  end.

(** The possible results: the sums and the count run over the rows with
    [total_scans > 0] (a SUM over no row is NULL, made 0 by COALESCE); the
    four subqueries are independent, over all rows of their tables. *)
Definition analytics_summary_result (la : list la_row) (dt : list Step3.dis_row)
    (s : summary) : Prop :=
  let pos := positive_rows la in
  s_total_scans s = zsum (map total_scans pos) /\
  s_total_healthy_scans s = zsum (map healthy_scans pos) /\
  s_total_diseased_scans s = zsum (map disease_scans pos) /\
  s_unique_users s = zsum (map total_users pos) /\
  s_active_locations s = Z.of_nat (length pos) /\
  (exists r, top_row Step3.occurrence_count dt r /\
             s_top_disease s = option_map Step3.disease_name r) /\
  (exists r, top_row Step3.occurrence_count dt r /\
             s_disease_count s = option_map Step3.occurrence_count r) /\
  (exists r, top_row total_scans la r /\
             s_most_active_location s = option_map location_name_of r) /\
  (exists r, top_row total_scans la r /\
             s_location_scan_count s = option_map total_scans r).

(** A sample scan for the witnesses below. *)
Definition sample_sh (id : string) (u : string) (t : option Z) : sh_scan :=
  mk_sh_scan id (Some u) (Some "Maize") (Some "Healthy") None (Some "Kigali")
    None None None None t None.

End Step5More.

(** ** Generic facts about the aggregate helpers *)

Lemma opt_eqb_eq a b : opt_eqb a b = true <-> a = b.
Proof.
  destruct a as [x|], b as [y|]; simpl; try rewrite String.eqb_eq;
    split; intros H; congruence.
Qed.

Lemma group_keys_snoc {A} (eqb : A -> A -> bool) l x :
  group_keys eqb (l ++ [x]) = add_group eqb (group_keys eqb l) x.
Proof. unfold group_keys. rewrite fold_left_app. reflexivity. Qed.

Lemma in_group_keys {A} (eqb : A -> A -> bool)
    (Heq : forall a b, eqb a b = true <-> a = b) l g :
  In g (group_keys eqb l) <-> In g l.
Proof.
  induction l as [|x l IH] using rev_ind; [simpl; tauto|].
  rewrite group_keys_snoc. unfold add_group. rewrite in_app_iff. simpl.
  destruct (existsb (eqb x) (group_keys eqb l)) eqn:Hex.
  - apply existsb_exists in Hex as [y [Hy Hxy]]. apply Heq in Hxy. subst y.
    rewrite <- IH. split; [tauto|]. intros [H|[H|[]]]; [exact H|subst; exact Hy].
  - rewrite in_app_iff, IH. simpl. tauto.
Qed.

Lemma existsb_group_keys {A} (eqb : A -> A -> bool)
    (Heq : forall a b, eqb a b = true <-> a = b) l g :
  existsb (eqb g) (group_keys eqb l) = true <-> In g l.
Proof.
  rewrite existsb_exists, <- (in_group_keys eqb Heq). split.
  - intros [y [Hy H]]. apply Heq in H. subst. exact Hy.
  - intros H. exists g. split; [exact H|]. apply Heq. reflexivity.
Qed.

Lemma filter_all_false {A} (f : A -> bool) l :
  (forall x, In x l -> f x = false) -> filter f l = [].
Proof.
  induction l as [|x l IH]; intros H; simpl; [reflexivity|].
  rewrite (H x) by (left; reflexivity). apply IH. intros y Hy. apply H. right. exact Hy.
Qed.

Lemma find_map_same {A} (p : A -> bool) (f : A -> A) l :
  (forall x, p (f x) = p x) -> find p (map f l) = option_map f (find p l).
Proof.
  intros Hp. induction l as [|x l IH]; simpl; [reflexivity|].
  rewrite Hp. destruct (p x); [reflexivity|exact IH].
Qed.

Lemma find_app_none {A} (p : A -> bool) l1 l2 :
  find p l1 = None -> find p (l1 ++ l2) = find p l2.
Proof.
  induction l1 as [|x l1 IH]; simpl; [reflexivity|].
  destruct (p x); [discriminate|exact IH].
Qed.

Lemma max_of_snoc {A} (f : A -> Z) l x :
  l <> [] -> max_of f (l ++ [x]) = Z.max (max_of f l) (f x).
Proof.
  destruct l as [|y l]; intros H; [contradiction|]. simpl.
  rewrite fold_left_app. reflexivity.
Qed.

Lemma min_of_snoc {A} (f : A -> Z) l x :
  l <> [] -> min_of f (l ++ [x]) = Z.min (min_of f l) (f x).
Proof.
  destruct l as [|y l]; intros H; [contradiction|]. simpl.
  rewrite fold_left_app. reflexivity.
Qed.

Lemma fold_min_le {A} (f : A -> Z) r a :
  fold_left (fun m y => Z.min m (f y)) r a <= a.
Proof.
  revert a. induction r as [|y r IH]; intros a; simpl; [lia|].
  specialize (IH (Z.min a (f y))). lia.
Qed.

Lemma count_if_snoc {A} (p : A -> bool) l x :
  count_if p (l ++ [x]) = count_if p l + (if p x then 1 else 0).
Proof.
  unfold count_if. rewrite filter_app, length_app. simpl.
  destruct (p x); simpl; lia.
Qed.

Lemma StronglySorted_snoc {A} (R : A -> A -> Prop) l x :
  StronglySorted R (l ++ [x]) -> StronglySorted R l /\ Forall (fun y => R y x) l.
Proof.
  induction l as [|y l IH]; simpl; intros H.
  - split; constructor.
  - inversion H as [|? ? Hs Hf]; subst. apply IH in Hs as [Hs Hl].
    apply Forall_app in Hf as [Hf1 Hf2]. inversion Hf2; subst.
    split; constructor; assumption.
Qed.

Module Step3Facts.
Import Step3.

Lemma tuple_eqb_eq a b : tuple_eqb a b = true <-> a = b.
Proof.
  destruct a as [[p1 d1] s1], b as [[p2 d2] s2]; simpl.
  rewrite !andb_true_iff, !opt_eqb_eq. split.
  - intros [[-> ->] ->]. reflexivity.
  - intros H. inversion H. auto.
Qed.

Lemma dis_group_eqb_eq a b : dis_group_eqb a b = true <-> a = b.
Proof.
  destruct a as [t1 n1], b as [t2 n2]. unfold dis_group_eqb. simpl.
  rewrite andb_true_iff, tuple_eqb_eq, String.eqb_eq. split.
  - intros [-> ->]. reflexivity.
  - intros H. inversion H. auto.
Qed.

Lemma location_key_tuple e : location_key e = tuple_key (scan_tuple e).
Proof. reflexivity. Qed.

Lemma group_row_hier log g : location_hierarchy (group_row log g) = tuple_key g.
Proof. destruct g as [[p d] s]. reflexivity. Qed.

Lemma filter_tuple_snoc log e t :
  filter (fun x => tuple_eqb (scan_tuple x) t) (log ++ [e])
  = filter (fun x => tuple_eqb (scan_tuple x) t) log
    ++ (if tuple_eqb (scan_tuple e) t then [e] else []).
Proof. rewrite filter_app. simpl. destruct (tuple_eqb (scan_tuple e) t); reflexivity. Qed.

Lemma group_row_other log e g :
  g <> scan_tuple e -> group_row (log ++ [e]) g = group_row log g.
Proof.
  intros Hne. unfold group_row. rewrite filter_tuple_snoc.
  destruct (tuple_eqb (scan_tuple e) g) eqn:Ht.
  - apply tuple_eqb_eq in Ht. congruence.
  - rewrite app_nil_r. reflexivity.
Qed.

Lemma group_row_same log e :
  In (scan_tuple e) (map scan_tuple log) ->
  let r := group_row log (scan_tuple e) in
  group_row (log ++ [e]) (scan_tuple e) =
  mk_loc_row (location_hierarchy r) (la_province r) (la_district r) (la_sector r)
    (total_scans r + 1)
    (healthy_scans r + b2z (is_healthy e))
    (diseased_scans r + b2z (is_diseased e))
    (count_users (log ++ [e]) (scan_tuple e))
    (Z.max (last_scan_date r) (created_at e)).
Proof.
  intros Hin r. subst r.
  assert (Hne : filter (fun x => tuple_eqb (scan_tuple x) (scan_tuple e)) log <> []).
  { apply in_map_iff in Hin as [x [Hx Hxl]]. intros Hnil.
    assert (Hf : In x (filter (fun x => tuple_eqb (scan_tuple x) (scan_tuple e)) log)).
    { apply filter_In. split; [exact Hxl|]. apply tuple_eqb_eq. exact Hx. }
    rewrite Hnil in Hf. exact Hf. }
  unfold group_row, count_users. rewrite filter_tuple_snoc.
  assert (Hself : tuple_eqb (scan_tuple e) (scan_tuple e) = true) by (apply tuple_eqb_eq; reflexivity).
  rewrite Hself. revert Hne.
  set (es := filter (fun x => tuple_eqb (scan_tuple x) (scan_tuple e)) log).
  intros Hne. destruct (scan_tuple e) as [[p d] s]. simpl.
  rewrite length_app, !count_if_snoc, max_of_snoc by exact Hne. simpl.
  unfold b2z. f_equal. lia.
Qed.

Lemma group_row_new log e :
  ~ In (scan_tuple e) (map scan_tuple log) ->
  group_row (log ++ [e]) (scan_tuple e) =
  set_unique_users
    (mk_loc_row (location_key e) (province e) (district e) (sector e)
       1 (b2z (is_healthy e)) (b2z (is_diseased e)) 1 (created_at e))
    (count_users (log ++ [e]) (scan_tuple e)).
Proof.
  intros Hnin.
  assert (Hnil : filter (fun x => tuple_eqb (scan_tuple x) (scan_tuple e)) log = []).
  { apply filter_all_false. intros x Hx.
    destruct (tuple_eqb (scan_tuple x) (scan_tuple e)) eqn:Ht; [|reflexivity].
    exfalso. apply Hnin. apply tuple_eqb_eq in Ht. rewrite <- Ht.
    apply in_map. exact Hx. }
  unfold group_row, count_users. rewrite filter_tuple_snoc, Hnil.
  assert (Hself : tuple_eqb (scan_tuple e) (scan_tuple e) = true) by (apply tuple_eqb_eq; reflexivity).
  rewrite Hself. simpl. unfold count_if, b2z. simpl.
  destruct (is_healthy e), (is_diseased e); reflexivity.
Qed.

Lemma recompute_location_snoc E e :
  (forall x, In x E -> location_key x = location_key e -> scan_tuple x = scan_tuple e) ->
  update_location_analytics (E ++ [e]) e (recompute_location E)
  = recompute_location (E ++ [e]).
Proof.
  intros Hinj. unfold recompute_location.
  replace (map scan_tuple (E ++ [e])) with (map scan_tuple E ++ [scan_tuple e])
    by (rewrite map_app; reflexivity).
  rewrite group_keys_snoc.
  set (G := group_keys tuple_eqb (map scan_tuple E)).
  assert (HG : forall g, In g G <-> In g (map scan_tuple E))
    by (apply in_group_keys, tuple_eqb_eq).
  assert (Hkey : forall g, In g G -> tuple_key g = location_key e -> g = scan_tuple e).
  { intros g Hg Hk. apply HG, in_map_iff in Hg as [x [<- Hx]]. apply Hinj; assumption. }
  unfold update_location_analytics, add_group.
  destruct (existsb (tuple_eqb (scan_tuple e)) G) eqn:Hex.
  - assert (Hin : In (scan_tuple e) G).
    { apply existsb_exists in Hex as [y [Hy Hxy]]. apply tuple_eqb_eq in Hxy.
      subst y. exact Hy. }
    destruct (find _ (map (group_row E) G)) eqn:Hf.
    + rewrite map_map. apply map_ext_in. intros g Hg. cbv beta.
      rewrite group_row_hier.
      destruct (String.eqb (tuple_key g) (location_key e)) eqn:Hk.
      * apply String.eqb_eq in Hk. apply Hkey in Hk; [|exact Hg]. subst g.
        rewrite group_row_same by (apply HG; exact Hin). reflexivity.
      * rewrite group_row_other; [reflexivity|]. intros ->.
        rewrite <- location_key_tuple, String.eqb_refl in Hk. discriminate.
    + exfalso.
      assert (Hc := find_none _ _ Hf (group_row E (scan_tuple e)) (in_map _ _ _ Hin)).
      cbv beta in Hc.
      rewrite group_row_hier, <- location_key_tuple, String.eqb_refl in Hc. discriminate.
  - assert (Hnin : ~ In (scan_tuple e) G).
    { intros Hin.
      assert (Ht : existsb (tuple_eqb (scan_tuple e)) G = true).
      { apply existsb_exists. exists (scan_tuple e).
        split; [exact Hin|]. apply tuple_eqb_eq. reflexivity. }
      congruence. }
    destruct (find _ (map (group_row E) G)) eqn:Hf.
    + exfalso. apply find_some in Hf as [Hl Hk]. apply in_map_iff in Hl as [g [<- Hg]].
      rewrite group_row_hier, String.eqb_eq in Hk. apply Hkey in Hk; [|exact Hg].
      subst g. contradiction.
    + rewrite !map_app, map_map. f_equal.
      * apply map_ext_in. intros g Hg. cbv beta. rewrite group_row_hier.
        destruct (String.eqb (tuple_key g) (location_key e)) eqn:Hk.
        -- apply String.eqb_eq, Hkey in Hk; [|exact Hg]. subst g. contradiction.
        -- rewrite group_row_other; [reflexivity|]. intros ->. contradiction.
      * simpl. rewrite String.eqb_refl. f_equal. symmetry. apply group_row_new.
        rewrite <- HG. exact Hnin.
Qed.


Lemma dis_group_row_hier ds g :
  dt_location_hierarchy (dis_group_row ds g) = tuple_key (fst g)
  /\ disease_name (dis_group_row ds g) = snd g.
Proof. destruct g as [[[p d] s] n]. split; reflexivity. Qed.

Lemma filter_dis_group_snoc ds e g :
  filter (fun x => dis_group_eqb (dis_group_of x) g) (ds ++ [e])
  = filter (fun x => dis_group_eqb (dis_group_of x) g) ds
    ++ (if dis_group_eqb (dis_group_of e) g then [e] else []).
Proof. rewrite filter_app. simpl. destruct (dis_group_eqb (dis_group_of e) g); reflexivity. Qed.

Lemma qsum_snoc l x : qsum (l ++ [x]) = (qsum l + x)%Q.
Proof. unfold qsum. rewrite fold_left_app. reflexivity. Qed.

Lemma dis_group_row_other ds e g :
  g <> dis_group_of e -> dis_group_row (ds ++ [e]) g = dis_group_row ds g.
Proof.
  intros Hne. unfold dis_group_row. rewrite filter_dis_group_snoc.
  destruct (dis_group_eqb (dis_group_of e) g) eqn:Ht.
  - apply dis_group_eqb_eq in Ht. congruence.
  - rewrite app_nil_r. reflexivity.
Qed.

Lemma dis_group_row_same ds e :
  (forall x, In x ds -> created_at x <= created_at e) ->
  In (dis_group_of e) (map dis_group_of ds) ->
  let r := dis_group_row ds (dis_group_of e) in
  dis_row_canon (dis_group_row (ds ++ [e]) (dis_group_of e)) =
  dis_row_canon
    (mk_dis_row (dt_location_hierarchy r) (dt_province r) (dt_district r)
       (dt_sector r) (disease_name r)
       (occurrence_count r + 1)
       (sev_online (severity_average r) (occurrence_count r) (confidence e))
       (first_detected r)
       (Z.max (last_detected r) (created_at e))).
Proof.
  intros Hsorted Hin r. subst r.
  set (es := filter (fun x => dis_group_eqb (dis_group_of x) (dis_group_of e)) ds).
  assert (Hes : forall x, In x es -> In x ds)
    by (intros x Hx; apply filter_In in Hx; tauto).
  assert (Hne : es <> []).
  { apply in_map_iff in Hin as [x [Hx Hxl]]. intros Hnil.
    assert (Hf : In x es).
    { apply filter_In. split; [exact Hxl|]. apply dis_group_eqb_eq. exact Hx. }
    rewrite Hnil in Hf. exact Hf. }
  assert (Hmin : min_of created_at es <= created_at e).
  { destruct es as [|y rest]; [contradiction|]. simpl.
    pose proof (fold_min_le created_at rest (created_at y)).
    pose proof (Hsorted y (Hes y (or_introl eq_refl))). lia. }
  assert (Hlen : (0 < Z.of_nat (length es))%Z).
  { destruct es; [contradiction|]. simpl. lia. }
  unfold dis_group_row. rewrite filter_dis_group_snoc.
  assert (Hself : dis_group_eqb (dis_group_of e) (dis_group_of e) = true)
    by (apply dis_group_eqb_eq; reflexivity).
  rewrite Hself. fold es. revert Hne Hmin Hlen.
  generalize es. clear es Hes. intros es Hne Hmin Hlen.
  destruct (dis_group_of e) as [[[p d] s] n]. unfold dis_row_canon, sev_exact.
  cbn -[Qred Qdiv Qplus Qmult inject_Z qsum min_of max_of Z.of_nat length].
  rewrite length_app, min_of_snoc, max_of_snoc, map_app by exact Hne.
  cbn -[Qred Qdiv Qplus Qmult inject_Z qsum min_of Z.of_nat length].
  rewrite Nat2Z.inj_add. f_equal; [|lia]. f_equal.
  apply Qred_complete. rewrite qsum_snoc, length_app, length_map.
  change (Datatypes.length [confidence e]) with 1%nat. rewrite Nat2Z.inj_add, !inject_Z_plus.
  set (k := inject_Z (Z.of_nat (length es))).
  assert (Hk : ~ (k == 0)%Q) by (unfold k, Qeq; simpl; lia).
  assert (Hk1 : ~ (k + inject_Z 1 == 0)%Q) by (unfold k, Qeq; simpl; lia).
  field. split; assumption.
Qed.

Lemma dis_group_row_new ds e :
  ~ In (dis_group_of e) (map dis_group_of ds) ->
  dis_row_canon (dis_group_row (ds ++ [e]) (dis_group_of e)) =
  dis_row_canon
    (mk_dis_row (location_key e) (province e) (district e) (sector e) (label e) 1
       (sev_lit (confidence e)) (created_at e) (created_at e)).
Proof.
  intros Hnin.
  assert (Hnil : filter (fun x => dis_group_eqb (dis_group_of x) (dis_group_of e)) ds = []).
  { apply filter_all_false. intros x Hx.
    destruct (dis_group_eqb (dis_group_of x) (dis_group_of e)) eqn:Ht; [|reflexivity].
    exfalso. apply Hnin. apply dis_group_eqb_eq in Ht. rewrite <- Ht.
    apply in_map. exact Hx. }
  unfold dis_group_row. rewrite filter_dis_group_snoc, Hnil.
  assert (Hself : dis_group_eqb (dis_group_of e) (dis_group_of e) = true)
    by (apply dis_group_eqb_eq; reflexivity).
  rewrite Hself. unfold dis_row_canon, sev_exact.
  cbn -[Qred Qdiv Qplus inject_Z qsum]. f_equal. f_equal.
  apply Qred_complete. unfold qsum. simpl. field.
Qed.


Lemma dis_row_canon_idem r : dis_row_canon (dis_row_canon r) = dis_row_canon r.
Proof.
  unfold dis_row_canon, sev_exact. cbn -[Qred]. f_equal. f_equal.
  apply Qred_complete, Qred_correct.
Qed.

(** Up to the exact values of the severity expressions,
    [update_disease_tracking] depends only on the exact values it reads. *)
Lemma canon_update e dt :
  map dis_row_canon (update_disease_tracking e dt)
  = map dis_row_canon (update_disease_tracking e (map dis_row_canon dt)).
Proof.
  unfold update_disease_tracking.
  destruct (disease_detected e) as [d|]; [|rewrite map_map; apply map_ext; intros r;
                                          symmetry; apply dis_row_canon_idem].
  destruct (String.eqb d "Healthy");
    [rewrite map_map; apply map_ext; intros r; symmetry; apply dis_row_canon_idem|].
  rewrite find_map_same by (intros; reflexivity).
  destruct (find _ dt) eqn:Hf; cbn [option_map].
  - rewrite !map_map. apply map_ext. intros r.
    cbn -[Qred Qdiv Qmult Qplus inject_Z].
    destruct (String.eqb (dt_location_hierarchy r) (location_key e)
              && String.eqb (disease_name r) d).
    + unfold dis_row_canon, sev_exact. cbn -[Qred Qdiv Qmult Qplus inject_Z]. f_equal.
      f_equal. apply Qred_complete. rewrite Qred_correct. reflexivity.
    + symmetry. apply dis_row_canon_idem.
  - rewrite !map_app, map_map. f_equal. apply map_ext. intros r.
    symmetry. apply dis_row_canon_idem.
Qed.

Lemma canon_update_congr e dt1 dt2 :
  map dis_row_canon dt1 = map dis_row_canon dt2 ->
  map dis_row_canon (update_disease_tracking e dt1)
  = map dis_row_canon (update_disease_tracking e dt2).
Proof.
  intros H. rewrite (canon_update e dt1), (canon_update e dt2), H. reflexivity.
Qed.

Lemma recompute_disease_snoc E e :
  (forall x, In x E -> location_key x = location_key e -> scan_tuple x = scan_tuple e) ->
  (forall x, In x E -> created_at x <= created_at e) ->
  map dis_row_canon (update_disease_tracking e (recompute_disease E))
  = map dis_row_canon (recompute_disease (E ++ [e])).
Proof.
  intros Hinj Hsorted. unfold recompute_disease, update_disease_tracking.
  destruct (disease_detected e) as [d|] eqn:Hd.
  2:{ assert (Hn : is_diseased e = false) by (unfold is_diseased; rewrite Hd; reflexivity).
      rewrite filter_app. simpl. rewrite Hn, app_nil_r. reflexivity. }
  destruct (String.eqb d "Healthy") eqn:Hh.
  { assert (Hn : is_diseased e = false)
      by (unfold is_diseased; rewrite Hd, Hh; reflexivity).
    rewrite filter_app. simpl. rewrite Hn, app_nil_r. reflexivity. }
  assert (Hdis : is_diseased e = true) by (unfold is_diseased; rewrite Hd, Hh; reflexivity).
  assert (Hlabel : label e = d) by (unfold label; rewrite Hd; reflexivity).
  replace (filter is_diseased (E ++ [e])) with (filter is_diseased E ++ [e])
    by (rewrite filter_app; simpl; rewrite Hdis; reflexivity).
  set (ds := filter is_diseased E).
  assert (Hds : forall x, In x ds -> In x E)
    by (intros x Hx; apply filter_In in Hx; tauto).
  replace (map dis_group_of (ds ++ [e])) with (map dis_group_of ds ++ [dis_group_of e])
    by (rewrite map_app; reflexivity).
  rewrite group_keys_snoc.
  set (G := group_keys dis_group_eqb (map dis_group_of ds)).
  assert (HG : forall g, In g G <-> In g (map dis_group_of ds))
    by (apply in_group_keys, dis_group_eqb_eq).
  assert (Hkey : forall g, In g G -> tuple_key (fst g) = location_key e -> snd g = d ->
                           g = dis_group_of e).
  { intros g Hg Hk Hn. apply HG, in_map_iff in Hg as [x [<- Hx]].
    unfold dis_group_of in *. simpl in Hk, Hn. rewrite Hinj by (auto; apply Hds; exact Hx).
    congruence. }
  assert (Hrow : forall g, In g G ->
            (String.eqb (dt_location_hierarchy (dis_group_row ds g)) (location_key e)
             && String.eqb (disease_name (dis_group_row ds g)) d) = true ->
            g = dis_group_of e).
  { intros g Hg Hk. destruct (dis_group_row_hier ds g) as [H1 H2].
    rewrite H1, H2, andb_true_iff, !String.eqb_eq in Hk. apply Hkey; tauto. }
  assert (Hself : String.eqb (dt_location_hierarchy (dis_group_row ds (dis_group_of e)))
                    (location_key e)
                  && String.eqb (disease_name (dis_group_row ds (dis_group_of e))) d = true).
  { destruct (dis_group_row_hier ds (dis_group_of e)) as [H1 H2].
    rewrite H1, H2. change (fst (dis_group_of e)) with (scan_tuple e).
    change (snd (dis_group_of e)) with (label e).
    rewrite <- location_key_tuple, Hlabel, !String.eqb_refl.
    reflexivity. }
  unfold add_group.
  destruct (existsb (dis_group_eqb (dis_group_of e)) G) eqn:Hex.
  - assert (Hin : In (dis_group_of e) G).
    { apply existsb_exists in Hex as [y [Hy Hxy]]. apply dis_group_eqb_eq in Hxy.
      subst y. exact Hy. }
    destruct (find _ (map (dis_group_row ds) G)) eqn:Hf.
    + rewrite !map_map. apply map_ext_in. intros g Hg. cbv beta.
      destruct (String.eqb (dt_location_hierarchy (dis_group_row ds g)) (location_key e)
                && String.eqb (disease_name (dis_group_row ds g)) d) eqn:Hk.
      * apply Hrow in Hk; [|exact Hg]. subst g.
        symmetry. apply dis_group_row_same; [|apply HG; exact Hin].
        intros x Hx. apply Hsorted, Hds. exact Hx.
      * rewrite dis_group_row_other; [reflexivity|]. intros ->. congruence.
    + exfalso.
      assert (Hc := find_none _ _ Hf (dis_group_row ds (dis_group_of e)) (in_map _ _ _ Hin)).
      cbv beta in Hc. congruence.
  - assert (Hnin : ~ In (dis_group_of e) G).
    { intros Hin.
      assert (Ht : existsb (dis_group_eqb (dis_group_of e)) G = true).
      { apply existsb_exists. exists (dis_group_of e).
        split; [exact Hin|]. apply dis_group_eqb_eq. reflexivity. }
      congruence. }
    destruct (find _ (map (dis_group_row ds) G)) eqn:Hf.
    + exfalso. apply find_some in Hf as [Hl Hk]. apply in_map_iff in Hl as [g [<- Hg]].
      apply Hrow in Hk; [|exact Hg]. subst g. contradiction.
    + rewrite !map_app, !map_map. f_equal.
      * apply map_ext_in. intros g Hg. rewrite dis_group_row_other; [reflexivity|].
        intros ->. contradiction.
      * cbn [map]. f_equal. rewrite dis_group_row_new, Hlabel; [reflexivity|].
        rewrite <- HG. exact Hnin.
Qed.


Lemma keys_injectiveb_spec E : keys_injectiveb E = true -> keys_injective E.
Proof.
  unfold keys_injectiveb, keys_injective. rewrite forallb_forall. intros H x y Hx Hy Hk.
  specialize (H x Hx). rewrite forallb_forall in H. specialize (H y Hy).
  rewrite Hk, String.eqb_refl in H. simpl in H. apply tuple_eqb_eq. exact H.
Qed.

Lemma created_sorted_spec E :
  created_sorted E = true -> StronglySorted (fun a b => created_at a <= created_at b) E.
Proof.
  induction E as [|x r IH]; simpl; intros H; constructor.
  - apply IH. apply andb_true_iff in H. tauto.
  - apply andb_true_iff in H as [H _]. rewrite forallb_forall in H.
    apply Forall_forall. intros y Hy. apply Z.leb_le, H, Hy.
Qed.

Lemma apply_all_snoc E e s : apply_all (E ++ [e]) s = insert_scan e (apply_all E s).
Proof. unfold apply_all. rewrite fold_left_app. reflexivity. Qed.

(** The triggers keep the aggregate tables equal to a recomputation over the
    log (severity expressions compared by their exact values). *)
Lemma apply_all_recompute E :
  keys_injective E -> StronglySorted (fun a b => created_at a <= created_at b) E ->
  scan_history (apply_all E empty_store) = E /\
  location_analytics (apply_all E empty_store) = recompute_location E /\
  map dis_row_canon (disease_tracking (apply_all E empty_store))
  = map dis_row_canon (recompute_disease E).
Proof.
  induction E as [|e E IH] using rev_ind.
  - intros _ _. repeat split.
  - intros Hinj Hs. apply StronglySorted_snoc in Hs as [Hs Hle].
    assert (Hinj' : keys_injective E).
    { intros x y Hx Hy. apply Hinj; apply in_or_app; left; assumption. }
    destruct (IH Hinj' Hs) as [H1 [H2 H3]].
    rewrite apply_all_snoc. unfold insert_scan.
    cbn [scan_history location_analytics disease_tracking]. rewrite H1, H2.
    split; [reflexivity|]. split.
    + apply recompute_location_snoc. intros x Hx Hk. apply Hinj; try assumption.
      * apply in_or_app. left. exact Hx.
      * apply in_or_app. right. left. reflexivity.
    + rewrite (canon_update_congr e _ _ H3). apply recompute_disease_snoc.
      * intros x Hx Hk. apply Hinj; try assumption.
        -- apply in_or_app. left. exact Hx.
        -- apply in_or_app. right. left. reflexivity.
      * intros x Hx. rewrite Forall_forall in Hle. apply Hle. exact Hx.
Qed.


(** ** Claims about the STEP_3 triggers and recomputation *)

(** C1 (amended).  For an event log in which no two distinct
    (province, district, sector) tuples derive the same location key and
    whose [created_at] values are non-decreasing in arrival order,
    [recalculate_location_analytics] run after the triggers have processed
    the whole log leaves the log unchanged, rebuilds exactly the same
    [location_analytics] rows, and rebuilds [disease_tracking] rows equal to
    the triggers' in every column but [severity_average]; there the
    recomputation's AVG and the triggers' online mean have the same value in
    exact arithmetic (they are rounded differently in the column's type, so
    the stored values are not compared). *)
Theorem recalculate_agrees_with_triggers E :
  keys_injectiveb E = true -> created_sorted E = true ->
  let s := apply_all E empty_store in
  let s' := recalculate_location_analytics s in
  scan_history s' = scan_history s /\
  location_analytics s' = location_analytics s /\
  map dis_row_canon (disease_tracking s') = map dis_row_canon (disease_tracking s).
Proof.
  intros Hinj Hsorted s s'.
  destruct (apply_all_recompute E (keys_injectiveb_spec E Hinj)
              (created_sorted_spec E Hsorted)) as [H1 [H2 H3]].
  subst s s'. unfold recalculate_location_analytics.
  cbn [scan_history location_analytics disease_tracking]. rewrite H1.
  split; [reflexivity|]. split; symmetry; assumption.
Qed.

Lemma recalculate_agrees_with_triggers_witness :
  let E := [mk_scan "s1" (Some "u1") (Some "Eastern Province") (Some "Nyagatare") None
              (Some "Early Blight") (Some (9 # 10)) 100;
            mk_scan "s2" (Some "u2") (Some "Eastern Province") (Some "Nyagatare") None
              (Some "Early Blight") (Some (8 # 10)) 200;
            mk_scan "s3" (Some "u1") (Some "Eastern Province") (Some "Nyagatare") None
              (Some "Healthy") (Some (95 # 100)) 300;
            mk_scan "s4" None (Some "Northern Province") None None
              None None 400] in
  keys_injectiveb E = true /\ created_sorted E = true /\
  (let s := apply_all E empty_store in
   let s' := recalculate_location_analytics s in
   scan_history s' = scan_history s /\
   location_analytics s' = location_analytics s /\
   map dis_row_canon (disease_tracking s') = map dis_row_canon (disease_tracking s)).
Proof.
  intros E. split; [vm_compute; reflexivity|]. split; [vm_compute; reflexivity|].
  apply recalculate_agrees_with_triggers; vm_compute; reflexivity.
Defined.

(** C1 counterexample.  Province "A>B" and the pair (province "A",
    district "B") both derive the key "A>B": the triggers fold both scans
    into one [location_analytics] row, the recomputation, grouping by the
    three columns, produces two. *)
Lemma recalculate_differs_on_key_collision :
  let E := [mk_scan "s1" (Some "u1") (Some "A>B") None None
              (Some "Blight") (Some (9 # 10)) 5;
            mk_scan "s2" (Some "u2") (Some "A") (Some "B") None
              (Some "Blight") (Some (7 # 10)) 6] in
  let s := apply_all E empty_store in
  length (location_analytics s) = 1%nat /\
  length (location_analytics (recalculate_location_analytics s)) = 2%nat.
Proof. vm_compute. split; reflexivity. Qed.


Lemma healthy_diseased_one e : b2z (is_healthy e) + b2z (is_diseased e) = 1.
Proof.
  unfold b2z, is_healthy, is_diseased.
  destruct (disease_detected e) as [d|]; [destruct (String.eqb d "Healthy")|]; reflexivity.
Qed.

Lemma count_healthy_diseased l :
  count_if is_healthy l + count_if is_diseased l = Z.of_nat (length l).
Proof.
  induction l as [|x l IH]; [reflexivity|].
  unfold count_if in *. cbn [filter length].
  pose proof (healthy_diseased_one x) as H. unfold b2z in H.
  destruct (is_healthy x), (is_diseased x); cbn [length] in *;
    rewrite ?Nat2Z.inj_succ; lia.
Qed.

Lemma find_location_update e s r :
  find_location (location_key e) (location_analytics s) = Some r ->
  find_location (location_key e) (location_analytics (insert_scan e s)) =
  Some (mk_loc_row (location_hierarchy r) (la_province r) (la_district r) (la_sector r)
          (total_scans r + 1)
          (healthy_scans r + b2z (is_healthy e))
          (diseased_scans r + b2z (is_diseased e))
          (count_users (scan_history s ++ [e]) (scan_tuple e))
          (Z.max (last_scan_date r) (created_at e))).
Proof.
  unfold find_location. intros Hf. unfold insert_scan, update_location_analytics.
  cbn [location_analytics scan_history]. rewrite Hf.
  rewrite find_map_same.
  - rewrite Hf. cbn [option_map]. apply find_some in Hf as [_ Hk]. rewrite Hk.
    reflexivity.
  - intros x. destruct (String.eqb (location_hierarchy x) (location_key e)) eqn:Hx;
      unfold set_unique_users; cbn [location_hierarchy]; rewrite ?Hx; reflexivity.
Qed.

Lemma find_location_new e s :
  find_location (location_key e) (location_analytics s) = None ->
  find_location (location_key e) (location_analytics (insert_scan e s)) =
  Some (mk_loc_row (location_key e) (province e) (district e) (sector e)
          1 (b2z (is_healthy e)) (b2z (is_diseased e))
          (count_users (scan_history s ++ [e]) (scan_tuple e)) (created_at e)).
Proof.
  unfold find_location. intros Hf. unfold insert_scan, update_location_analytics.
  cbn [location_analytics scan_history]. rewrite Hf.
  rewrite find_map_same.
  - rewrite find_app_none by exact Hf. simpl. rewrite String.eqb_refl. simpl.
    rewrite String.eqb_refl. reflexivity.
  - intros x. destruct (String.eqb (location_hierarchy x) (location_key e)) eqn:Hx;
      unfold set_unique_users; cbn [location_hierarchy]; rewrite ?Hx; reflexivity.
Qed.

(** C2.  In every reachable state, every [location_analytics] row satisfies
    healthy_scans + diseased_scans = total_scans. *)
Theorem counts_partition_total s :
  reachable s ->
  Forall (fun r => healthy_scans r + diseased_scans r = total_scans r)
         (location_analytics s).
Proof.
  induction 1 as [|e s _ IH|s _ IH].
  - constructor.
  - unfold insert_scan, update_location_analytics. cbn [location_analytics].
    pose proof (healthy_diseased_one e) as H1.
    destruct (find _ (location_analytics s)).
    + apply Forall_map. rewrite Forall_forall in *. intros r Hr.
      specialize (IH r Hr).
      destruct (String.eqb (location_hierarchy r) (location_key e)); simpl; lia.
    + apply Forall_map. apply Forall_app. split.
      * rewrite Forall_forall in *. intros r Hr. specialize (IH r Hr).
        destruct (String.eqb (location_hierarchy r) (location_key e)); simpl; lia.
      * constructor; [|constructor].
        destruct (String.eqb _ _); simpl; lia.
  - unfold recalculate_location_analytics, recompute_location.
    cbn [location_analytics]. apply Forall_forall. intros r Hr.
    apply in_map_iff in Hr as [[[p d] sc] [<- _]]. simpl.
    apply count_healthy_diseased.
Qed.

Lemma counts_partition_total_witness :
  let s := insert_scan (mk_scan "s2" (Some "u1") (Some "Kigali City") None None
                          (Some "Leaf Rust") None 20)
             (recalculate_location_analytics
                (insert_scan (mk_scan "s1" None (Some "Kigali City") None None
                                None None 10) empty_store)) in
  reachable s /\
  Forall (fun r => healthy_scans r + diseased_scans r = total_scans r) (location_analytics s).
Proof.
  intros s. assert (Hr : reachable s) by (repeat constructor).
  split; [exact Hr|]. apply counts_partition_total. exact Hr.
Defined.


(** C3 (amended).  [location_key] depends only on the (province, district,
    sector) tuple; it is the province alone when no district is given, the
    levels joined by a bare ">" (no surrounding spaces) when finer levels are
    given, and "Unknown" when there is no province. *)
Theorem location_key_levels :
  (forall e, location_key e = tuple_key (scan_tuple e)) /\
  (forall p s, location_key_of (Some p) None s = p) /\
  (forall p d, location_key_of (Some p) (Some d) None = (p ++ ">" ++ d)%string) /\
  (forall p d s, location_key_of (Some p) (Some d) (Some s)
                 = (p ++ ">" ++ d ++ ">" ++ s)%string) /\
  (forall d s, location_key_of None d s = "Unknown") /\
  location_key_of (Some "Northern Province") None None = "Northern Province" /\
  location_key_of (Some "Northern Province") (Some "Musanze") None
    = "Northern Province>Musanze".
Proof. repeat split. Qed.

(** C3 counterexample.  Adding district "Musanze" to province "Northern
    Province" yields "Northern Province>Musanze", not
    "Northern Province > Musanze". *)
Lemma location_key_has_no_spaces :
  location_key (mk_scan "s1" None (Some "Northern Province") (Some "Musanze") None
                  None None 0)
  <> "Northern Province > Musanze".
Proof. vm_compute. discriminate. Qed.

Lemma apply_all_disease es s :
  disease_tracking (apply_all es s)
  = fold_left (fun dt e => update_disease_tracking e dt) es (disease_tracking s).
Proof.
  revert s. induction es as [|e es IH]; intros s; [reflexivity|]. simpl. apply IH.
Qed.

Lemma update_disease_found e dt d r :
  disease_detected e = Some d -> String.eqb d "Healthy" = false ->
  find (dis_row_is (location_key e) d) dt = Some r ->
  find (dis_row_is (location_key e) d) (update_disease_tracking e dt) =
  Some (mk_dis_row (dt_location_hierarchy r) (dt_province r) (dt_district r)
          (dt_sector r) (disease_name r) (occurrence_count r + 1)
          (sev_online (severity_average r) (occurrence_count r) (confidence e))
          (first_detected r) (Z.max (last_detected r) (created_at e))).
Proof.
  intros Hd Hh Hf. unfold update_disease_tracking. rewrite Hd, Hh. cbv zeta.
  change (fun r0 => String.eqb (dt_location_hierarchy r0) (location_key e)
                    && String.eqb (disease_name r0) d)
    with (dis_row_is (location_key e) d).
  rewrite Hf, find_map_same, Hf; cbn [option_map].
  - apply find_some in Hf as [_ Hk]. unfold dis_row_is in Hk. cbv beta. rewrite Hk.
    reflexivity.
  - intros x. cbv beta.
    destruct (String.eqb (dt_location_hierarchy x) (location_key e)
              && String.eqb (disease_name x) d) eqn:Hx;
      unfold dis_row_is; cbn [dt_location_hierarchy disease_name]; rewrite ?Hx;
      reflexivity.
Qed.

Lemma update_disease_new e dt d :
  disease_detected e = Some d -> String.eqb d "Healthy" = false ->
  find (dis_row_is (location_key e) d) dt = None ->
  find (dis_row_is (location_key e) d) (update_disease_tracking e dt) =
  Some (mk_dis_row (location_key e) (province e) (district e) (sector e) d 1
          (sev_lit (confidence e)) (created_at e) (created_at e)).
Proof.
  intros Hd Hh Hf. unfold update_disease_tracking. rewrite Hd, Hh. cbv zeta.
  change (fun r0 => String.eqb (dt_location_hierarchy r0) (location_key e)
                    && String.eqb (disease_name r0) d)
    with (dis_row_is (location_key e) d).
  rewrite Hf, find_app_none by exact Hf. unfold dis_row_is. simpl.
  rewrite !String.eqb_refl. reflexivity.
Qed.

(** C4 (amended).  Scans of one location key and one disease label, applied
    to a [disease_tracking] table without a row for that pair, leave a row
    whose [occurrence_count] is the number of scans and whose
    [severity_average] is the online-mean recurrence over their (coalesced)
    confidence scores, each step evaluated in the column's type; in exact
    arithmetic that recurrence has the arithmetic mean of the scores as its
    value. *)
Theorem online_mean_severity es s k d :
  es <> [] -> String.eqb d "Healthy" = false ->
  Forall (fun e => location_key e = k /\ disease_detected e = Some d) es ->
  find (dis_row_is k d) (disease_tracking s) = None ->
  exists r, find (dis_row_is k d) (disease_tracking (apply_all es s)) = Some r /\
    occurrence_count r = Z.of_nat (length es) /\
    (sev_exact (severity_average r)
     == qsum (map confidence es) / inject_Z (Z.of_nat (length es)))%Q.
Proof.
  intros Hne Hh Hall Hnone. rewrite apply_all_disease.
  induction es as [|x es IH] using rev_ind; [contradiction|].
  apply Forall_app in Hall as [Hall Hx]. inversion Hx as [|? ? [Hkx Hdx] _]; subst k.
  rewrite fold_left_app. cbn [fold_left].
  destruct es as [|y es'] eqn:Hes.
  - simpl. exists (mk_dis_row (location_key x) (province x) (district x) (sector x) d 1
                     (sev_lit (confidence x)) (created_at x) (created_at x)).
    split; [apply update_disease_new; assumption|]. split; [reflexivity|].
    unfold sev_exact, qsum. simpl. field.
  - rewrite <- Hes in *.
    destruct IH as [r [Hr [Hocc Hsev]]]; [rewrite Hes; discriminate|exact Hall|].
    eexists. split; [apply update_disease_found; eassumption|].
    cbn [occurrence_count severity_average]. rewrite length_app, Nat2Z.inj_add.
    split; [rewrite Hocc; reflexivity|].
    change (sev_exact (sev_online (severity_average r) (occurrence_count r) (confidence x)))
      with ((sev_exact (severity_average r) * inject_Z (occurrence_count r) + confidence x)
            / inject_Z (occurrence_count r + 1))%Q.
    rewrite map_app. change (map confidence [x]) with [confidence x].
    rewrite qsum_snoc, Hocc, Hsev. change (Z.of_nat (length [x])) with 1.
    assert (Hn : (0 < Z.of_nat (length es))%Z) by (rewrite Hes; simpl; lia).
    rewrite inject_Z_plus.
    set (n := inject_Z (Z.of_nat (length es))).
    assert (Hk : ~ (n == 0)%Q) by (unfold n, Qeq; simpl; lia).
    assert (Hk1 : ~ (n + inject_Z 1 == 0)%Q) by (unfold n, Qeq; simpl; lia).
    field. split; assumption.
Qed.

(** The scenario of the claim: confidence scores 0.9, 0.7 and 0.8. *)
Lemma online_mean_severity_witness :
  let es := [mk_scan "s1" (Some "u1") (Some "Eastern Province") (Some "Nyagatare") None
               (Some "Early Blight") (Some (9 # 10)) 1;
             mk_scan "s2" (Some "u2") (Some "Eastern Province") (Some "Nyagatare") None
               (Some "Early Blight") (Some (7 # 10)) 2;
             mk_scan "s3" (Some "u3") (Some "Eastern Province") (Some "Nyagatare") None
               (Some "Early Blight") (Some (8 # 10)) 3] in
  exists r, find (dis_row_is "Eastern Province>Nyagatare" "Early Blight")
              (disease_tracking (apply_all es empty_store)) = Some r /\
    occurrence_count r = 3 /\
    (sev_exact (severity_average r) == ((9 # 10) + (7 # 10) + (8 # 10)) / 3)%Q.
Proof.
  intros es.
  destruct (online_mean_severity es empty_store "Eastern Province>Nyagatare"
              "Early Blight") as [r [H1 [H2 H3]]].
  - discriminate.
  - reflexivity.
  - repeat constructor.
  - reflexivity.
  - exists r. split; [exact H1|]. split; [exact H2|]. rewrite H3. reflexivity.
Defined.

Lemma pow_mod3 (k : Z) (a : nat) :
  k mod 3 = 1 \/ k mod 3 = 2 -> (k ^ Z.of_nat a) mod 3 = 1 \/ (k ^ Z.of_nat a) mod 3 = 2.
Proof.
  intros Hk. induction a as [|a IH]; [left; reflexivity|].
  rewrite Nat2Z.inj_succ, Z.pow_succ_r by lia. rewrite Z.mul_mod by lia.
  destruct Hk as [-> | ->]; destruct IH as [-> | ->]; cbv; auto.
Qed.

(** A finite binary-decimal fraction is never 1/3. *)
Lemma representable_not_third q : representable q -> ~ (q == 1 # 3)%Q.
Proof.
  intros [a [b [m H]]] Hq. rewrite Hq in H.
  set (P := 2 ^ Z.of_nat a * 5 ^ Z.of_nat b) in H.
  assert (HP : P mod 3 = 1 \/ P mod 3 = 2).
  { assert (H2 := pow_mod3 2 a (or_intror eq_refl)).
    assert (H5 := pow_mod3 5 b (or_intror eq_refl)).
    unfold P. rewrite Z.mul_mod by lia.
    destruct H2 as [-> | ->]; destruct H5 as [-> | ->]; cbv; auto. }
  unfold Qeq in H. cbn [Qnum Qden Qmult inject_Z] in H.
  assert (HP3 : P = m * 3) by lia.
  rewrite HP3, Z_mod_mult in HP. lia.
Qed.

(** C4 counterexample.  For confidence scores 1, 0 and 0 the mean is 1/3.
    The row's [severity_average] expression has that value in exact
    arithmetic, but the value the database stores is the last update's
    quotient as the column's type represents it: whatever the type
    (NUMERIC, REAL, DOUBLE PRECISION), a finite binary-decimal fraction,
    and 1/3 is none. *)
Lemma online_mean_not_stored :
  let es := [mk_scan "s1" (Some "u1") (Some "Eastern Province") (Some "Nyagatare") None
               (Some "Early Blight") (Some 1%Q) 1;
             mk_scan "s2" (Some "u2") (Some "Eastern Province") (Some "Nyagatare") None
               (Some "Early Blight") (Some 0%Q) 2;
             mk_scan "s3" (Some "u3") (Some "Eastern Province") (Some "Nyagatare") None
               (Some "Early Blight") (Some 0%Q) 3] in
  exists r, find (dis_row_is "Eastern Province>Nyagatare" "Early Blight")
              (disease_tracking (apply_all es empty_store)) = Some r /\
    occurrence_count r = 3 /\
    (qsum (map confidence es) / 3 == 1 # 3)%Q /\
    (sev_exact (severity_average r) == 1 # 3)%Q /\
    (forall ar, (forall a n c, representable (ar_online ar a n c)) ->
       ~ (sev_value ar (severity_average r) == 1 # 3)%Q).
Proof.
  cbv zeta. eexists. split; [reflexivity|].
  split; [reflexivity|]. split; [reflexivity|]. split; [reflexivity|].
  intros ar Har. cbn [severity_average sev_value]. apply representable_not_third, Har.
Qed.

(** C5.  Inserting a scan whose id is already in [scan_history] (the same
    scan a second time) leaves the database unchanged: the INSERT violates
    the PRIMARY KEY on [scan_history.id] and is rolled back, triggers
    included. *)
Theorem reapply_is_noop e s :
  In (scan_id e) (map scan_id (scan_history s)) ->
  insert_statement e s = None /\ state_after_insert e s = s.
Proof.
  intros Hin. unfold state_after_insert, insert_statement.
  assert (Hex : existsb (fun x => String.eqb (scan_id x) (scan_id e)) (scan_history s) = true).
  { apply in_map_iff in Hin as [x [Hx Hxl]]. apply existsb_exists.
    exists x. split; [exact Hxl|]. apply String.eqb_eq. exact Hx. }
  rewrite Hex. split; reflexivity.
Qed.

Lemma reapply_is_noop_witness :
  let e := mk_scan "s1" (Some "u1") (Some "Southern Province") (Some "Huye") None
             (Some "Leaf Rust") (Some (6 # 10)) 10 in
  let s := state_after_insert e empty_store in
  In (scan_id e) (map scan_id (scan_history s)) /\
  insert_statement e s = None /\ state_after_insert e s = s.
Proof.
  intros e s. assert (Hin : In (scan_id e) (map scan_id (scan_history s)))
    by (left; reflexivity).
  split; [exact Hin|]. apply reapply_is_noop. exact Hin.
Defined.

Lemma filter_diseased_nonnull E :
  filter is_diseased
    (filter (fun x => match disease_detected x with Some _ => true | None => false end) E)
  = filter is_diseased E.
Proof.
  induction E as [|x E IH]; [reflexivity|]. simpl.
  destruct (disease_detected x) eqn:Hd; simpl.
  - rewrite IH. reflexivity.
  - unfold is_diseased at 2. rewrite Hd. exact IH.
Qed.

(** C10.  A scan whose label is NULL counts as healthy: the triggers add one
    to [healthy_scans] of its [location_analytics] row (creating it with
    healthy_scans = 1, diseased_scans = 0 when absent) and leave
    [disease_tracking] untouched; the recomputation ignores NULL-labelled
    scans when it rebuilds [disease_tracking] and counts them in
    [healthy_scans] of the row of their tuple. *)
Theorem null_label_is_healthy e s E :
  disease_detected e = None ->
  disease_tracking (insert_scan e s) = disease_tracking s /\
  (forall r, find_location (location_key e) (location_analytics s) = Some r ->
     exists r', find_location (location_key e) (location_analytics (insert_scan e s))
                = Some r'
       /\ healthy_scans r' = healthy_scans r + 1 /\ diseased_scans r' = diseased_scans r) /\
  (find_location (location_key e) (location_analytics s) = None ->
     exists r', find_location (location_key e) (location_analytics (insert_scan e s))
                = Some r'
       /\ healthy_scans r' = 1 /\ diseased_scans r' = 0) /\
  recompute_disease E
  = recompute_disease
      (filter (fun x => match disease_detected x with Some _ => true | None => false end) E) /\
  In (group_row (E ++ [e]) (scan_tuple e)) (recompute_location (E ++ [e])) /\
  healthy_scans (group_row (E ++ [e]) (scan_tuple e))
  = healthy_scans (group_row E (scan_tuple e)) + 1 /\
  diseased_scans (group_row (E ++ [e]) (scan_tuple e))
  = diseased_scans (group_row E (scan_tuple e)).
Proof.
  intros Hnull.
  assert (Hh : is_healthy e = true) by (unfold is_healthy; rewrite Hnull; reflexivity).
  assert (Hd : is_diseased e = false) by (unfold is_diseased; rewrite Hnull; reflexivity).
  split; [unfold insert_scan, update_disease_tracking; rewrite Hnull; reflexivity|].
  split.
  { intros r Hf. eexists. split; [apply find_location_update; exact Hf|].
    cbn [healthy_scans diseased_scans]. rewrite Hh, Hd. unfold b2z. split; lia. }
  split.
  { intros Hf. eexists. split; [apply find_location_new; exact Hf|].
    cbn [healthy_scans diseased_scans]. rewrite Hh, Hd. split; reflexivity. }
  split.
  { unfold recompute_disease. rewrite filter_diseased_nonnull. reflexivity. }
  split.
  { unfold recompute_location. apply in_map. apply in_group_keys; [apply tuple_eqb_eq|].
    rewrite map_app. apply in_or_app. right. left. reflexivity. }
  assert (Hself : tuple_eqb (scan_tuple e) (scan_tuple e) = true)
    by (apply tuple_eqb_eq; reflexivity).
  unfold group_row. rewrite !filter_tuple_snoc, Hself.
  destruct (scan_tuple e) as [[p d] sc]. cbn [healthy_scans diseased_scans].
  rewrite !count_if_snoc, Hh, Hd. split; lia.
Qed.

Lemma null_label_is_healthy_witness :
  let e := mk_scan "s2" (Some "u2") (Some "Western Province") (Some "Rubavu") None
             None None 20 in
  let E := [mk_scan "s1" (Some "u1") (Some "Western Province") (Some "Rubavu") None
              (Some "Early Blight") (Some (7 # 10)) 10] in
  let s := apply_all E empty_store in
  disease_detected e = None /\
  disease_tracking (insert_scan e s) = disease_tracking s /\
  (forall r, find_location (location_key e) (location_analytics s) = Some r ->
     exists r', find_location (location_key e) (location_analytics (insert_scan e s))
                = Some r'
       /\ healthy_scans r' = healthy_scans r + 1 /\ diseased_scans r' = diseased_scans r) /\
  (find_location (location_key e) (location_analytics s) = None ->
     exists r', find_location (location_key e) (location_analytics (insert_scan e s))
                = Some r'
       /\ healthy_scans r' = 1 /\ diseased_scans r' = 0) /\
  recompute_disease E
  = recompute_disease
      (filter (fun x => match disease_detected x with Some _ => true | None => false end) E) /\
  In (group_row (E ++ [e]) (scan_tuple e)) (recompute_location (E ++ [e])) /\
  healthy_scans (group_row (E ++ [e]) (scan_tuple e))
  = healthy_scans (group_row E (scan_tuple e)) + 1 /\
  diseased_scans (group_row (E ++ [e]) (scan_tuple e))
  = diseased_scans (group_row E (scan_tuple e)).
Proof.
  intros e E s. split; [reflexivity|]. apply null_label_is_healthy. reflexivity.
Defined.

End Step3Facts.

Module SchemaFacts.
Import Schema.

(** ** ROUND(x, 2) *)

Lemma round2_bounds q : (0 <= q <= 100 -> 0 <= round2 q <= 100)%Q.
Proof.
  destruct q as [n d]. unfold round2; cbn [Qnum Qden]. intros [H0 H1].
  unfold Qle in H0, H1; cbn [Qnum Qden] in H0, H1.
  destruct (Z.leb_spec 0 (n * 100)); [|lia].
  unfold Qle; cbn [Qnum Qden]. split.
  - assert (0 <= (2 * (n * 100) + Z.pos d) / (2 * Z.pos d)) by (apply Z.div_pos; lia).
    lia.
  - assert ((2 * (n * 100) + Z.pos d) / (2 * Z.pos d) < 10001)
      by (apply Z.div_lt_upper_bound; lia).
    lia.
Qed.

Lemma round2_error q : (0 <= q -> Qabs (round2 q - q) <= 1 # 200)%Q.
Proof.
  destruct q as [n d]. unfold round2; cbn [Qnum Qden]. intros H0.
  unfold Qle in H0; cbn [Qnum Qden] in H0.
  destruct (Z.leb_spec 0 (n * 100)); [|lia].
  set (k := (2 * (n * 100) + Z.pos d) / (2 * Z.pos d)).
  assert (Hk := Z.div_mod (2 * (n * 100) + Z.pos d) (2 * Z.pos d) ltac:(lia)).
  assert (Hm := Z.mod_pos_bound (2 * (n * 100) + Z.pos d) (2 * Z.pos d) ltac:(lia)).
  fold k in Hk.
  apply Qabs_Qle_condition. unfold Qle, Qminus, Qplus, Qopp; cbn [Qnum Qden].
  rewrite !Pos2Z.inj_mul. split; nia.
Qed.

Lemma round2_cents k : round2 (k # 100) = k # 100.
Proof.
  unfold round2; cbn [Qnum Qden].
  destruct (Z.leb_spec 0 (k * 100)); f_equal.
  - symmetry. apply Z.div_unique with 100; lia.
  - rewrite <- (Z.opp_involutive k) at 2. f_equal.
    symmetry. apply Z.div_unique with 100; lia.
Qed.

Lemma round2_is_cents q : exists k, round2 q = k # 100.
Proof. unfold round2. destruct (Z.leb 0 (Qnum q * 100)); eexists; reflexivity. Qed.

Lemma round2_round2 q : round2 (round2 q) = round2 q.
Proof. destruct (round2_is_cents q) as [k ->]. apply round2_cents. Qed.

Lemma ratio_bounds a b :
  0 <= a -> 0 < b ->
  (0 <= inject_Z a / inject_Z b * 100)%Q /\
  (a <= b -> (inject_Z a / inject_Z b * 100 <= 100)%Q).
Proof.
  intros Ha Hb. destruct b as [|p|p]; try lia.
  unfold Qle, Qdiv, Qmult, Qinv, inject_Z; cbn [Qnum Qden].
  split; [|intros]; nia.
Qed.

Lemma ratio_bounds_100 a b :
  0 <= a <= b -> 0 < b -> (0 <= inject_Z a * 100 / inject_Z b <= 100)%Q.
Proof.
  intros Ha Hb. destruct b as [|p|p]; try lia.
  unfold Qle, Qdiv, Qmult, Qinv, inject_Z; cbn [Qnum Qden].
  split; nia.
Qed.

Lemma dec52_some q g : dec52 q = Some g -> g = round2 q.
Proof.
  unfold dec52. destruct (Qle_bool 1000 (Qabs (round2 q))); congruence.
Qed.

Lemma map_opt_in {A B} (f : A -> option B) l l' :
  map_opt f l = Some l' -> forall y, In y l' -> exists x, In x l /\ f x = Some y.
Proof.
  revert l'. induction l as [|a l IH]; simpl; intros l' H y Hy.
  - injection H as <-. destruct Hy.
  - destruct (f a) as [b|] eqn:Hf; [|discriminate].
    destruct (map_opt f l) as [bs|] eqn:Hl; [|discriminate].
    injection H as <-. destruct Hy as [<-|Hy].
    + exists a. auto.
    + destruct (IH bs eq_refl y Hy) as (x & Hx & Hfx). exists x. auto.
Qed.

Lemma insert_scan_inv e s :
  Forall row_inv (location_analytics s) ->
  Forall row_inv (location_analytics (insert_scan e s)).
Proof.
  intros Hs. unfold insert_scan, update_location_analytics.
  destruct (find _ (location_analytics s)) as [r0|] eqn:Hf.
  - destruct (map_opt _ (location_analytics s)) as [la|] eqn:Hm; [|exact Hs].
    cbn [location_analytics]. apply Forall_forall. intros y Hy.
    destruct (map_opt_in _ _ _ Hm y Hy) as (x & Hx & Hfx).
    rewrite Forall_forall in Hs. specialize (Hs x Hx).
    destruct (String.eqb (la_location_string x) (location_string e)).
    + destruct (dec52 _) as [hp|] eqn:Hd; [|discriminate].
      injection Hfx as <-. apply dec52_some in Hd. subst hp.
      destruct Hs as (H1 & H2 & H3 & H4 & H5).
      unfold row_inv; cbn [healthy_scans disease_scans total_scans healthy_percentage].
      destruct (ilike_healthy (predicted_disease e)); cbn [negb];
      (split; [lia|split; [lia|split; [lia|split; [lia|]]]]);
      apply round2_bounds, round2_bounds, ratio_bounds_100; lia.
    + injection Hfx as <-. exact Hs.
  - cbn [location_analytics]. apply Forall_app. split; [exact Hs|].
    constructor; [|constructor].
    unfold row_inv; cbn [healthy_scans disease_scans total_scans healthy_percentage].
    destruct (ilike_healthy (predicted_disease e)); cbn [negb];
    (split; [lia|split; [lia|split; [lia|split; [lia|]]]]);
    unfold Qle; cbn; lia.
Qed.

Lemma refresh_rows now s s' :
  refresh_location_analytics now s = Some s' ->
  scan_history s' = scan_history s /\
  forall y, In y (location_analytics s') ->
  exists r, In r (location_analytics s) /\
    refresh_growth (refresh_counts now (scan_history s) r) = Some y.
Proof.
  unfold refresh_location_analytics.
  destruct (map_opt _ _) as [la|] eqn:Hm; [|discriminate].
  intros H. injection H as <-. split; [reflexivity|].
  intros y Hy. destruct (map_opt_in _ _ _ Hm y Hy) as (x & Hx & Hfx).
  apply in_map_iff in Hx. destruct Hx as (r & <- & Hr). eauto.
Qed.

(** The projections of a refreshed row. *)
Lemma refresh_growth_fields now log r y :
  refresh_growth (refresh_counts now log r) = Some y ->
  let here := filter (at_location r) log in
  let w7 := filter (in_window now 7) here in
  let w30 := filter (in_window now 30) here in
  la_location_string y = la_location_string r /\
  total_scans y = total_scans r /\ healthy_scans y = healthy_scans r /\
  disease_scans y = disease_scans r /\
  healthy_percentage y = healthy_percentage r /\
  total_users y = count_distinct (map user_id here) /\
  scans_last_7_days y = Z.of_nat (length w7) /\
  scans_last_30_days y = Z.of_nat (length w30) /\
  active_users_last_7_days y = count_distinct (map user_id w7) /\
  active_users_last_30_days y = count_distinct (map user_id w30) /\
  growth_rate_7_days y = round2 (growth (total_scans y) (scans_last_7_days y)) /\
  growth_rate_30_days y = round2 (growth (total_scans y) (scans_last_30_days y)).
Proof.
  unfold refresh_growth.
  destruct (dec52 (growth _ (scans_last_7_days _))) as [g7|] eqn:H7; [|discriminate].
  destruct (dec52 (growth _ (scans_last_30_days _))) as [g30|] eqn:H30; [|discriminate].
  intros H. injection H as <-. apply dec52_some in H7, H30.
  cbn. subst. repeat split.
Qed.

Lemma refresh_inv now s s' :
  Forall row_inv (location_analytics s) ->
  refresh_location_analytics now s = Some s' ->
  Forall row_inv (location_analytics s').
Proof.
  intros Hs Hr. destruct (refresh_rows _ _ _ Hr) as [_ Hy].
  apply Forall_forall. intros y Hin.
  destruct (Hy y Hin) as (r & Hr' & Hg).
  destruct (refresh_growth_fields _ _ _ _ Hg) as (_ & Ht & Hh & Hd & Hp & _).
  rewrite Forall_forall in Hs. specialize (Hs r Hr').
  unfold row_inv in *. rewrite Ht, Hh, Hd, Hp. exact Hs.
Qed.

Lemma reachable_inv s : reachable s -> Forall row_inv (location_analytics s).
Proof.
  induction 1.
  - constructor.
  - apply insert_scan_inv. assumption.
  - eapply refresh_inv; eassumption.
Qed.

Lemma disease_rate_bounds r :
  0 <= disease_scans r <= total_scans r -> (0 <= disease_rate_of r <= 100)%Q.
Proof.
  intros H. unfold disease_rate_of.
  destruct (Z.ltb_spec 0 (total_scans r)).
  - apply round2_bounds.
    destruct (ratio_bounds (disease_scans r) (total_scans r)) as [H1 H2]; try lia.
    split; [exact H1|apply H2; lia].
  - unfold Qle; cbn; lia.
Qed.

Lemma growth_round t k : (round2 (growth t k) == growth t k)%Q.
Proof.
  unfold growth. destruct (Z.ltb 0 (t - k)).
  - rewrite round2_round2. reflexivity.
  - reflexivity.
Qed.

(** ** Leaderboard ordering *)

Lemma HdRel_insert_desc y r t :
  HdRel desc_total y t -> desc_total y r -> HdRel desc_total y (insert_desc r t).
Proof.
  intros H Hr. destruct t as [|z t]; simpl.
  - constructor. exact Hr.
  - inversion H; subst.
    destruct (Z.ltb (total_scans r) (total_scans z)); constructor; assumption.
Qed.

Lemma insert_desc_sorted r l :
  Sorted desc_total l -> Sorted desc_total (insert_desc r l).
Proof.
  induction l as [|y t IH]; simpl; intros H.
  - repeat constructor.
  - inversion H; subst.
    destruct (Z.ltb_spec (total_scans r) (total_scans y)).
    + constructor; [apply IH; assumption|].
      apply HdRel_insert_desc; [assumption|]. unfold desc_total; lia.
    + constructor; [assumption|]. constructor. unfold desc_total; lia.
Qed.

Lemma insert_desc_perm r l : Permutation (r :: l) (insert_desc r l).
Proof.
  induction l as [|y t IH]; simpl; [reflexivity|].
  destruct (Z.ltb (total_scans r) (total_scans y)); [|reflexivity].
  eapply perm_trans; [apply perm_swap|]. apply perm_skip. exact IH.
Qed.

Lemma sort_desc_order l : order_by_total_desc l (sort_desc l).
Proof.
  unfold order_by_total_desc. induction l as [|r t [IHp IHs]]; simpl.
  - split; constructor.
  - split.
    + eapply perm_trans; [apply perm_skip, IHp|]. apply insert_desc_perm.
    + apply insert_desc_sorted. exact IHs.
Qed.

Lemma number_rows_totals n l :
  map lb_total_scans (number_rows n l) = map total_scans l.
Proof.
  revert n. induction l as [|r t IH]; intros n; simpl; [reflexivity|].
  f_equal. apply IH.
Qed.

Lemma sorted_map_totals l :
  Sorted desc_total l -> Sorted Z.ge (map total_scans l).
Proof.
  induction 1 as [|a l Hl IH Hh]; simpl; constructor; [exact IH|].
  destruct Hh; simpl; constructor. unfold desc_total in *. lia.
Qed.

Lemma sorted_firstn {A} (R : A -> A -> Prop) n l :
  Sorted R l -> Sorted R (firstn n l).
Proof.
  revert l. induction n as [|n IH]; intros l H; [constructor|].
  destruct l as [|a l]; [constructor|]. simpl.
  inversion H; subst. constructor; [apply IH; assumption|].
  destruct n; [constructor|]. destruct l as [|b l]; [constructor|].
  simpl. inversion H3; subst. constructor. assumption.
Qed.

Lemma forall_firstn {A} (P : A -> Prop) n l : Forall P l -> Forall P (firstn n l).
Proof.
  revert l. induction n as [|n IH]; intros l H; [constructor|].
  destruct l as [|a l]; [constructor|]. inversion H; subst. simpl.
  constructor; [assumption|]. apply IH. assumption.
Qed.

Lemma number_rows_positive n l :
  Forall (fun r => 0 < total_scans r) l ->
  Forall (fun r => 0 < lb_total_scans r) (number_rows n l).
Proof.
  revert n. induction l as [|r t IH]; intros n H; simpl; [constructor|].
  inversion H; subst. constructor; [assumption|]. apply IH. assumption.
Qed.

(** C7: in every state reachable by inserting scans (with the trigger) and
    running [refresh_location_analytics], every [location_analytics] row
    has [healthy_percentage] and the leaderboard's [disease_rate] between 0
    and 100, and [total_scans] at least 1, so the stored percentage divides
    by [total_scans + 1 >= 2]; [disease_rate] of a row with
    [total_scans = 0] is 0 by the CASE guard. *)
Theorem percentages_in_range s :
  reachable s ->
  (forall r, total_scans r = 0 -> disease_rate_of r = 0%Q) /\
  Forall (fun r => (0 <= healthy_percentage r <= 100)%Q /\
                   (0 <= disease_rate_of r <= 100)%Q /\
                   0 < total_scans r)
    (location_analytics s).
Proof.
  intros Hs. split.
  - intros r H. unfold disease_rate_of. rewrite H. reflexivity.
  - apply reachable_inv in Hs. eapply Forall_impl; [|exact Hs].
    intros r (H1 & H2 & H3 & H4 & H5). split; [exact H5|]. split; [|lia].
    apply disease_rate_bounds. lia.
Qed.

Lemma percentages_in_range_witness :
  let sc := fun (id d : string) (t : Z) =>
    mk_scan id (Some id) "maize" d 1 "Rwanda" (Some "Northern Province")
      (Some "Musanze") None "Musanze, Northern Province, Rwanda" t in
  let s := insert_scan (sc "b" "Maize___Blight" 20)
             (insert_scan (sc "a" "Maize___healthy" 10) empty_db) in
  reachable s /\
  (forall r, total_scans r = 0 -> disease_rate_of r = 0%Q) /\
  Forall (fun r => (0 <= healthy_percentage r <= 100)%Q /\
                   (0 <= disease_rate_of r <= 100)%Q /\
                   0 < total_scans r)
    (location_analytics s).
Proof.
  intros sc s.
  assert (Hs : reachable s) by (apply reach_insert, reach_insert, reach_empty).
  split; [exact Hs|]. apply (percentages_in_range s Hs).
Defined.

(** C8 (amended): after a successful [refresh_location_analytics], every
    row's [growth_rate_7_days] is [scans_last_7_days / (total_scans -
    scans_last_7_days) * 100] ROUNDED TO TWO DECIMALS when the denominator
    is positive (so within 1/200 of the exact quotient), and 0 otherwise;
    [growth_rate_30_days] follows the same CASE.  The refresh itself fails
    (numeric overflow of DECIMAL(5,2)) when a rounded rate reaches 1000. *)
Theorem growth_rate_after_refresh now s s' :
  refresh_location_analytics now s = Some s' ->
  Forall (fun r =>
    (growth_rate_7_days r == growth (total_scans r) (scans_last_7_days r))%Q /\
    (growth_rate_30_days r == growth (total_scans r) (scans_last_30_days r))%Q /\
    (total_scans r - scans_last_7_days r <= 0 -> (growth_rate_7_days r == 0)%Q) /\
    (0 < total_scans r - scans_last_7_days r ->
       (Qabs (growth_rate_7_days r
              - inject_Z (scans_last_7_days r)
                / inject_Z (total_scans r - scans_last_7_days r) * 100)
        <= 1 # 200)%Q))
    (location_analytics s').
Proof.
  intros Hr. destruct (refresh_rows _ _ _ Hr) as [_ Hy].
  apply Forall_forall. intros y Hin.
  destruct (Hy y Hin) as (r & _ & Hg).
  destruct (refresh_growth_fields _ _ _ _ Hg)
    as (_ & _ & _ & _ & _ & _ & H7 & _ & _ & _ & G7 & G30).
  rewrite G7, G30. split; [apply growth_round|]. split; [apply growth_round|].
  assert (Hpos : 0 <= scans_last_7_days y) by (rewrite H7; lia).
  unfold growth. split.
  - intros Hle. destruct (Z.ltb_spec 0 (total_scans y - scans_last_7_days y)); [lia|].
    unfold Qeq. reflexivity.
  - intros Hlt. destruct (Z.ltb_spec 0 (total_scans y - scans_last_7_days y)); [|lia].
    rewrite round2_round2. apply round2_error.
    apply ratio_bounds; lia.
Qed.

Lemma growth_rate_after_refresh_witness :
  let sc := fun (id : string) (t : Z) =>
    mk_scan id (Some id) "maize" "Maize___healthy" 1 "Rwanda"
      (Some "Northern Province") (Some "Musanze") None
      "Musanze, Northern Province, Rwanda" t in
  let s := insert_scan (sc "b" 1000000) (insert_scan (sc "a" 0) empty_db) in
  let s' := match refresh_location_analytics 1000000 s with
            | Some s' => s' | None => s end in
  refresh_location_analytics 1000000 s = Some s' /\
  Forall (fun r =>
    (growth_rate_7_days r == growth (total_scans r) (scans_last_7_days r))%Q /\
    (growth_rate_30_days r == growth (total_scans r) (scans_last_30_days r))%Q /\
    (total_scans r - scans_last_7_days r <= 0 -> (growth_rate_7_days r == 0)%Q) /\
    (0 < total_scans r - scans_last_7_days r ->
       (Qabs (growth_rate_7_days r
              - inject_Z (scans_last_7_days r)
                / inject_Z (total_scans r - scans_last_7_days r) * 100)
        <= 1 # 200)%Q))
    (location_analytics s').
Proof.
  intros sc s s'.
  assert (H : refresh_location_analytics 1000000 s = Some s') by (vm_compute; reflexivity).
  split; [exact H|]. apply (growth_rate_after_refresh 1000000 s s' H).
Defined.

(** C8 (counterexample): a location with 4 scans, one of them in the last 7
    days, gets [growth_rate_7_days = 33.33], not 1 / 3 * 100; and with 11
    recent scans out of 12 the refresh fails altogether, since 1100.00 does
    not fit DECIMAL(5,2). *)
Lemma growth_rate_is_rounded :
  let sc := fun (id d : string) (t : Z) =>
    mk_scan id (Some id) "maize" d 1 "Rwanda" (Some "Northern Province")
      (Some "Musanze") None "Musanze, Northern Province, Rwanda" t in
  let s := fold_left (fun s e => insert_scan e s)
             [sc "a" "Maize___healthy" 0; sc "b" "Maize___Blight" 0;
              sc "c" "Maize___Rust" 0; sc "d" "Maize___healthy" 1000000]
             empty_db in
  let s12 := fold_left (fun s e => insert_scan e s)
               (sc "old" "Maize___healthy" 0 ::
                map (fun i => sc "new" "Maize___healthy" (1000000 - Z.of_nat i))
                    (seq 0 11))
               empty_db in
  option_map (fun s' => map (fun r => (total_scans r, scans_last_7_days r,
                                       growth_rate_7_days r))
                          (location_analytics s'))
    (refresh_location_analytics 1000000 s) = Some [(4, 1, 3333 # 100)] /\
  ~ (3333 # 100 == inject_Z 1 / inject_Z (4 - 1) * 100)%Q /\
  refresh_location_analytics 1000000 s12 = None.
Proof.
  intros sc s s12. split; [vm_compute; reflexivity|]. split.
  - intros H. vm_compute in H. discriminate.
  - vm_compute. reflexivity.
Qed.

(** C9 (amended): [get_location_leaderboard(n)] returns the first [n] rows,
    numbered from 1, of SOME ordering of the rows with [total_scans > 0] by
    [total_scans] DESC: its totals are non-increasing, all positive, and at
    most [n] rows come back.  Nothing orders rows with equal totals. *)
Theorem leaderboard_order limit_count la out :
  get_location_leaderboard limit_count la = Some out ->
  (exists sorted, order_by_total_desc (positive_rows la) sorted /\
                  out = leaderboard_of limit_count sorted) /\
  Sorted Z.ge (map lb_total_scans out) /\
  Forall (fun r => 0 < lb_total_scans r) out /\
  (length out <= Z.to_nat limit_count)%nat.
Proof.
  unfold get_location_leaderboard.
  destruct (Z.ltb limit_count 0); [discriminate|].
  intros H. injection H as <-.
  destruct (sort_desc_order (positive_rows la)) as [Hp Hs].
  split; [eexists; split; [split; eassumption|reflexivity]|].
  unfold leaderboard_of. split; [|split].
  - rewrite <- firstn_map, number_rows_totals.
    apply sorted_firstn, sorted_map_totals, Hs.
  - apply forall_firstn, number_rows_positive.
    apply Forall_forall. intros r Hr.
    apply (Permutation_in _ (Permutation_sym Hp)) in Hr.
    unfold positive_rows in Hr. apply filter_In in Hr. lia.
  - apply firstn_le_length.
Qed.

Lemma leaderboard_order_witness :
  let row := fun (p : string) (n : Z) =>
    mk_la_row p "Rwanda" (Some p) None None n 1 0 n 0 0 0 0 0 None None 0 0 None in
  let la := [row "Kigali City" 3; row "Eastern Province" 0;
             row "Northern Province" 7] in
  let out := match get_location_leaderboard 10 la with
             | Some out => out | None => [] end in
  get_location_leaderboard 10 la = Some out /\
  (exists sorted, order_by_total_desc (positive_rows la) sorted /\
                  out = leaderboard_of 10 sorted) /\
  Sorted Z.ge (map lb_total_scans out) /\
  Forall (fun r => 0 < lb_total_scans r) out /\
  (length out <= Z.to_nat 10)%nat.
Proof.
  intros row la out.
  assert (H : get_location_leaderboard 10 la = Some out) by (vm_compute; reflexivity).
  split; [exact H|]. apply (leaderboard_order 10 la out H).
Defined.

(** C9 (counterexample): two locations with the same [total_scans] come out
    in input order, "Bravo" before "Alpha", not by ascending key; and ORDER BY
    total_scans DESC admits both orders, which give different results. *)
Lemma leaderboard_ties_unordered :
  let row := fun (p : string) =>
    mk_la_row p "Rwanda" (Some p) None None 5 1 2 3 0 0 0 0 (40 # 1)
      None None 0 0 None in
  let la := [row "Bravo"; row "Alpha"] in
  option_map (map location_hierarchy) (get_location_leaderboard 10 la)
    = Some ["Bravo"; "Alpha"] /\
  String.ltb "Alpha" "Bravo" = true /\
  order_by_total_desc (positive_rows la) [row "Alpha"; row "Bravo"] /\
  order_by_total_desc (positive_rows la) [row "Bravo"; row "Alpha"] /\
  leaderboard_of 10 [row "Alpha"; row "Bravo"]
    <> leaderboard_of 10 [row "Bravo"; row "Alpha"].
Proof.
  intros row la. split; [vm_compute; reflexivity|].
  split; [reflexivity|].
  split; [|split].
  - split.
    + apply perm_swap.
    + repeat (constructor || (unfold desc_total; cbn; lia)).
  - split.
    + reflexivity.
    + repeat (constructor || (unfold desc_total; cbn; lia)).
  - intros H. apply (f_equal (map location_hierarchy)) in H.
    vm_compute in H. discriminate.
Qed.

End SchemaFacts.

(** ** Distinct and windowed counts (C6) *)

Module RecountFacts.

Lemma step3_unique_users_by_new_tuple e s :
  Forall (fun r => Step3.location_hierarchy r = Step3.location_key e ->
                   Step3.unique_users r =
                   Step3.count_users (Step3.scan_history s ++ [e]) (Step3.scan_tuple e))
    (Step3.location_analytics (Step3.insert_scan e s)).
Proof.
  unfold Step3.insert_scan, Step3.update_location_analytics. cbn [Step3.location_analytics].
  apply Forall_forall. intros y Hy Hk.
  destruct (find _ _) as [r0|].
  - apply in_map_iff in Hy. destruct Hy as (r & <- & _).
    destruct (String.eqb (Step3.location_hierarchy r) (Step3.location_key e)) eqn:He.
    + reflexivity.
    + rewrite Hk in He. rewrite String.eqb_refl in He. discriminate.
  - apply in_map_iff in Hy. destruct Hy as (r & <- & _).
    destruct (String.eqb (Step3.location_hierarchy r) (Step3.location_key e)) eqn:He.
    + reflexivity.
    + rewrite Hk in He. rewrite String.eqb_refl in He. discriminate.
Qed.

(** C6 (amended): the STEP_3 trigger sets [unique_users] of the row with
    NEW's key to a COUNT(DISTINCT user_id) over the whole log restricted to
    NEW's (province, district, sector), recounted on every insert; and after
    [refresh_location_analytics] each row's [total_users],
    [active_users_last_7_days / 30_days] and [scans_last_7_days / 30_days]
    are the distinct counts and counts of the log at that row's
    [location_string], in the window [created_at >= now - n days]. *)
Theorem distinct_counts_recomputed e s now s2 s2' :
  Schema.refresh_location_analytics now s2 = Some s2' ->
  Forall (fun r => Step3.location_hierarchy r = Step3.location_key e ->
                   Step3.unique_users r =
                   Step3.count_users (Step3.scan_history s ++ [e]) (Step3.scan_tuple e))
    (Step3.location_analytics (Step3.insert_scan e s)) /\
  Forall (fun r =>
    let here := filter (Schema.at_location r) (Schema.scan_history s2) in
    let w7 := filter (Schema.in_window now 7) here in
    let w30 := filter (Schema.in_window now 30) here in
    Schema.total_users r = count_distinct (map Schema.user_id here) /\
    Schema.active_users_last_7_days r = count_distinct (map Schema.user_id w7) /\
    Schema.active_users_last_30_days r = count_distinct (map Schema.user_id w30) /\
    Schema.scans_last_7_days r = Z.of_nat (length w7) /\
    Schema.scans_last_30_days r = Z.of_nat (length w30))
    (Schema.location_analytics s2').
Proof.
  intros Hr. split; [apply step3_unique_users_by_new_tuple|].
  destruct (SchemaFacts.refresh_rows _ _ _ Hr) as [_ Hy].
  apply Forall_forall. intros y Hin.
  destruct (Hy y Hin) as (r & _ & Hg).
  destruct (SchemaFacts.refresh_growth_fields _ _ _ _ Hg)
    as (Hl & _ & _ & _ & _ & Hu & H7 & H30 & A7 & A30 & _).
  unfold Schema.at_location. rewrite Hl. cbv zeta.
  split; [exact Hu|]. split; [exact A7|]. split; [exact A30|].
  split; [exact H7|exact H30].
Qed.

Lemma distinct_counts_recomputed_witness :
  let e := Step3.mk_scan "s1" (Some "u1") (Some "Northern Province")
             (Some "Musanze") None (Some "Blight") (Some (9 # 10)) 5 in
  let sc := fun (id : string) (t : Z) =>
    Schema.mk_scan id (Some id) "maize" "Maize___healthy" 1 "Rwanda"
      (Some "Northern Province") (Some "Musanze") None
      "Musanze, Northern Province, Rwanda" t in
  let s2 := Schema.insert_scan (sc "b" 1000000)
              (Schema.insert_scan (sc "a" 0) Schema.empty_db) in
  let s2' := match Schema.refresh_location_analytics 1000000 s2 with
             | Some s => s | None => s2 end in
  Schema.refresh_location_analytics 1000000 s2 = Some s2' /\
  Forall (fun r => Step3.location_hierarchy r = Step3.location_key e ->
                   Step3.unique_users r =
                   Step3.count_users (Step3.scan_history Step3.empty_store ++ [e])
                     (Step3.scan_tuple e))
    (Step3.location_analytics (Step3.insert_scan e Step3.empty_store)) /\
  Forall (fun r =>
    let here := filter (Schema.at_location r) (Schema.scan_history s2) in
    let w7 := filter (Schema.in_window 1000000 7) here in
    let w30 := filter (Schema.in_window 1000000 30) here in
    Schema.total_users r = count_distinct (map Schema.user_id here) /\
    Schema.active_users_last_7_days r = count_distinct (map Schema.user_id w7) /\
    Schema.active_users_last_30_days r = count_distinct (map Schema.user_id w30) /\
    Schema.scans_last_7_days r = Z.of_nat (length w7) /\
    Schema.scans_last_30_days r = Z.of_nat (length w30))
    (Schema.location_analytics s2').
Proof.
  intros e sc s2 s2'.
  assert (H : Schema.refresh_location_analytics 1000000 s2 = Some s2')
    by (vm_compute; reflexivity).
  split; [exact H|].
  apply (distinct_counts_recomputed e Step3.empty_store 1000000 s2 s2' H).
Defined.

(** C6 (counterexample): scans at province "A>B" by users u1 and u3, then a
    scan at province "A", district "B" by u2, all go to the row keyed
    "A>B" whose stored tuple is ("A>B", NULL, NULL); its [unique_users] is 1
    (the distinct users of the last scan's tuple), while the log has 2
    distinct users at the row's own tuple. *)
Lemma unique_users_not_by_row_tuple :
  let E := [Step3.mk_scan "s1" (Some "u1") (Some "A>B") None None
              (Some "Blight") (Some (9 # 10)) 5;
            Step3.mk_scan "s2" (Some "u3") (Some "A>B") None None
              None None 6;
            Step3.mk_scan "s3" (Some "u2") (Some "A") (Some "B") None
              (Some "Blight") (Some (7 # 10)) 7] in
  let s := Step3.apply_all E Step3.empty_store in
  map Step3.unique_users (Step3.location_analytics s) = [1] /\
  map (fun r => Step3.count_users (Step3.scan_history s)
                  (Step3.la_province r, Step3.la_district r, Step3.la_sector r))
      (Step3.location_analytics s) = [2].
Proof. vm_compute. split; reflexivity. Qed.

End RecountFacts.

(** ** Further facts *)

Lemma zsum_app l1 l2 : zsum (l1 ++ l2) = zsum l1 + zsum l2.
Proof. induction l1 as [|x l IH]; simpl; lia. Qed.

Lemma zsum_map_add {A} (f g : A -> Z) l :
  zsum (map (fun x => f x + g x) l) = zsum (map f l) + zsum (map g l).
Proof. induction l as [|x l IH]; simpl; lia. Qed.

Lemma group_keys_nodup {A} (eqb : A -> A -> bool)
    (Heq : forall a b, eqb a b = true <-> a = b) l :
  NoDup (group_keys eqb l).
Proof.
  induction l as [|x l IH] using rev_ind; [constructor|].
  rewrite group_keys_snoc. unfold add_group.
  destruct (existsb (eqb x) (group_keys eqb l)) eqn:Hex; [exact IH|].
  apply (Permutation_NoDup (Permutation_cons_append _ x)).
  constructor; [|exact IH]. intros Hin.
  assert (H : existsb (eqb x) (group_keys eqb l) = true).
  { apply existsb_exists. exists x. split; [exact Hin|]. apply Heq. reflexivity. }
  congruence.
Qed.

Lemma indicator_sum {B} (eqb : B -> B -> bool)
    (Heq : forall a b, eqb a b = true <-> a = b) (a : B) G :
  NoDup G -> In a G -> zsum (map (fun g => if eqb a g then 1 else 0) G) = 1.
Proof.
  induction G as [|g G IH]; intros Hnd Hin; [destruct Hin|].
  inversion Hnd as [|? ? Hg HG]; subst. simpl.
  destruct (eqb a g) eqn:Hag.
  - apply Heq in Hag. subst g.
    assert (Z0 : zsum (map (fun g => if eqb a g then 1 else 0) G) = 0).
    { clear IH Hin HG Hnd. induction G as [|h G IHG]; [reflexivity|]. simpl.
      destruct (eqb a h) eqn:Hah.
      - apply Heq in Hah. subst. exfalso. apply Hg. left. reflexivity.
      - rewrite IHG; [reflexivity|]. intros H. apply Hg. right. exact H. }
    lia.
  - destruct Hin as [->|Hin].
    + assert (eqb a a = true) by (apply Heq; reflexivity). congruence.
    + rewrite IH; [reflexivity|exact HG|exact Hin].
Qed.

(** Counting the elements of [E] group by group, over a duplicate-free list
    of groups covering [E], counts each element once. *)
Lemma count_keys_sum {A B} (eqb : B -> B -> bool)
    (Heq : forall a b, eqb a b = true <-> a = b) (f : A -> B) E G :
  NoDup G -> (forall x, In x E -> In (f x) G) ->
  zsum (map (fun g => Z.of_nat (length (filter (fun x => eqb (f x) g) E))) G)
  = Z.of_nat (length E).
Proof.
  intros Hnd. induction E as [|x E IH]; intros Hcov.
  - simpl. induction G as [|g G IHG]; [reflexivity|]. simpl.
    inversion Hnd; subst. rewrite IHG; [reflexivity|assumption|intros ? []].
  - transitivity (zsum (map (fun g => (if eqb (f x) g then 1 else 0)
                     + Z.of_nat (length (filter (fun x => eqb (f x) g) E))) G)).
    + f_equal. apply map_ext. intros g. simpl.
      destruct (eqb (f x) g); simpl length; lia.
    + rewrite zsum_map_add, IH, indicator_sum; try assumption.
      * simpl length. lia.
      * apply Hcov. left. reflexivity.
      * intros y Hy. apply Hcov. right. exact Hy.
Qed.

Lemma filter_comm {A} (p q : A -> bool) l :
  filter p (filter q l) = filter q (filter p l).
Proof.
  induction l as [|x l IH]; simpl; [reflexivity|].
  destruct (q x) eqn:Hq, (p x) eqn:Hp; simpl; rewrite ?Hq, ?Hp, IH; reflexivity.
Qed.

Module Step3Extra.
Import Step3 Step3Keys.

Lemma key_label_eqb_eq a b : key_label_eqb a b = true <-> a = b.
Proof.
  destruct a as [a1 a2], b as [b1 b2]. unfold key_label_eqb. simpl.
  rewrite andb_true_iff, !String.eqb_eq. split; [intros [-> ->]; reflexivity|].
  intros H. injection H as -> ->. auto.
Qed.

Lemma scan_history_apply_all E : scan_history (apply_all E empty_store) = E.
Proof.
  induction E as [|e E IH] using rev_ind; [reflexivity|].
  rewrite Step3Facts.apply_all_snoc. unfold insert_scan. cbn [scan_history]. rewrite IH. reflexivity.
Qed.

Lemma filter_key_snoc E e h :
  filter (fun x => String.eqb (location_key x) h) (E ++ [e])
  = filter (fun x => String.eqb (location_key x) h) E
    ++ (if String.eqb (location_key e) h then [e] else []).
Proof. rewrite filter_app. simpl. destruct (String.eqb (location_key e) h); reflexivity. Qed.

Lemma la_step E la e :
  map location_hierarchy la = group_keys String.eqb (map location_key E) ->
  Forall (loc_row_ok E) la ->
  map location_hierarchy (update_location_analytics (E ++ [e]) e la)
    = group_keys String.eqb (map location_key (E ++ [e])) /\
  Forall (loc_row_ok (E ++ [e])) (update_location_analytics (E ++ [e]) e la).
Proof.
  intros Hk Hok. rewrite map_app. cbn [map]. rewrite group_keys_snoc. unfold add_group.
  rewrite Forall_forall in Hok.
  unfold update_location_analytics.
  set (k := location_key e).
  set (keys := group_keys String.eqb (map location_key E)) in *.
  destruct (existsb (String.eqb k) keys) eqn:Hex.
  - assert (Hin : In k (map location_hierarchy la)).
    { rewrite Hk. apply existsb_exists in Hex as [y [Hy Hky]].
      apply String.eqb_eq in Hky. subst y. exact Hy. }
    destruct (find (fun r => String.eqb (location_hierarchy r) k) la) eqn:Hf.
    2:{ exfalso. apply in_map_iff in Hin as [r [Hr Hrl]].
        assert (Hc := find_none _ _ Hf r Hrl). cbv beta in Hc.
        rewrite Hr, String.eqb_refl in Hc. discriminate. }
    split.
    + rewrite map_map, <- Hk. apply map_ext. intros r.
      destruct (String.eqb (location_hierarchy r) k); reflexivity.
    + apply Forall_forall. intros y Hy. apply in_map_iff in Hy as [r [<- Hr]].
      specialize (Hok r Hr). unfold loc_row_ok in *.
      destruct (String.eqb (location_hierarchy r) k) eqn:Hrk.
      * cbn [location_hierarchy total_scans healthy_scans diseased_scans last_scan_date].
        rewrite filter_key_snoc. fold k. rewrite String.eqb_sym, Hrk.
        destruct Hok as (Hne & H1 & H2 & H3 & H4).
        split; [destruct (filter _ E); discriminate|].
        rewrite length_app, !count_if_snoc, max_of_snoc by exact Hne.
        unfold b2z. simpl length. rewrite H1, H2, H3, H4. repeat split; lia.
      * rewrite filter_key_snoc. fold k. rewrite String.eqb_sym, Hrk, app_nil_r.
        exact Hok.
  - assert (Hnin : ~ In k (map location_hierarchy la)).
    { rewrite Hk. intros Hin.
      assert (existsb (String.eqb k) keys = true).
      { apply existsb_exists. exists k. split; [exact Hin|apply String.eqb_refl]. }
      congruence. }
    assert (Hf : find (fun r => String.eqb (location_hierarchy r) k) la = None).
    { destruct (find _ la) as [r|] eqn:Hf; [|reflexivity].
      apply find_some in Hf as [Hr Hrk]. apply String.eqb_eq in Hrk.
      exfalso. apply Hnin. rewrite <- Hrk. apply in_map. exact Hr. }
    rewrite Hf.
    assert (HE : filter (fun x => String.eqb (location_key x) k) E = []).
    { apply filter_all_false. intros x Hx.
      destruct (String.eqb (location_key x) k) eqn:Hxk; [|reflexivity].
      apply String.eqb_eq in Hxk. exfalso. apply Hnin. rewrite Hk.
      unfold keys. apply (in_group_keys _ String.eqb_eq).
      rewrite <- Hxk. apply in_map. exact Hx. }
    split.
    + rewrite map_map, map_app, <- Hk. simpl. f_equal.
      * apply map_ext. intros r.
        destruct (String.eqb (location_hierarchy r) k); reflexivity.
      * rewrite String.eqb_refl. reflexivity.
    + apply Forall_map, Forall_app. split.
      * apply Forall_forall. intros r Hr.
        assert (Hrk : String.eqb (location_hierarchy r) k = false).
        { apply String.eqb_neq. intros Heq. apply Hnin. rewrite <- Heq.
          apply in_map. exact Hr. }
        rewrite Hrk. specialize (Hok r Hr). unfold loc_row_ok in *.
        rewrite filter_key_snoc. fold k. rewrite String.eqb_sym, Hrk, app_nil_r.
        exact Hok.
      * constructor; [|constructor]. rewrite String.eqb_refl.
        unfold loc_row_ok, set_unique_users.
        cbn [location_hierarchy total_scans healthy_scans diseased_scans last_scan_date].
        rewrite filter_key_snoc. fold k. rewrite HE, String.eqb_refl. simpl app.
        split; [discriminate|].
        unfold count_if, b2z. simpl.
        destruct (is_healthy e), (is_diseased e); repeat split.
Qed.

(** Extra: after the triggers have processed any event log [E] from empty
    tables, [location_analytics] holds one row per location key of [E], in
    order of first appearance; each row's [total_scans], [healthy_scans],
    [diseased_scans] and [last_scan_date] are the count, the healthy and
    diseased counts and the latest [created_at] of the scans with its key;
    and the [total_scans] add up to the number of scans. *)
Theorem trigger_location_rows E :
  let s := apply_all E empty_store in
  map location_hierarchy (location_analytics s)
    = group_keys String.eqb (map location_key E) /\
  NoDup (map location_hierarchy (location_analytics s)) /\
  Forall (loc_row_ok E) (location_analytics s) /\
  zsum (map total_scans (location_analytics s)) = Z.of_nat (length E).
Proof.
  cbv zeta.
  assert (H : map location_hierarchy (location_analytics (apply_all E empty_store))
                = group_keys String.eqb (map location_key E) /\
              Forall (loc_row_ok E) (location_analytics (apply_all E empty_store))).
  { induction E as [|e E IH] using rev_ind; [split; [reflexivity|constructor]|].
    destruct IH as [Hk Hok]. rewrite Step3Facts.apply_all_snoc. unfold insert_scan.
    cbn [location_analytics]. rewrite scan_history_apply_all.
    apply la_step; assumption. }
  destruct H as [Hk Hok]. split; [exact Hk|]. split.
  { rewrite Hk. apply group_keys_nodup, String.eqb_eq. }
  split; [exact Hok|].
  transitivity (zsum (map (fun h => Z.of_nat (length (filter
                  (fun x => String.eqb (location_key x) h) E)))
                  (map location_hierarchy (location_analytics (apply_all E empty_store))))).
  - rewrite map_map. f_equal. apply map_ext_in. intros r Hr.
    rewrite Forall_forall in Hok. apply Hok in Hr. apply Hr.
  - rewrite Hk. apply (count_keys_sum String.eqb String.eqb_eq).
    + apply group_keys_nodup, String.eqb_eq.
    + intros x Hx. apply (in_group_keys _ String.eqb_eq). apply in_map. exact Hx.
Qed.

Lemma filter_key_label_snoc ds e h :
  filter (fun x => key_label_eqb (key_label x) h) (ds ++ [e])
  = filter (fun x => key_label_eqb (key_label x) h) ds
    ++ (if key_label_eqb (key_label e) h then [e] else []).
Proof. rewrite filter_app. simpl. destruct (key_label_eqb (key_label e) h); reflexivity. Qed.

Lemma key_label_eqb_sym a b : key_label_eqb a b = key_label_eqb b a.
Proof. unfold key_label_eqb. rewrite (String.eqb_sym (fst a)), (String.eqb_sym (snd a)). reflexivity. Qed.

Lemma dt_step E dt e :
  map dis_row_key dt = group_keys key_label_eqb (map key_label (filter is_diseased E)) ->
  Forall (dis_row_ok E) dt ->
  map dis_row_key (update_disease_tracking e dt)
    = group_keys key_label_eqb (map key_label (filter is_diseased (E ++ [e]))) /\
  Forall (dis_row_ok (E ++ [e])) (update_disease_tracking e dt).
Proof.
  intros Hk Hok. rewrite Forall_forall in Hok.
  unfold update_disease_tracking.
  destruct (disease_detected e) as [d|] eqn:Hd.
  2:{ assert (Hn : is_diseased e = false) by (unfold is_diseased; rewrite Hd; reflexivity).
      rewrite filter_app. simpl. rewrite Hn, app_nil_r.
      split; [exact Hk|]. apply Forall_forall. intros r Hr. specialize (Hok r Hr).
      unfold dis_row_ok in *. rewrite filter_app. simpl. rewrite Hn, app_nil_r. exact Hok. }
  destruct (String.eqb d "Healthy") eqn:Hh.
  { assert (Hn : is_diseased e = false)
      by (unfold is_diseased; rewrite Hd, Hh; reflexivity).
    rewrite filter_app. simpl. rewrite Hn, app_nil_r.
    split; [exact Hk|]. apply Forall_forall. intros r Hr. specialize (Hok r Hr).
    unfold dis_row_ok in *. rewrite filter_app. simpl. rewrite Hn, app_nil_r. exact Hok. }
  assert (Hy : is_diseased e = true) by (unfold is_diseased; rewrite Hd, Hh; reflexivity).
  assert (Hl : key_label e = (location_key e, d)) by (unfold key_label, label; rewrite Hd; reflexivity).
  assert (Hds : filter is_diseased (E ++ [e]) = filter is_diseased E ++ [e])
    by (rewrite filter_app; simpl; rewrite Hy; reflexivity).
  rewrite Hds, map_app. cbn [map]. rewrite group_keys_snoc. unfold add_group.
  set (k := (location_key e, d)).
  rewrite Hl. fold k.
  set (keys := group_keys key_label_eqb (map key_label (filter is_diseased E))) in *.
  assert (Hrow : forall r, (String.eqb (dt_location_hierarchy r) (location_key e)
                            && String.eqb (disease_name r) d) = key_label_eqb (dis_row_key r) k)
    by reflexivity.
  destruct (existsb (key_label_eqb k) keys) eqn:Hex.
  - assert (Hin : In k (map dis_row_key dt)).
    { rewrite Hk. apply existsb_exists in Hex as [y [Hy' Hky]].
      apply key_label_eqb_eq in Hky. subst y. exact Hy'. }
    destruct (find _ dt) eqn:Hf.
    2:{ exfalso. apply in_map_iff in Hin as [r [Hr Hrl]].
        assert (Hc := find_none _ _ Hf r Hrl). cbv beta in Hc.
        rewrite Hrow, Hr in Hc.
        assert (key_label_eqb k k = true) by (apply key_label_eqb_eq; reflexivity).
        congruence. }
    split.
    + rewrite map_map, <- Hk. apply map_ext. intros r.
      destruct (_ && _); reflexivity.
    + apply Forall_forall. intros y Hy'. apply in_map_iff in Hy' as [r [<- Hr]].
      specialize (Hok r Hr). unfold dis_row_ok in *. rewrite Hds. rewrite Hrow.
      destruct (key_label_eqb (dis_row_key r) k) eqn:Hrk.
      * cbn [dt_location_hierarchy disease_name occurrence_count first_detected
             last_detected severity_average].
        change (dis_row_key (mk_dis_row _ _ _ _ _ _ _ _ _)) with (dis_row_key r).
        rewrite filter_key_label_snoc, Hl. fold k. rewrite key_label_eqb_sym, Hrk.
        destruct Hok as (x & rest & Hes & H1 & H2 & H3 & H4).
        rewrite Hes. exists x, (rest ++ [e]). split; [reflexivity|].
        rewrite <- Hes.
        assert (Hne : filter (fun x => key_label_eqb (key_label x) (dis_row_key r)) (filter is_diseased E) <> [])
          by (rewrite Hes; discriminate).
        rewrite length_app, max_of_snoc by exact Hne. simpl length.
        split; [rewrite H1; lia|]. split; [exact H2|]. split; [rewrite H3; reflexivity|].
        unfold sev_exact at 1. cbn [sev_value exact_arith ar_online].
        change (sev_value exact_arith (severity_average r))
          with (sev_exact (severity_average r)).
        rewrite H1 in *. rewrite H4.
        rewrite (map_app confidence). cbn [map]. rewrite Step3Facts.qsum_snoc.
        set (n := length (filter (fun x => key_label_eqb (key_label x) (dis_row_key r)) (filter is_diseased E))) in *.
        assert (Hn : (1 <= n)%nat) by (unfold n; rewrite Hes; simpl; lia).
        set (q := qsum (map confidence (filter (fun x => key_label_eqb (key_label x) (dis_row_key r)) (filter is_diseased E)))).
        rewrite Nat2Z.inj_add, !inject_Z_plus. simpl (inject_Z (Z.of_nat 1)).
        assert (Hnz : ~ (inject_Z (Z.of_nat n) == 0)%Q).
        { change 0%Q with (inject_Z 0). rewrite inject_Z_injective. lia. }
        assert (Hnz1 : ~ (inject_Z (Z.of_nat n) + 1 == 0)%Q).
        { change 1%Q with (inject_Z 1). change 0%Q with (inject_Z 0).
          rewrite <- inject_Z_plus, inject_Z_injective. lia. }
        field. split; assumption.
      * rewrite filter_key_label_snoc, Hl. fold k.
        rewrite key_label_eqb_sym, Hrk, app_nil_r. exact Hok.
  - assert (Hnin : ~ In k (map dis_row_key dt)).
    { rewrite Hk. intros Hin.
      assert (existsb (key_label_eqb k) keys = true).
      { apply existsb_exists. exists k. split; [exact Hin|apply key_label_eqb_eq; reflexivity]. }
      congruence. }
    assert (Hf : find (fun r => String.eqb (dt_location_hierarchy r) (location_key e)
                                && String.eqb (disease_name r) d) dt = None).
    { destruct (find _ dt) as [r|] eqn:Hf; [|reflexivity].
      apply find_some in Hf as [Hr Hrk]. rewrite Hrow in Hrk. apply key_label_eqb_eq in Hrk.
      exfalso. apply Hnin. rewrite <- Hrk. apply in_map. exact Hr. }
    rewrite Hf.
    assert (HE : filter (fun x => key_label_eqb (key_label x) k) (filter is_diseased E) = []).
    { apply filter_all_false. intros x Hx.
      destruct (key_label_eqb (key_label x) k) eqn:Hxk; [|reflexivity].
      apply key_label_eqb_eq in Hxk. exfalso. apply Hnin. rewrite Hk.
      unfold keys. apply (in_group_keys _ key_label_eqb_eq).
      rewrite <- Hxk. apply in_map. exact Hx. }
    split.
    + rewrite map_app, <- Hk. reflexivity.
    + apply Forall_app. split.
      * apply Forall_forall. intros r Hr.
        assert (Hrk : key_label_eqb (dis_row_key r) k = false).
        { destruct (key_label_eqb (dis_row_key r) k) eqn:Hrk; [|reflexivity].
          apply key_label_eqb_eq in Hrk. exfalso. apply Hnin. rewrite <- Hrk.
          apply in_map. exact Hr. }
        specialize (Hok r Hr). unfold dis_row_ok in *. rewrite Hds.
        rewrite filter_key_label_snoc, Hl. fold k. rewrite key_label_eqb_sym, Hrk, app_nil_r.
        exact Hok.
      * constructor; [|constructor]. unfold dis_row_ok. rewrite Hds.
        change (dis_row_key (mk_dis_row _ _ _ _ _ _ _ _ _)) with k.
        rewrite filter_key_label_snoc, Hl. fold k. rewrite HE.
        assert (key_label_eqb k k = true) by (apply key_label_eqb_eq; reflexivity).
        rewrite H. simpl app. exists e, []. cbn.
        split; [reflexivity|]. split; [reflexivity|]. split; [reflexivity|].
        split; [reflexivity|]. unfold qsum. simpl. field.
Qed.

(** Extra: after the triggers have processed any event log [E] from empty
    tables, [disease_tracking] holds one row per (location key, disease) of
    the diseased scans of [E], in order of first appearance; each row's
    [occurrence_count] is the number of those scans, [first_detected] the
    [created_at] of the first of them in arrival order, [last_detected]
    their latest [created_at], and the exact value of its [severity_average]
    expression (before the column's rounding) the mean of their confidences
    (NULL read as 0.5); and the counts add up to the number of diseased
    scans. *)
Theorem trigger_disease_rows E :
  let s := apply_all E empty_store in
  map dis_row_key (disease_tracking s)
    = group_keys key_label_eqb (map key_label (filter is_diseased E)) /\
  NoDup (map dis_row_key (disease_tracking s)) /\
  Forall (dis_row_ok E) (disease_tracking s) /\
  zsum (map occurrence_count (disease_tracking s)) = count_if is_diseased E.
Proof.
  cbv zeta.
  assert (H : map dis_row_key (disease_tracking (apply_all E empty_store))
                = group_keys key_label_eqb (map key_label (filter is_diseased E)) /\
              Forall (dis_row_ok E) (disease_tracking (apply_all E empty_store))).
  { induction E as [|e E IH] using rev_ind; [split; [reflexivity|constructor]|].
    destruct IH as [Hk Hok]. rewrite Step3Facts.apply_all_snoc. unfold insert_scan.
    cbn [disease_tracking]. apply dt_step; assumption. }
  destruct H as [Hk Hok]. split; [exact Hk|]. split.
  { rewrite Hk. apply group_keys_nodup, key_label_eqb_eq. }
  split; [exact Hok|].
  transitivity (zsum (map (fun h => Z.of_nat (length (filter
                  (fun x => key_label_eqb (key_label x) h) (filter is_diseased E))))
                  (map dis_row_key (disease_tracking (apply_all E empty_store))))).
  - rewrite map_map. f_equal. apply map_ext_in. intros r Hr.
    rewrite Forall_forall in Hok. apply Hok in Hr.
    destruct Hr as (x & rest & _ & H1 & _). exact H1.
  - rewrite Hk. unfold count_if. apply (count_keys_sum key_label_eqb key_label_eqb_eq).
    + apply group_keys_nodup, key_label_eqb_eq.
    + intros x Hx. apply (in_group_keys _ key_label_eqb_eq). apply in_map. exact Hx.
Qed.

End Step3Extra.

Module RecomputeExtra.
Import Step3.

Lemma group_count_sum {A B} (eqb : B -> B -> bool)
    (Heq : forall a b, eqb a b = true <-> a = b) (f : A -> B) p E :
  zsum (map (fun g => count_if p (filter (fun x => eqb (f x) g) E))
            (group_keys eqb (map f E)))
  = count_if p E.
Proof.
  unfold count_if.
  transitivity (zsum (map (fun g => Z.of_nat (length (filter (fun x => eqb (f x) g)
                                                   (filter p E))))
                     (group_keys eqb (map f E)))).
  - f_equal. apply map_ext. intros g. rewrite filter_comm. reflexivity.
  - apply (count_keys_sum eqb Heq).
    + apply group_keys_nodup, Heq.
    + intros x Hx. apply filter_In in Hx as [Hx _].
      apply (in_group_keys _ Heq). apply in_map. exact Hx.
Qed.

(** Extra: the full recomputation distributes the log over its rows
    without loss or double counting: the [total_scans] of
    [location_analytics] add up to the number of scans, its
    [healthy_scans] and [diseased_scans] to the numbers of healthy and
    diseased scans, and the [occurrence_count] of [disease_tracking] to the
    number of diseased scans. *)
Theorem recompute_totals E :
  zsum (map total_scans (recompute_location E)) = Z.of_nat (length E) /\
  zsum (map healthy_scans (recompute_location E)) = count_if is_healthy E /\
  zsum (map diseased_scans (recompute_location E)) = count_if is_diseased E /\
  zsum (map occurrence_count (recompute_disease E)) = count_if is_diseased E.
Proof.
  unfold recompute_location, recompute_disease. rewrite !map_map.
  assert (Hall : count_if (fun _ => true) E = Z.of_nat (length E))
    by (unfold count_if; rewrite filter_true; reflexivity).
  split; [|split; [|split]].
  - rewrite <- Hall, <- (group_count_sum tuple_eqb Step3Facts.tuple_eqb_eq scan_tuple).
    f_equal. apply map_ext. intros [[p d] s]. unfold count_if. rewrite filter_true.
    reflexivity.
  - rewrite <- (group_count_sum tuple_eqb Step3Facts.tuple_eqb_eq scan_tuple).
    f_equal. apply map_ext. intros [[p d] s]. reflexivity.
  - rewrite <- (group_count_sum tuple_eqb Step3Facts.tuple_eqb_eq scan_tuple).
    f_equal. apply map_ext. intros [[p d] s]. reflexivity.
  - unfold count_if at 1.
    rewrite <- (count_keys_sum dis_group_eqb Step3Facts.dis_group_eqb_eq dis_group_of
                  (filter is_diseased E)
                  (group_keys dis_group_eqb (map dis_group_of (filter is_diseased E)))).
    + f_equal. apply map_ext. intros [[[p d] s] n]. reflexivity.
    + apply group_keys_nodup, Step3Facts.dis_group_eqb_eq.
    + intros x Hx. apply (in_group_keys _ Step3Facts.dis_group_eqb_eq). apply in_map. exact Hx.
Qed.

End RecomputeExtra.

Module SchemaExtra.
Import Schema SchemaKeys.

Lemma map_opt_some {A B} (f : A -> option B) l :
  (forall x, In x l -> f x <> None) -> exists l', map_opt f l = Some l'.
Proof.
  induction l as [|a l IH]; intros H; [exists []; reflexivity|].
  simpl. destruct (f a) as [b|] eqn:Hf.
  2:{ exfalso. apply (H a); [left; reflexivity|exact Hf]. }
  destruct IH as [l' ->]; [intros x Hx; apply H; right; exact Hx|].
  eexists. reflexivity.
Qed.

Lemma map_opt_map_eq {A B C} (f : A -> option B) (g : B -> C) (h : A -> C) l l' :
  (forall x y, f x = Some y -> g y = h x) ->
  map_opt f l = Some l' -> map g l' = map h l.
Proof.
  intros Hfg. revert l'. induction l as [|a l IH]; simpl; intros l' H.
  - injection H as <-. reflexivity.
  - destruct (f a) as [b|] eqn:Hf; [|discriminate].
    destruct (map_opt f l) as [ys|] eqn:Hm; [|discriminate].
    injection H as <-. simpl. rewrite (Hfg _ _ Hf), (IH ys eq_refl). reflexivity.
Qed.

Lemma dec52_small q : (0 <= q <= 100)%Q -> dec52 q = Some (round2 q).
Proof.
  intros Hq. apply SchemaFacts.round2_bounds in Hq. unfold dec52.
  rewrite Qabs_pos by apply Hq.
  destruct (Qle_bool 1000 (round2 q)) eqn:H; [|reflexivity].
  apply Qle_bool_iff in H. exfalso. destruct Hq. lra.
Qed.

Lemma filter_loc_snoc log e h :
  filter (fun x => String.eqb (location_string x) h) (log ++ [e])
  = filter (fun x => String.eqb (location_string x) h) log
    ++ (if String.eqb (location_string e) h then [e] else []).
Proof. rewrite filter_app. simpl. destruct (String.eqb (location_string e) h); reflexivity. Qed.

Lemma schema_step log la e :
  Forall row_inv la ->
  map la_location_string la = group_keys String.eqb (map location_string log) ->
  Forall (la_row_ok log) la ->
  exists la', update_location_analytics e la = Some la' /\
  map la_location_string la' = group_keys String.eqb (map location_string (log ++ [e])) /\
  Forall (la_row_ok (log ++ [e])) la'.
Proof.
  intros Hinv Hk Hok. rewrite map_app. cbn [map]. rewrite group_keys_snoc. unfold add_group.
  rewrite Forall_forall in Hok, Hinv.
  unfold update_location_analytics.
  set (k := location_string e).
  set (keys := group_keys String.eqb (map location_string log)) in *.
  destruct (existsb (String.eqb k) keys) eqn:Hex.
  - assert (Hin : In k (map la_location_string la)).
    { rewrite Hk. apply existsb_exists in Hex as [y [Hy Hky]].
      apply String.eqb_eq in Hky. subst y. exact Hy. }
    destruct (find (fun r => String.eqb (la_location_string r) k) la) eqn:Hf.
    2:{ exfalso. apply in_map_iff in Hin as [r [Hr Hrl]].
        assert (Hc := find_none _ _ Hf r Hrl). cbv beta in Hc.
        rewrite Hr, String.eqb_refl in Hc. discriminate. }
    set (F := fun r : la_row => if String.eqb (la_location_string r) k then _ else _).
    destruct (map_opt_some F la) as [la' Hm].
    { intros r Hr. unfold F. destruct (String.eqb (la_location_string r) k); [|discriminate].
      destruct (Hinv r Hr) as (H1 & H2 & H3 & H4 & _).
      rewrite dec52_small; [discriminate|].
      apply SchemaFacts.round2_bounds, SchemaFacts.ratio_bounds_100;
        destruct (ilike_healthy (predicted_disease e)); lia. }
    exists la'. split; [exact Hm|]. split.
    + rewrite <- Hk. apply (map_opt_map_eq F _ _ _ _ ); [|exact Hm].
      intros r y. unfold F. destruct (String.eqb (la_location_string r) k).
      * destruct (dec52 _); [|discriminate]. intros H. injection H as <-. reflexivity.
      * intros H. injection H as <-. reflexivity.
    + apply Forall_forall. intros y Hy.
      destruct (SchemaFacts.map_opt_in _ _ _ Hm y Hy) as (r & Hr & Hfy).
      specialize (Hok r Hr). unfold F in Hfy.
      destruct (String.eqb (la_location_string r) k) eqn:Hrk.
      * destruct (Hinv r Hr) as (H1 & H2 & H3 & H4 & _).
        rewrite dec52_small in Hfy.
        2:{ apply SchemaFacts.round2_bounds, SchemaFacts.ratio_bounds_100;
            destruct (ilike_healthy (predicted_disease e)); lia. }
        injection Hfy as <-. rewrite SchemaFacts.round2_round2.
        unfold la_row_ok in *.
        cbn [la_location_string la_country la_province la_district la_sector
             most_common_crop total_scans healthy_scans disease_scans last_scan_at
             healthy_percentage].
        rewrite filter_loc_snoc. fold k. rewrite String.eqb_sym, Hrk.
        destruct Hok as (x & rest & Hes & Hc & Hp & Hd & Hs & Hcr & Ht & Hh & Hds & Hl & _).
        rewrite Hes. exists x, (rest ++ [e]). rewrite <- Hes.
        split; [rewrite Hes; reflexivity|].
        do 5 (split; [assumption|]).
        rewrite length_app, !count_if_snoc, last_last. simpl length.
        unfold healthy_scan at 2 4. rewrite Ht, Hh, Hds.
        split; [lia|]. split; [reflexivity|]. split; [reflexivity|]. split; [reflexivity|].
        rewrite <- Ht. replace (Z.eqb (total_scans r + 1) 1) with false by lia.
        reflexivity.
      * injection Hfy as <-. unfold la_row_ok in *.
        rewrite filter_loc_snoc. fold k. rewrite String.eqb_sym, Hrk, app_nil_r. exact Hok.
  - assert (Hnin : ~ In k (map la_location_string la)).
    { rewrite Hk. intros Hin.
      assert (existsb (String.eqb k) keys = true).
      { apply existsb_exists. exists k. split; [exact Hin|apply String.eqb_refl]. }
      congruence. }
    assert (Hf : find (fun r => String.eqb (la_location_string r) k) la = None).
    { destruct (find _ la) as [r|] eqn:Hf; [|reflexivity].
      apply find_some in Hf as [Hr Hrk]. apply String.eqb_eq in Hrk.
      exfalso. apply Hnin. rewrite <- Hrk. apply in_map. exact Hr. }
    rewrite Hf.
    assert (HE : filter (fun x => String.eqb (location_string x) k) log = []).
    { apply filter_all_false. intros x Hx.
      destruct (String.eqb (location_string x) k) eqn:Hxk; [|reflexivity].
      apply String.eqb_eq in Hxk. exfalso. apply Hnin. rewrite Hk.
      unfold keys. apply (in_group_keys _ String.eqb_eq).
      rewrite <- Hxk. apply in_map. exact Hx. }
    eexists. split; [reflexivity|]. split.
    + rewrite map_app, <- Hk. reflexivity.
    + apply Forall_app. split.
      * apply Forall_forall. intros r Hr.
        assert (Hrk : String.eqb (la_location_string r) k = false).
        { apply String.eqb_neq. intros Heq. apply Hnin. rewrite <- Heq.
          apply in_map. exact Hr. }
        specialize (Hok r Hr). unfold la_row_ok in *.
        rewrite filter_loc_snoc. fold k. rewrite String.eqb_sym, Hrk, app_nil_r.
        exact Hok.
      * constructor; [|constructor]. unfold la_row_ok.
        cbn [la_location_string la_country la_province la_district la_sector
             most_common_crop total_scans healthy_scans disease_scans last_scan_at
             healthy_percentage].
        rewrite filter_loc_snoc. fold k. rewrite HE, String.eqb_refl. simpl app.
        exists e, []. unfold count_if, healthy_scan. cbn.
        destruct (ilike_healthy (predicted_disease e)); cbn; repeat split.
Qed.

Lemma refresh_keeps now log r y :
  refresh_growth (refresh_counts now log r) = Some y ->
  la_location_string y = la_location_string r /\
  la_country y = la_country r /\ la_province y = la_province r /\
  la_district y = la_district r /\ la_sector y = la_sector r /\
  most_common_crop y = most_common_crop r /\
  total_scans y = total_scans r /\ healthy_scans y = healthy_scans r /\
  disease_scans y = disease_scans r /\ last_scan_at y = last_scan_at r /\
  healthy_percentage y = healthy_percentage r.
Proof.
  unfold refresh_growth.
  destruct (dec52 (growth _ (scans_last_7_days _))); [|discriminate].
  destruct (dec52 (growth _ (scans_last_30_days _))); [|discriminate].
  intros H. injection H as <-. cbn. repeat split.
Qed.

Lemma schema_reachable_rows s :
  reachable s ->
  map la_location_string (location_analytics s)
    = group_keys String.eqb (map location_string (scan_history s)) /\
  Forall (la_row_ok (scan_history s)) (location_analytics s).
Proof.
  induction 1 as [|e s Hr IH|now s s' Hr IH Hrf].
  - split; [reflexivity|constructor].
  - destruct IH as [Hk Hok].
    destruct (schema_step _ _ e (SchemaFacts.reachable_inv _ Hr) Hk Hok)
      as (la' & Hu & Hk' & Hok').
    unfold insert_scan. rewrite Hu. cbn [scan_history location_analytics].
    split; assumption.
  - destruct IH as [Hk Hok].
    destruct (SchemaFacts.refresh_rows _ _ _ Hrf) as [Hlog Hy]. rewrite Hlog.
    split.
    + rewrite <- Hk. unfold refresh_location_analytics in Hrf.
      destruct (map_opt _ _) as [la|] eqn:Hm; [|discriminate].
      injection Hrf as <-. cbn [location_analytics].
      assert (Hfg : forall x y, refresh_growth x = Some y ->
                      la_location_string y = la_location_string x).
      { intros x y Hxy. unfold refresh_growth in Hxy.
        destruct (dec52 _); [|discriminate]. destruct (dec52 _); [|discriminate].
        injection Hxy as <-. reflexivity. }
      rewrite (map_opt_map_eq _ la_location_string la_location_string _ _ Hfg Hm).
      rewrite map_map. apply map_ext. intros r. reflexivity.
    + apply Forall_forall. intros y Hin.
      destruct (Hy y Hin) as (r & Hr' & Hg).
      rewrite Forall_forall in Hok. specialize (Hok r Hr').
      destruct (refresh_keeps _ _ _ _ Hg)
        as (E1 & E2 & E3 & E4 & E5 & E6 & E7 & E8 & E9 & E10 & E11).
      unfold la_row_ok in *.
      rewrite E1, E2, E3, E4, E5, E6, E7, E8, E9, E10, E11. exact Hok.
Qed.

(** Extra: in every state reachable by inserts and refreshes,
    [location_analytics] holds exactly one row per [location_string] of the
    logged scans, in order of first appearance, and each row agrees with
    the scans at its location ([la_row_ok]): location columns and
    [most_common_crop] from the first scan there, [total_scans],
    [healthy_scans] and [disease_scans] counted by the ILIKE test,
    [last_scan_at] from the last scan inserted there, and
    [healthy_percentage] 0 for a single scan and the rounded healthy
    percentage otherwise. *)
Theorem location_rows_follow_log s :
  reachable s ->
  map la_location_string (location_analytics s)
    = group_keys String.eqb (map location_string (scan_history s)) /\
  NoDup (map la_location_string (location_analytics s)) /\
  Forall (la_row_ok (scan_history s)) (location_analytics s).
Proof.
  intros Hr. destruct (schema_reachable_rows s Hr) as [Hk Hok].
  split; [exact Hk|]. split; [|exact Hok].
  rewrite Hk. apply group_keys_nodup, String.eqb_eq.
Qed.

Lemma location_rows_follow_log_witness :
  let s := insert_scan (mk_scan "s2" (Some "u2") "Maize" "Maize Healthy" (4 # 5)
                          "Rwanda" (Some "Kigali") None None "Kigali, Rwanda" 20)
             (insert_scan (mk_scan "s1" (Some "u1") "Maize" "Leaf Blight" (9 # 10)
                             "Rwanda" (Some "Kigali") None None "Kigali, Rwanda" 10)
                empty_db) in
  reachable s /\
  map la_location_string (location_analytics s)
    = group_keys String.eqb (map location_string (scan_history s)) /\
  NoDup (map la_location_string (location_analytics s)) /\
  Forall (la_row_ok (scan_history s)) (location_analytics s).
Proof.
  cbv zeta.
  assert (Hr : reachable
    (insert_scan (mk_scan "s2" (Some "u2") "Maize" "Maize Healthy" (4 # 5)
                    "Rwanda" (Some "Kigali") None None "Kigali, Rwanda" 20)
       (insert_scan (mk_scan "s1" (Some "u1") "Maize" "Leaf Blight" (9 # 10)
                       "Rwanda" (Some "Kigali") None None "Kigali, Rwanda" 10)
          empty_db))) by (repeat constructor).
  split; [exact Hr|]. exact (location_rows_follow_log _ Hr).
Defined.

End SchemaExtra.

Module SchemaDiseaseExtra.
Import Schema SchemaDisease.

Lemma key3_eqb_eq a b : key3_eqb a b = true <-> a = b.
Proof.
  destruct a as [[a1 a2] a3], b as [[b1 b2] b3]. unfold key3_eqb.
  rewrite !andb_true_iff, !String.eqb_eq. split.
  - intros [[-> ->] ->]. reflexivity.
  - intros H. injection H as -> -> ->. auto.
Qed.

Lemma key3_eqb_sym a b : key3_eqb a b = key3_eqb b a.
Proof.
  destruct (key3_eqb a b) eqn:H, (key3_eqb b a) eqn:H'; try reflexivity.
  - apply key3_eqb_eq in H. subst. rewrite <- H'. symmetry. apply key3_eqb_eq. reflexivity.
  - apply key3_eqb_eq in H'. subst. rewrite <- H. apply key3_eqb_eq. reflexivity.
Qed.

Lemma filter_key3_snoc log e h :
  filter (fun x => key3_eqb (scan_key x) h) (log ++ [e])
  = filter (fun x => key3_eqb (scan_key x) h) log
    ++ (if key3_eqb (scan_key e) h then [e] else []).
Proof. rewrite filter_app. simpl. destruct (key3_eqb (scan_key e) h); reflexivity. Qed.

Lemma disease_tracking_of_snoc log e :
  disease_tracking_of (log ++ [e]) = update_disease_tracking e (disease_tracking_of log).
Proof. unfold disease_tracking_of. rewrite fold_left_app. reflexivity. Qed.

Lemma old_dt_step log dt e :
  map dt_key dt = group_keys key3_eqb (map scan_key log) ->
  Forall (dt_row_ok log) dt ->
  map dt_key (update_disease_tracking e dt)
    = group_keys key3_eqb (map scan_key (log ++ [e])) /\
  Forall (dt_row_ok (log ++ [e])) (update_disease_tracking e dt).
Proof.
  intros Hk Hok. rewrite map_app. cbn [map]. rewrite group_keys_snoc. unfold add_group.
  rewrite Forall_forall in Hok.
  unfold update_disease_tracking.
  set (k := scan_key e).
  set (keys := group_keys key3_eqb (map scan_key log)) in *.
  assert (Hrow : forall r, (String.eqb (dt_location_string r) (location_string e)
                            && String.eqb (dt_crop_type r) (crop_type e)
                            && String.eqb (dt_disease_name r) (predicted_disease e))
                           = key3_eqb (dt_key r) k) by reflexivity.
  assert (Hkk : key3_eqb k k = true) by (apply key3_eqb_eq; reflexivity).
  destruct (existsb (key3_eqb k) keys) eqn:Hex.
  - assert (Hin : In k (map dt_key dt)).
    { rewrite Hk. apply existsb_exists in Hex as [y [Hy Hky]].
      apply key3_eqb_eq in Hky. subst y. exact Hy. }
    destruct (find _ dt) eqn:Hf.
    2:{ exfalso. apply in_map_iff in Hin as [r [Hr Hrl]].
        assert (Hc := find_none _ _ Hf r Hrl). cbv beta in Hc.
        rewrite Hrow, Hr in Hc. congruence. }
    split.
    + rewrite map_map, <- Hk. apply map_ext. intros r.
      destruct (_ && _); reflexivity.
    + apply Forall_forall. intros y Hy. apply in_map_iff in Hy as [r [<- Hr]].
      specialize (Hok r Hr). unfold dt_row_ok in *. rewrite Hrow.
      destruct (key3_eqb (dt_key r) k) eqn:Hrk.
      * change (dt_key (mk_dt_row _ _ _ _ _ _ _ _)) with (dt_key r).
        cbn [total_cases cases_last_7_days cases_last_30_days first_detected last_detected].
        rewrite filter_key3_snoc. fold k. rewrite key3_eqb_sym, Hrk.
        destruct Hok as (x & rest & Hes & H1 & H2 & H3 & H4 & H5).
        rewrite Hes. exists x, (rest ++ [e]).
        split; [reflexivity|]. rewrite <- Hes, length_app, last_last. change (length [e]) with 1%nat.
        repeat split; try assumption. rewrite H1, Nat2Z.inj_add. reflexivity.
      * rewrite filter_key3_snoc. fold k. rewrite key3_eqb_sym, Hrk, app_nil_r. exact Hok.
  - assert (Hnin : ~ In k (map dt_key dt)).
    { rewrite Hk. intros Hin.
      assert (existsb (key3_eqb k) keys = true).
      { apply existsb_exists. exists k. split; assumption. }
      congruence. }
    assert (Hf : find (fun r => String.eqb (dt_location_string r) (location_string e)
                                && String.eqb (dt_crop_type r) (crop_type e)
                                && String.eqb (dt_disease_name r) (predicted_disease e)) dt
                 = None).
    { destruct (find _ dt) as [r|] eqn:Hf; [|reflexivity].
      apply find_some in Hf as [Hr Hrk]. rewrite Hrow in Hrk. apply key3_eqb_eq in Hrk.
      exfalso. apply Hnin. rewrite <- Hrk. apply in_map. exact Hr. }
    rewrite Hf.
    assert (HE : filter (fun x => key3_eqb (scan_key x) k) log = []).
    { apply filter_all_false. intros x Hx.
      destruct (key3_eqb (scan_key x) k) eqn:Hxk; [|reflexivity].
      apply key3_eqb_eq in Hxk. exfalso. apply Hnin. rewrite Hk.
      unfold keys. apply (in_group_keys _ key3_eqb_eq).
      rewrite <- Hxk. apply in_map. exact Hx. }
    split.
    + rewrite map_app, <- Hk. reflexivity.
    + apply Forall_app. split.
      * apply Forall_forall. intros r Hr.
        assert (Hrk : key3_eqb (dt_key r) k = false).
        { destruct (key3_eqb (dt_key r) k) eqn:Hrk; [|reflexivity].
          apply key3_eqb_eq in Hrk. exfalso. apply Hnin. rewrite <- Hrk.
          apply in_map. exact Hr. }
        specialize (Hok r Hr). unfold dt_row_ok in *.
        rewrite filter_key3_snoc. fold k. rewrite key3_eqb_sym, Hrk, app_nil_r.
        exact Hok.
      * constructor; [|constructor]. unfold dt_row_ok.
        change (dt_key (mk_dt_row _ _ _ _ _ _ _ _)) with k.
        rewrite filter_key3_snoc. fold k. rewrite HE, Hkk. simpl app.
        exists e, []. cbn. repeat split.
Qed.

(** Extra: after the trigger has processed the inserted scans [log] from
    an empty table, [disease_tracking] holds one row per (location_string,
    crop_type, predicted_disease) of the log, healthy predictions included,
    in order of first appearance; each row's [total_cases] counts the scans
    with its key, [cases_last_7_days] and [cases_last_30_days] stay at 1,
    [first_detected] and [last_detected] are the [created_at] of the first
    and of the last of those scans; and the [total_cases] add up to the
    number of scans. *)
Theorem old_disease_rows log :
  let dt := disease_tracking_of log in
  map dt_key dt = group_keys key3_eqb (map scan_key log) /\
  NoDup (map dt_key dt) /\
  Forall (dt_row_ok log) dt /\
  zsum (map total_cases dt) = Z.of_nat (length log).
Proof.
  cbv zeta.
  assert (H : map dt_key (disease_tracking_of log) = group_keys key3_eqb (map scan_key log) /\
              Forall (dt_row_ok log) (disease_tracking_of log)).
  { induction log as [|e log IH] using rev_ind; [split; [reflexivity|constructor]|].
    destruct IH as [Hk Hok]. rewrite disease_tracking_of_snoc.
    apply old_dt_step; assumption. }
  destruct H as [Hk Hok]. split; [exact Hk|]. split.
  { rewrite Hk. apply group_keys_nodup, key3_eqb_eq. }
  split; [exact Hok|].
  transitivity (zsum (map (fun h => Z.of_nat (length (filter
                  (fun x => key3_eqb (scan_key x) h) log)))
                  (map dt_key (disease_tracking_of log)))).
  - rewrite map_map. f_equal. apply map_ext_in. intros r Hr.
    rewrite Forall_forall in Hok. apply Hok in Hr.
    destruct Hr as (x & rest & _ & H1 & _). exact H1.
  - rewrite Hk. apply (count_keys_sum key3_eqb key3_eqb_eq).
    + apply group_keys_nodup, key3_eqb_eq.
    + intros x Hx. apply (in_group_keys _ key3_eqb_eq). apply in_map. exact Hx.
Qed.

End SchemaDiseaseExtra.

Import Like.

Lemma tokens_pct t : tokens (t ++ "%") <> None.
Proof.
  remember (String.length t) as n eqn:Hn. revert t Hn.
  induction n as [n IH] using lt_wf_ind. intros t Hn.
  destruct t as [|c r]; [discriminate|]. simpl.
  destruct (Ascii.eqb c "%") eqn:H1.
  { destruct (tokens (r ++ "%")) eqn:E; [discriminate|]. exfalso. apply (IH (String.length r)) in E; auto. simpl in Hn; lia. }
  destruct (Ascii.eqb c "_") eqn:H2.
  { destruct (tokens (r ++ "%")) eqn:E; [discriminate|]. exfalso. apply (IH (String.length r)) in E; auto. simpl in Hn; lia. }
  destruct (Ascii.eqb c "\") eqn:H3.
  { destruct r as [|c2 r2]; [discriminate|]. simpl.
    destruct (tokens (r2 ++ "%")) eqn:E; [discriminate|]. exfalso. apply (IH (String.length r2)) in E; auto. simpl in Hn; lia. }
  destruct (tokens (r ++ "%")) eqn:E; [discriminate|]. exfalso. apply (IH (String.length r)) in E; auto. simpl in Hn; lia.
Qed.

Lemma tokens_plain_app t u :
  plain t -> tokens (t ++ u) = option_map (app (map TLit (list_ascii_of_string t))) (tokens u).
Proof.
  induction t as [|c t IH]; intros Hp; simpl.
  - destruct (tokens u); reflexivity.
  - destruct (Hp c (or_introl eq_refl)) as (H1 & H2 & H3).
    apply Ascii.eqb_neq in H1, H2, H3. rewrite H1, H2, H3.
    rewrite IH by (intros d Hd; apply Hp; right; exact Hd).
    destruct (tokens u); reflexivity.
Qed.

Lemma like_match_any ts s :
  like_match (TAny :: ts) s
  = like_match ts s || match s with EmptyString => false | String _ s' => like_match (TAny :: ts) s' end.
Proof. destruct s; reflexivity. Qed.

Lemma like_match_any_iff ts s :
  like_match (TAny :: ts) s = true <->
  exists pre post, s = (pre ++ post)%string /\ like_match ts post = true.
Proof.
  induction s as [|c s IH].
  - rewrite like_match_any, orb_false_r. split.
    + intros H. exists "", "". split; [reflexivity|exact H].
    + intros (pre & post & Hs & H). destruct pre, post; try discriminate. exact H.
  - rewrite like_match_any, orb_true_iff, IH. split.
    + intros [H | (pre & post & Hs & H)].
      * exists "", (String c s). split; [reflexivity|exact H].
      * exists (String c pre), post. rewrite Hs. split; [reflexivity|exact H].
    + intros (pre & post & Hs & H). destruct pre as [|c' pre].
      * left. simpl in Hs. rewrite Hs. exact H.
      * right. injection Hs as -> Hs. exists pre, post. split; assumption.
Qed.

Lemma like_match_lits t ts s :
  like_match (map TLit (list_ascii_of_string t) ++ ts) s = true <->
  exists post, s = (t ++ post)%string /\ like_match ts post = true.
Proof.
  revert s. induction t as [|c t IH]; intros s; simpl.
  - split; [intros H; exists s; split; [reflexivity|exact H]|].
    intros (post & -> & H). exact H.
  - destruct s as [|c' s].
    + split; [discriminate|]. intros (post & Hs & _). discriminate.
    + rewrite andb_true_iff, IH, Ascii.eqb_eq. split.
      * intros [-> (post & -> & H)]. exists post. split; [reflexivity|exact H].
      * intros (post & Hs & H). injection Hs as -> ->. split; [reflexivity|].
        exists post. split; [reflexivity|exact H].
Qed.

Lemma str_app_nil_r s : (s ++ "")%string = s.
Proof. induction s as [|c s IH]; simpl; [reflexivity|rewrite IH; reflexivity]. Qed.

Lemma str_app_assoc a b c : ((a ++ b) ++ c)%string = (a ++ (b ++ c))%string.
Proof. induction a as [|x a IH]; simpl; [reflexivity|rewrite IH; reflexivity]. Qed.

Lemma like_match_end s : like_match [TAny] s = true.
Proof. apply like_match_any_iff. exists s, "". rewrite str_app_nil_r. split; reflexivity. Qed.

Lemma like_contains t s :
  like_match (TAny :: map TLit (list_ascii_of_string t) ++ [TAny]) s = true <-> contains t s.
Proof.
  rewrite like_match_any_iff. unfold contains. split.
  - intros (pre & post & -> & H). apply like_match_lits in H as (post' & -> & _).
    exists pre, post'. reflexivity.
  - intros (pre & post & ->). exists pre, (t ++ post)%string. split; [reflexivity|].
    apply like_match_lits. exists post. split; [reflexivity|apply like_match_end].
Qed.

Lemma lower_app a b : Schema.lower (a ++ b) = (Schema.lower a ++ Schema.lower b)%string.
Proof. induction a as [|c a IH]; simpl; [reflexivity|rewrite IH; reflexivity]. Qed.

Lemma lower_ascii_special c :
  c <> "%"%char /\ c <> "_"%char /\ c <> "\"%char ->
  Schema.lower_ascii c <> "%"%char /\ Schema.lower_ascii c <> "_"%char /\
  Schema.lower_ascii c <> "\"%char.
Proof.
  intros H. unfold Schema.lower_ascii.
  destruct (Nat.leb 65 (nat_of_ascii c) && Nat.leb (nat_of_ascii c) 90) eqn:E; [|exact H].
  apply andb_true_iff in E as [E1 E2]. apply Nat.leb_le in E1, E2.
  repeat split; intros Hc; apply (f_equal nat_of_ascii) in Hc;
    rewrite nat_ascii_embedding in Hc by lia;
    [change (nat_of_ascii "%") with 37%nat in Hc|change (nat_of_ascii "_") with 95%nat in Hc
    |change (nat_of_ascii "\") with 92%nat in Hc]; lia.
Qed.

Lemma plain_lower t : plain t -> plain (Schema.lower t).
Proof.
  induction t as [|c t IH]; intros Hp d Hd; [destruct Hd|].
  simpl in Hd. destruct Hd as [<- | Hd].
  - apply lower_ascii_special, Hp. left. reflexivity.
  - apply IH; [intros e He; apply Hp; right; exact He|exact Hd].
Qed.

Lemma ilike_contains s t :
  plain t ->
  ilike s ("%" ++ t ++ "%") = Some (like_match
     (TAny :: map TLit (list_ascii_of_string (Schema.lower t)) ++ [TAny]) (Schema.lower s)).
Proof.
  intros Hp. unfold ilike. rewrite !lower_app. cbn [Schema.lower Schema.lower_ascii].
  change (Schema.lower_ascii "%") with "%"%char. simpl (String "%" _ ++ _)%string.
  cbn [tokens Ascii.eqb]. simpl.
  rewrite tokens_plain_app by (apply plain_lower; exact Hp). reflexivity.
Qed.

Lemma prefix_app p s : prefix p s = true <-> exists post, s = (p ++ post)%string.
Proof.
  revert s. induction p as [|c p IH]; intros s.
  - split; [intros _; exists s; reflexivity|intros _; destruct s; reflexivity].
  - destruct s as [|c' s].
    + split; [discriminate|intros (post & H); discriminate].
    + change (prefix (String c p) (String c' s))
        with (match ascii_dec c c' with left _ => prefix p s | right _ => false end).
      destruct (ascii_dec c c') as [->|Hne].
      * rewrite IH. split; intros (post & H); exists post; simpl in *; congruence.
      * split; [discriminate|]. intros (post & H). injection H as H _. congruence.
Qed.

Lemma index0_contains p s : index 0 p s <> None <-> contains p s.
Proof.
  unfold contains. induction s as [|b s IH].
  - simpl. destruct p as [|a p].
    + split; [intros _; exists "", ""; reflexivity|congruence].
    + split; [congruence|]. intros (pre & post & H).
      destruct pre; simpl in H; discriminate.
  - cbn [index]. destruct (prefix p (String b s)) eqn:Hp.
    + split; [intros _|congruence]. apply prefix_app in Hp as (post & Hpost).
      exists "", post. exact Hpost.
    + destruct (index 0 p s) eqn:Hi.
      * split; [intros _|congruence]. destruct IH as [IH _].
        destruct (IH ltac:(congruence)) as (pre & post & ->).
        exists (String b pre), post. reflexivity.
      * split; [congruence|]. intros (pre & post & H). exfalso.
        destruct pre as [|c pre].
        -- simpl in H. assert (prefix p (String b s) = true)
             by (apply prefix_app; exists post; exact H). congruence.
        -- injection H as -> H. apply IH; [exists pre, post; exact H|reflexivity].
Qed.

(** Extra: the test [predicted_disease ILIKE '%healthy%'] of the
    LOCATION_TRACKING_SCHEMA trigger, read by the general ILIKE matcher,
    never fails and is the case-insensitive substring test [ilike_healthy]
    that the model of the trigger uses. *)
Theorem ilike_healthy_agrees s : ilike s "%healthy%" = Some (Schema.ilike_healthy s).
Proof.
  assert (Hp : plain "healthy").
  { intros c Hc. simpl in Hc.
    repeat (destruct Hc as [<-|Hc]; [repeat split; discriminate|]). destruct Hc. }
  change "%healthy%" with ("%" ++ "healthy" ++ "%")%string.
  rewrite ilike_contains by exact Hp. f_equal.
  apply eq_iff_eq_true. rewrite like_contains. change (Schema.lower "healthy") with "healthy".
  unfold Schema.ilike_healthy. rewrite <- index0_contains.
  destruct (index 0 "healthy" (Schema.lower s)); split; congruence.
Qed.

Lemma no_wildcards_plain t : no_wildcards t = true -> plain t.
Proof.
  unfold no_wildcards, plain. rewrite forallb_forall. intros H c Hc.
  specialize (H c Hc). rewrite !andb_true_iff, !negb_true_iff, !Ascii.eqb_neq in H.
  tauto.
Qed.

Lemma lower_contains_pattern t :
  Schema.lower (Step5.contains_pattern t) = String "%" (Schema.lower t ++ "%").
Proof. unfold Step5.contains_pattern. cbn [append Schema.lower]. rewrite lower_app. reflexivity. Qed.

Lemma contains_pattern_tokens t : tokens (Schema.lower (Step5.contains_pattern t)) <> None.
Proof.
  rewrite lower_contains_pattern. cbn [tokens Ascii.eqb]. simpl.
  destruct (tokens (Schema.lower t ++ "%")) eqn:E; [discriminate|].
  exfalso. exact (tokens_pct _ E).
Qed.

Lemma contains_pattern_plain t :
  plain t ->
  tokens (Schema.lower (Step5.contains_pattern t))
  = Some (TAny :: map TLit (list_ascii_of_string (Schema.lower t)) ++ [TAny]).
Proof.
  intros Hp. rewrite lower_contains_pattern. cbn [tokens Ascii.eqb]. simpl.
  rewrite tokens_plain_app by (apply plain_lower; exact Hp). reflexivity.
Qed.

Lemma substring_col_iff t x :
  Step5.substring_col t (Some x) = true <-> contains (Schema.lower t) (Schema.lower x).
Proof.
  unfold Step5.substring_col. rewrite <- index0_contains.
  destruct (index 0 _ _); split; congruence.
Qed.

Lemma ilike_col_plain t ts :
  plain t -> tokens (Schema.lower (Step5.contains_pattern t)) = Some ts ->
  forall v, Step5.ilike_col ts v = Step5.substring_col t v.
Proof.
  intros Hp Ht v. rewrite contains_pattern_plain in Ht by exact Hp. injection Ht as <-.
  destruct v as [x|]; [|reflexivity]. unfold Step5.ilike_col.
  apply eq_iff_eq_true. rewrite like_contains, substring_col_iff. reflexivity.
Qed.

(** Extra: [x ILIKE '%' || t || '%'] never raises the pattern error, and
    for a term [t] without [%], [_] or backslash it holds exactly when the
    lower-cased [t] occurs in the lower-cased [x]. *)
Theorem ilike_contains_pattern x t :
  ilike x (Step5.contains_pattern t) <> None /\
  (no_wildcards t = true ->
   exists b, ilike x (Step5.contains_pattern t) = Some b /\
             (b = true <-> contains (Schema.lower t) (Schema.lower x))).
Proof.
  split.
  - unfold ilike. destruct (tokens _) eqn:E; [discriminate|].
    exfalso. exact (contains_pattern_tokens t E).
  - intros Hw. apply no_wildcards_plain in Hw.
    unfold ilike. rewrite (contains_pattern_plain t Hw). simpl.
    eexists. split; [reflexivity|]. apply like_contains.
Qed.

Module Step5Facts.
Import Step5.

Lemma search_locations_run term la out :
  search_locations term la = Some out -> search_locations_result term la out.
Proof.
  unfold search_locations, search_locations_result. destruct term as [t|].
  - destruct (tokens _) as [ts|] eqn:Ht; [|discriminate]. intros H. injection H as <-.
    exists ts, (Schema.sort_desc (filter (search_hit (ilike_col ts)) la)).
    split; [reflexivity|]. split; [apply SchemaFacts.sort_desc_order|reflexivity].
  - intros H. injection H as <-. reflexivity.
Qed.

(** Extra: no row returned by [search_locations] has match type 'Other':
    the WHERE keeps a row only when one of its three ILIKE tests holds, and
    the CASE names the first of them. *)
Theorem search_locations_never_other term la out :
  search_locations_result term la out ->
  Forall (fun y => match_type y <> "Other") out.
Proof.
  unfold search_locations_result. destruct term as [t|]; [|intros ->; constructor].
  intros (ts & sorted & _ & [Hp _] & ->). apply Forall_map, Forall_forall.
  intros r Hr. apply (Permutation_in _ (Permutation_sym Hp)) in Hr.
  apply filter_In in Hr as [_ Hh]. unfold search_hit in Hh.
  unfold to_search_row, match_type_of; cbn [match_type].
  destruct (ilike_col ts (Schema.la_province r)); [discriminate|].
  destruct (ilike_col ts (Schema.la_district r)); [discriminate|].
  destruct (ilike_col ts (Schema.la_sector r)); discriminate.
Qed.

Lemma search_locations_never_other_witness :
  exists out,
    search_locations_result (Some "kig")
      [sample_la (Some "Kigali") (Some "Gasabo") None 5;
       sample_la (Some "Southern") None None 3;
       sample_la None (Some "Kigali") None 2] out /\
    Forall (fun y => match_type y <> "Other") out.
Proof.
  eexists. split.
  - apply search_locations_run. vm_compute. reflexivity.
  - apply (search_locations_never_other (Some "kig")
      [sample_la (Some "Kigali") (Some "Gasabo") None 5;
       sample_la (Some "Southern") None None 3;
       sample_la None (Some "Kigali") None 2]).
    apply search_locations_run. vm_compute. reflexivity.
Defined.

Lemma like_match_anyany s : like_match [TAny; TAny] s = true.
Proof. apply like_match_any_iff. exists "", s. split; [reflexivity|apply like_match_end]. Qed.

Lemma disease_tracking_by_location_run f dt out :
  get_disease_tracking_by_location f dt = Some out -> disease_tracking_by_location_result f dt out.
Proof.
  unfold get_disease_tracking_by_location, disease_tracking_by_location_result.
  destruct (dt_selected f dt) as [sel|]; [|discriminate]. simpl. intros H. injection H as <-.
  exists sel, (sort_dt sel). split; [reflexivity|]. split; [|split; [|reflexivity]].
  - induction sel as [|r t IH]; simpl; [constructor|].
    eapply perm_trans; [apply perm_skip, IH|].
    clear IH. induction (sort_dt t) as [|y u IHu]; simpl; [reflexivity|].
    destruct (dt_strictly_before y r); [|reflexivity].
    eapply perm_trans; [apply perm_swap|]. apply perm_skip. exact IHu.
  - assert (Hins : forall r l, Sorted dt_order l -> Sorted dt_order (insert_dt r l)).
    { intros r l. induction l as [|y u IHu]; intros Hs; simpl; [repeat constructor|].
      inversion Hs as [|? ? Hu Hh]; subst.
      destruct (dt_strictly_before y r) eqn:Hb.
      - constructor; [apply IHu; exact Hu|].
        destruct u as [|z u]; simpl; [constructor; unfold dt_order, dt_strictly_before in *; lia|].
        inversion Hh; subst. destruct (dt_strictly_before z r); constructor; [assumption|].
        unfold dt_order, dt_strictly_before in *.
        apply orb_true_iff in Hb as [Hb|Hb]; [apply Z.ltb_lt in Hb; lia|].
        apply andb_true_iff in Hb as [Hb1 Hb2]. apply Z.eqb_eq in Hb1. apply Z.ltb_lt in Hb2. lia.
      - constructor; [exact Hs|]. constructor. unfold dt_order.
        unfold dt_strictly_before in Hb. apply orb_false_iff in Hb as [Hb1 Hb2].
        apply Z.ltb_ge in Hb1. apply andb_false_iff in Hb2 as [Hb2|Hb2].
        + apply Z.eqb_neq in Hb2. lia.
        + apply Z.ltb_ge in Hb2. lia. }
    induction sel as [|r t IH]; simpl; [constructor|]. apply Hins, IH.
Qed.

(** Extra: [get_disease_tracking_by_location] with a NULL filter returns
    every [disease_tracking] row, while the empty filter '' returns only
    the rows with at least one non-NULL province, district or sector
    ('%%' matches every non-NULL value, and a NULL one never). *)
Theorem disease_by_location_null_vs_empty dt out_null out_empty :
  disease_tracking_by_location_result None dt out_null ->
  disease_tracking_by_location_result (Some "") dt out_empty ->
  Permutation (map to_dtl_row dt) out_null /\
  Permutation
    (map to_dtl_row (filter (dt_hit (fun v => match v with Some _ => true | None => false end)) dt))
    out_empty.
Proof.
  intros (sel & sorted & Hs & Hp & _ & ->) (sel' & sorted' & Hs' & Hp' & _ & ->).
  injection Hs as <-. split; [apply Permutation_map, Hp|].
  unfold dt_selected in Hs'. change (tokens (Schema.lower (contains_pattern ""))) with (Some [TAny; TAny]) in Hs'.
  injection Hs' as <-. apply Permutation_map.
  replace (filter (dt_hit (fun v => match v with Some _ => true | None => false end)) dt)
    with (filter (dt_hit (ilike_col [TAny; TAny])) dt); [exact Hp'|].
  apply filter_ext. intros r. unfold dt_hit, ilike_col.
  destruct (Step3.dt_province r), (Step3.dt_district r), (Step3.dt_sector r);
    rewrite ?like_match_anyany; reflexivity.
Qed.

Lemma disease_by_location_null_vs_empty_witness :
  let dt := [sample_dt (Some "Kigali") None None 4; sample_dt None None None 2] in
  exists out_null out_empty,
    disease_tracking_by_location_result None dt out_null /\
    disease_tracking_by_location_result (Some "") dt out_empty /\
    Permutation (map to_dtl_row dt) out_null /\
    Permutation
      (map to_dtl_row (filter (dt_hit (fun v => match v with Some _ => true | None => false end)) dt))
      out_empty.
Proof.
  cbv zeta. do 2 eexists.
  assert (H0 : disease_tracking_by_location_result None
                 [sample_dt (Some "Kigali") None None 4; sample_dt None None None 2]
                 (map to_dtl_row (sort_dt [sample_dt (Some "Kigali") None None 4;
                                           sample_dt None None None 2])))
    by (apply disease_tracking_by_location_run; reflexivity).
  assert (H1 : disease_tracking_by_location_result (Some "")
                 [sample_dt (Some "Kigali") None None 4; sample_dt None None None 2]
                 (map to_dtl_row (sort_dt [sample_dt (Some "Kigali") None None 4])))
    by (apply disease_tracking_by_location_run; vm_compute; reflexivity).
  split; [exact H0|]. split; [exact H1|].
  exact (disease_by_location_null_vs_empty _ _ _ H0 H1).
Defined.

End Step5Facts.

Lemma sorted_map_mono {A B} (R : A -> A -> Prop) (R' : B -> B -> Prop) (f : A -> B) l :
  (forall a b, R a b -> R' (f a) (f b)) -> Sorted R l -> Sorted R' (map f l).
Proof.
  intros Hm. induction 1 as [|a l Hl IH Hh]; simpl; constructor; [exact IH|].
  destruct Hh; simpl; constructor. apply Hm. assumption.
Qed.

Lemma strongly_sorted_app {A} (R : A -> A -> Prop) l1 l2 y x :
  StronglySorted R (l1 ++ l2) -> In y l1 -> In x l2 -> R y x.
Proof.
  induction l1 as [|a l1 IH]; intros Hs Hy Hx; [destruct Hy|].
  simpl in Hs. apply StronglySorted_inv in Hs as [Hs Hf].
  destruct Hy as [<-|Hy].
  - rewrite Forall_forall in Hf. apply Hf, in_or_app. right. exact Hx.
  - exact (IH Hs Hy Hx).
Qed.

Lemma in_firstn {A} n (l : list A) x : In x (firstn n l) -> In x l.
Proof. intros H. rewrite <- (firstn_skipn n l). apply in_or_app. left. exact H. Qed.

Lemma nodup_map_inj {A B} (f : A -> B) l :
  (forall x y, f x = f y -> x = y) -> NoDup l -> NoDup (map f l).
Proof.
  intros Hf. induction 1 as [|x l Hx Hl IH]; simpl; constructor; [|exact IH].
  intros Hin. apply in_map_iff in Hin as (y & Hy & Hyl). apply Hf in Hy. subst. contradiction.
Qed.

Module Step5MoreFacts.
Import Schema Step5 Step5More.

Lemma level_partition la :
  Permutation (level_rows (Some "province") la ++ level_rows (Some "district") la ++
               level_rows (Some "sector") la)
              (level_rows (Some "all") la).
Proof.
  induction la as [|r la IH]; [constructor|]. unfold level_rows in *. cbn [filter].
  assert (Hp : level_selected (Some "province") r =
               negb (is_not_null (la_district r)) && negb (is_not_null (la_sector r)))
    by reflexivity.
  assert (Hd : level_selected (Some "district") r =
               is_not_null (la_district r) && negb (is_not_null (la_sector r)))
    by reflexivity.
  assert (Hs : level_selected (Some "sector") r = is_not_null (la_sector r)) by reflexivity.
  assert (Ha : level_selected (Some "all") r = true) by reflexivity.
  rewrite Hp, Hd, Hs, Ha.
  destruct (la_district r), (la_sector r), (Z.ltb 0 (total_scans r)); cbn [is_not_null negb andb];
    first
      [ exact IH
      | apply perm_skip; exact IH
      | symmetry; apply Permutation_cons_app; symmetry; exact IH
      | rewrite app_assoc; symmetry; apply Permutation_cons_app;
        rewrite <- app_assoc; symmetry; exact IH ].
Qed.

(** Extra: the province, district and sector levels of
    [get_location_analytics_by_level] split the rows of level 'all' (the
    default): every row with scans comes back at exactly one of the three
    levels. *)
Theorem by_level_partition la op od os oa :
  by_level_result (Some "province") la op ->
  by_level_result (Some "district") la od ->
  by_level_result (Some "sector") la os ->
  by_level_result (Some "all") la oa ->
  Permutation (op ++ od ++ os) oa.
Proof.
  intros (sp & [Hp _] & ->) (sd & [Hd _] & ->) (ss & [Hs _] & ->) (sa & [Ha _] & ->).
  rewrite <- !map_app. apply Permutation_map.
  rewrite <- Hp, <- Hd, <- Hs, <- Ha. apply level_partition.
Qed.

Lemma by_level_run lvl la : by_level_result lvl la (get_location_analytics_by_level lvl la).
Proof. exists (sort_desc (level_rows lvl la)). split; [apply SchemaFacts.sort_desc_order|reflexivity]. Qed.

Lemma by_level_partition_witness :
  let la := [sample_la (Some "Kigali") None None 4;
             sample_la (Some "Kigali") (Some "Gasabo") None 3;
             sample_la (Some "Kigali") (Some "Gasabo") (Some "Remera") 2;
             sample_la None None (Some "Remera") 1] in
  Permutation
    (get_location_analytics_by_level (Some "province") la ++
     get_location_analytics_by_level (Some "district") la ++
     get_location_analytics_by_level (Some "sector") la)
    (get_location_analytics_by_level (Some "all") la).
Proof.
  cbv zeta.
  match goal with
  | |- Permutation (get_location_analytics_by_level _ ?l ++ _) _ =>
      apply (by_level_partition l); apply by_level_run
  end.
Defined.

Lemma created_desc_trans : Transitive created_desc.
Proof.
  intros a b c. unfold created_desc.
  destruct (sh_created_at a), (sh_created_at b), (sh_created_at c); tauto || lia.
Qed.

(** Extra: [get_user_scan_history(user, n)] returns min(n, number of the
    user's scans) rows, and they are the newest: a scan of the user that is
    strictly newer than a returned one (or has a NULL date, which sorts
    first) is returned too. *)
Theorem user_history_newest user k log out :
  user_scan_history_result user (Some k) log out ->
  length out = Nat.min (Z.to_nat k) (length (filter (of_user user) log)) /\
  forall x, In x (filter (of_user user) log) ->
    (exists o, In o out /\ created_before (sh_created_at x) (h_scan_date o)) ->
    In (to_hist_row x) out.
Proof.
  intros (sorted & Hp & Hs & Hl). unfold limit_rows in Hl.
  destruct (Z.ltb k 0); [discriminate|]. injection Hl as <-. rewrite firstn_map.
  split.
  - rewrite length_map, length_firstn, (Permutation_length Hp). reflexivity.
  - intros x Hx (o & Ho & Hb). apply in_map_iff in Ho as (y & <- & Hy).
    apply (Permutation_in _ Hp) in Hx.
    rewrite <- (firstn_skipn (Z.to_nat k) sorted) in Hx. apply in_app_or in Hx as [Hx|Hx].
    + apply in_map. exact Hx.
    + exfalso. apply Sorted_StronglySorted in Hs; [|exact created_desc_trans].
      rewrite <- (firstn_skipn (Z.to_nat k) sorted) in Hs.
      pose proof (strongly_sorted_app _ _ _ _ _ Hs Hy Hx) as Hyx.
      unfold created_desc in Hyx. simpl in Hb.
      destruct (sh_created_at x), (sh_created_at y); simpl in *; tauto || lia.
Qed.

Lemma user_history_newest_witness :
  let log := [sample_sh "a" "u1" (Some 10); sample_sh "b" "u2" (Some 30);
              sample_sh "c" "u1" (Some 20); sample_sh "d" "u1" None] in
  user_scan_history_result (Some "u1") (Some 2) log
    [to_hist_row (sample_sh "d" "u1" None); to_hist_row (sample_sh "c" "u1" (Some 20))] /\
  length [to_hist_row (sample_sh "d" "u1" None); to_hist_row (sample_sh "c" "u1" (Some 20))]
    = Nat.min (Z.to_nat 2) (length (filter (of_user (Some "u1")) log)) /\
  forall x, In x (filter (of_user (Some "u1")) log) ->
    (exists o, In o [to_hist_row (sample_sh "d" "u1" None); to_hist_row (sample_sh "c" "u1" (Some 20))] /\
               created_before (sh_created_at x) (h_scan_date o)) ->
    In (to_hist_row x) [to_hist_row (sample_sh "d" "u1" None); to_hist_row (sample_sh "c" "u1" (Some 20))].
Proof.
  cbv zeta.
  assert (H : user_scan_history_result (Some "u1") (Some 2)
                [sample_sh "a" "u1" (Some 10); sample_sh "b" "u2" (Some 30);
                 sample_sh "c" "u1" (Some 20); sample_sh "d" "u1" None]
                [to_hist_row (sample_sh "d" "u1" None); to_hist_row (sample_sh "c" "u1" (Some 20))]).
  { exists [sample_sh "d" "u1" None; sample_sh "c" "u1" (Some 20); sample_sh "a" "u1" (Some 10)].
    split; [|split].
    - simpl. apply Permutation_sym.
      change [sample_sh "d" "u1" None; sample_sh "c" "u1" (Some 20); sample_sh "a" "u1" (Some 10)]
        with ([sample_sh "d" "u1" None; sample_sh "c" "u1" (Some 20)] ++ [sample_sh "a" "u1" (Some 10)]).
      apply Permutation_sym, Permutation_cons_app. simpl. apply Permutation_sym, perm_swap.
    - repeat constructor; unfold created_desc; simpl; lia.
    - reflexivity. }
  split; [exact H|]. exact (user_history_newest _ _ _ _ H).
Defined.

(** Extra: down the result of [get_recent_scans], [days_ago] is
    non-decreasing (NULL dates first), and for a scan dated [t] at or
    before [now] it is the number of whole days in [now - t]. *)
Theorem recent_scans_days_ago now k log out :
  recent_scans_result now k log out ->
  Sorted days_le (map r_days_ago out) /\
  Forall (fun o => forall t d, r_scan_date o = Some t -> r_days_ago o = Some d ->
            t <= now -> 0 <= d /\ d * 86400 <= now - t < (d + 1) * 86400) out.
Proof.
  intros (sorted & _ & Hs & Hl).
  assert (Hsub : exists n, out = firstn n (map (to_recent_row now) sorted)).
  { unfold limit_rows in Hl. destruct k as [k|].
    - destruct (Z.ltb k 0); [discriminate|]. injection Hl as <-. eexists; reflexivity.
    - injection Hl as <-. exists (length (map (to_recent_row now) sorted)).
      symmetry. apply firstn_all. }
  destruct Hsub as [n ->]. split.
  - rewrite firstn_map, map_map. apply (sorted_map_mono created_desc).
    + intros a b. unfold created_desc, days_le, to_recent_row, days_ago; simpl.
      destruct (sh_created_at a), (sh_created_at b); simpl; try tauto.
      intros H. apply Z.quot_le_mono; lia.
    + apply SchemaFacts.sorted_firstn, Hs.
  - apply Forall_forall. intros o Ho. apply in_firstn, in_map_iff in Ho as (x & <- & _).
    unfold to_recent_row, days_ago. simpl. intros t d -> Hd Ht. injection Hd as <-.
    rewrite Z.quot_div_nonneg by lia.
    pose proof (Z.div_mod (now - t) 86400) as Hm.
    pose proof (Z.mod_pos_bound (now - t) 86400) as Hb.
    assert (0 <= (now - t) / 86400) by (apply Z.div_pos; lia). lia.
Qed.

Lemma recent_scans_days_ago_witness :
  let log := [sample_sh "a" "u1" (Some 10); sample_sh "b" "u2" (Some 200000)] in
  recent_scans_result 300000 (Some 5) log
    (map (to_recent_row 300000) [sample_sh "b" "u2" (Some 200000); sample_sh "a" "u1" (Some 10)]) /\
  Sorted days_le (map r_days_ago
    (map (to_recent_row 300000) [sample_sh "b" "u2" (Some 200000); sample_sh "a" "u1" (Some 10)])) /\
  Forall (fun o => forall t d, r_scan_date o = Some t -> r_days_ago o = Some d ->
            t <= 300000 -> 0 <= d /\ d * 86400 <= 300000 - t < (d + 1) * 86400)
    (map (to_recent_row 300000) [sample_sh "b" "u2" (Some 200000); sample_sh "a" "u1" (Some 10)]).
Proof.
  cbv zeta.
  assert (H : recent_scans_result 300000 (Some 5)
                [sample_sh "a" "u1" (Some 10); sample_sh "b" "u2" (Some 200000)]
                (map (to_recent_row 300000) [sample_sh "b" "u2" (Some 200000); sample_sh "a" "u1" (Some 10)])).
  { exists [sample_sh "b" "u2" (Some 200000); sample_sh "a" "u1" (Some 10)].
    split; [apply perm_swap|]. split; [|reflexivity].
    repeat constructor; unfold created_desc; simpl; lia. }
  split; [exact H|]. exact (recent_scans_days_ago _ _ _ _ H).
Defined.

End Step5MoreFacts.

Module Step5RankFacts.
Import Schema Step5 Step5More.

Lemma div_frac_mono a b c e : 0 < b -> 0 < e -> a * e <= c * b -> a / b <= c / e.
Proof.
  intros Hb He H. apply Z.div_le_lower_bound; [exact He|].
  pose proof (Z.mul_div_le a b Hb) as H1.
  assert (b * (e * (a / b)) <= b * c) by nia. nia.
Qed.

Lemma round2_mono q1 q2 : (q1 <= q2)%Q -> (round2 q1 <= round2 q2)%Q.
Proof.
  destruct q1 as [n1 d1], q2 as [n2 d2]. unfold Qle, round2. cbn [Qnum Qden]. intros H.
  assert (P1 : 0 < Z.pos d1) by lia. assert (P2 : 0 < Z.pos d2) by lia.
  destruct (Z.leb_spec 0 (n1 * 100)), (Z.leb_spec 0 (n2 * 100)); cbn [Qnum Qden].
  - apply Z.mul_le_mono_nonneg_r; [lia|]. apply div_frac_mono; nia.
  - nia.
  - assert (0 <= (2 * - (n1 * 100) + Z.pos d1) / (2 * Z.pos d1)) by (apply Z.div_pos; lia).
    assert (0 <= (2 * (n2 * 100) + Z.pos d2) / (2 * Z.pos d2)) by (apply Z.div_pos; lia).
    lia.
  - assert ((2 * - (n2 * 100) + Z.pos d2) / (2 * Z.pos d2)
            <= (2 * - (n1 * 100) + Z.pos d1) / (2 * Z.pos d1)) by (apply div_frac_mono; nia).
    lia.
Qed.

Lemma metric_mono ty a b :
  0 < total_scans a -> 0 < total_scans b ->
  (rank_key ty b <= rank_key ty a)%Q -> (metric_value_of ty b <= metric_value_of ty a)%Q.
Proof.
  intros Ha Hb. unfold rank_key, metric_value_of, disease_rate_of.
  destruct (level_is ty "scans"); [tauto|]. destruct (level_is ty "users"); [tauto|].
  destruct (level_is ty "disease_rate"); [|tauto].
  apply Z.ltb_lt in Ha, Hb. rewrite Ha, Hb. apply round2_mono.
Qed.

Lemma number_from_fst n l :
  map fst (number_from (Z.of_nat n) l) = map Z.of_nat (seq n (length l)).
Proof.
  revert n. induction l as [|r l IH]; intros n; [reflexivity|]. simpl.
  f_equal. replace (Z.of_nat n + 1) with (Z.of_nat (S n)) by lia. apply IH.
Qed.

Lemma number_from_order (R : la_row -> la_row -> Prop) n w i j a b :
  StronglySorted R w -> In (i, a) (number_from n w) -> In (j, b) (number_from n w) ->
  i < j -> R a b.
Proof.
  assert (Hge : forall m l k c, In (k, c) (number_from m l) -> m <= k /\ In c l).
  { intros m l. revert m. induction l as [|x l IH]; intros m k c Hin; [destruct Hin|].
    destruct Hin as [Heq|Hin]; [injection Heq as <- <-; split; [lia|left; reflexivity]|].
    apply IH in Hin as [Hk Hc]. split; [lia|right; exact Hc]. }
  revert n. induction w as [|x w IH]; intros n Hs Hi Hj Hij; [destruct Hi|].
  apply StronglySorted_inv in Hs as [Hs Hf]. rewrite Forall_forall in Hf.
  destruct Hi as [Hi|Hi]; destruct Hj as [Hj|Hj].
  - injection Hi as <- <-. injection Hj as <- <-. lia.
  - injection Hi as <- <-. apply Hge in Hj as [_ Hb]. apply Hf, Hb.
  - injection Hj as <- <-. apply Hge in Hi as [Hi _]. lia.
  - exact (IH (n + 1) Hs Hi Hj Hij).
Qed.

Lemma number_from_in n w i a : In (i, a) (number_from n w) -> In a w /\ n <= i < n + Z.of_nat (length w).
Proof.
  revert n. induction w as [|x w IH]; intros n Hin; [destruct Hin|].
  destruct Hin as [Heq|Hin].
  - injection Heq as <- <-. simpl. split; [left; reflexivity|lia].
  - apply IH in Hin as [Ha Hi]. simpl. split; [right; exact Ha|lia].
Qed.

(** Extra: the ranks returned by [get_location_rankings] are distinct,
    between 1 and the number of locations with scans, and agree with the
    metric: a row with a smaller rank never has a smaller [metric_value],
    for every ranking type (the 'disease_rate' key is ranked unrounded and
    shown rounded, and rounding keeps the order). *)
Theorem rankings_ranks_agree ty k la out :
  rankings_result ty k la out ->
  NoDup (map rk_rank out) /\
  Forall (fun o => 1 <= rk_rank o <= Z.of_nat (length (positive_rows la))) out /\
  forall o1 o2, In o1 out -> In o2 out -> rk_rank o1 < rk_rank o2 ->
    (rk_metric_value o2 <= rk_metric_value o1)%Q.
Proof.
  intros (w & final & Hp & Hs & Hpf & _ & Hl).
  assert (Hsub : exists n, out = firstn n (map (to_rank_row ty) final)).
  { unfold limit_rows in Hl. destruct k as [k|].
    - destruct (Z.ltb k 0); [discriminate|]. injection Hl as <-. eexists; reflexivity.
    - injection Hl as <-. exists (length (map (to_rank_row ty) final)).
      symmetry. apply firstn_all. }
  destruct Hsub as [n ->].
  assert (Hin : forall o, In o (firstn n (map (to_rank_row ty) final)) ->
                exists i a, In (i, a) (number_from 1 w) /\ o = to_rank_row ty (i, a)).
  { intros o Ho. apply in_firstn, in_map_iff in Ho as ([i a] & <- & Hia).
    exists i, a. split; [|reflexivity]. apply (Permutation_in _ (Permutation_sym Hpf)), Hia. }
  split; [|split].
  - rewrite firstn_map, map_map.
    apply (NoDup_app_remove_r _ (map (fun x => rk_rank (to_rank_row ty x)) (skipn n final))).
    rewrite <- map_app, firstn_skipn.
    replace (map (fun x => rk_rank (to_rank_row ty x)) final) with (map fst final)
      by (apply map_ext; intros [i a]; reflexivity).
    apply (Permutation_NoDup (Permutation_map fst Hpf)).
    change 1 with (Z.of_nat 1). rewrite number_from_fst.
    apply nodup_map_inj; [intros x y; lia|apply seq_NoDup].
  - apply Forall_forall. intros o Ho. apply Hin in Ho as (i & a & Hia & ->).
    apply number_from_in in Hia as [_ Hi]. rewrite (Permutation_length Hp). simpl. lia.
  - intros o1 o2 H1 H2 Hlt.
    apply Hin in H1 as (i & a & Hia & ->). apply Hin in H2 as (j & b & Hjb & ->).
    simpl in Hlt |- *.
    assert (Hab : (rank_key ty b <= rank_key ty a)%Q).
    { apply (number_from_order (fun a b => rank_key ty b <= rank_key ty a)%Q 1 w i j);
        try assumption.
      apply Sorted_StronglySorted; [|exact Hs].
      intros x y z Hxy Hyz. eapply Qle_trans; eassumption. }
    apply number_from_in in Hia as [Ha _]. apply number_from_in in Hjb as [Hb _].
    apply (Permutation_in _ (Permutation_sym Hp)) in Ha, Hb.
    unfold positive_rows in Ha, Hb. apply filter_In in Ha as [_ Ha]. apply filter_In in Hb as [_ Hb].
    apply Z.ltb_lt in Ha, Hb. apply metric_mono; assumption.
Qed.

Lemma rankings_ranks_agree_witness :
  let r1 := mk_la_row "a" "Rwanda" (Some "Kigali") None None 4 2 3 1 0 0 0 0 0
              None None 0 0 None in
  let r2 := mk_la_row "b" "Rwanda" (Some "Southern") (Some "Huye") None 3 1 1 2 0 0 0 0 0
              None None 0 0 None in
  let r3 := mk_la_row "c" "Rwanda" (Some "Western") None None 0 0 0 0 0 0 0 0 0
              None None 0 0 None in
  let out := map (to_rank_row (Some "disease_rate")) [(1, r2); (2, r1)] in
  rankings_result (Some "disease_rate") (Some 10) [r1; r2; r3] out /\
  NoDup (map rk_rank out) /\
  Forall (fun o => 1 <= rk_rank o <= Z.of_nat (length (positive_rows [r1; r2; r3]))) out /\
  forall o1 o2, In o1 out -> In o2 out -> rk_rank o1 < rk_rank o2 ->
    (rk_metric_value o2 <= rk_metric_value o1)%Q.
Proof.
  cbv zeta.
  match goal with
  | |- rankings_result ?ty ?k ?la ?out /\ _ =>
      assert (H : rankings_result ty k la out)
  end.
  { match goal with
    | |- rankings_result _ _ [?r1; ?r2; _] _ =>
        exists [r2; r1], [(1, r2); (2, r1)]
    end.
    split; [eapply perm_trans; [apply Permutation_refl'; reflexivity|apply perm_swap]|].
    split; [repeat constructor; apply Qle_bool_imp_le; vm_compute; reflexivity|].
    split; [apply Permutation_refl|].
    split; [repeat constructor; apply Qle_bool_imp_le; vm_compute; reflexivity|].
    reflexivity. }
  split; [exact H|]. exact (rankings_ranks_agree _ _ _ _ H).
Defined.

End Step5RankFacts.

Lemma filter_all_true {A} (p : A -> bool) l : Forall (fun x => p x = true) l -> filter p l = l.
Proof. induction 1 as [|x l Hx _ IH]; simpl; [reflexivity|]. rewrite Hx, IH. reflexivity. Qed.

Lemma count_if_true {A} (l : list A) : count_if (fun _ => true) l = Z.of_nat (length l).
Proof. unfold count_if. rewrite filter_all_true; [reflexivity|]. apply Forall_forall. reflexivity. Qed.

Lemma firstn_seq k m n : firstn k (seq m n) = seq m (Nat.min k n).
Proof.
  revert m n. induction k as [|k IH]; intros m n; [reflexivity|].
  destruct n as [|n]; [reflexivity|]. simpl. f_equal. apply IH.
Qed.

Module Step5SummaryFacts.
Import Schema SchemaKeys Step5More.

(** Extra: in every reachable state of LOCATION_TRACKING_SCHEMA, the
    dashboard summary of [get_analytics_summary] agrees with the scan log:
    [total_scans] is the number of scans, the healthy and diseased totals
    are the numbers of healthy and diseased scans, [active_locations] is
    the number of distinct location strings, and [location_scan_count] is
    NULL exactly when no scan was ever recorded. *)
Theorem summary_matches_log s dt sm :
  reachable s -> analytics_summary_result (location_analytics s) dt sm ->
  s_total_scans sm = Z.of_nat (length (scan_history s)) /\
  s_total_healthy_scans sm = count_if healthy_scan (scan_history s) /\
  s_total_diseased_scans sm = count_if (fun x => negb (healthy_scan x)) (scan_history s) /\
  s_active_locations sm =
    Z.of_nat (length (group_keys String.eqb (map location_string (scan_history s)))) /\
  (s_location_scan_count sm = None <-> scan_history s = []).
Proof.
  intros Hr Hsum. destruct (SchemaExtra.schema_reachable_rows s Hr) as [Hk Hok].
  destruct s as [log la]. simpl in *.
  assert (Hpos : positive_rows la = la).
  { apply filter_all_true. rewrite Forall_forall in Hok |- *. intros r Hr'.
    destruct (Hok r Hr') as (x & rest & Hes & _ & _ & _ & _ & _ & Ht & _).
    rewrite Hes in Ht. simpl in Ht. apply Z.ltb_lt. lia. }
  unfold analytics_summary_result in Hsum. rewrite Hpos in Hsum.
  destruct Hsum as (Ht & Hh & Hd & _ & Ha & _ & _ & _ & (r4 & Htop & Hc)).
  assert (Hsum : forall (p : scan -> bool) (f : la_row -> Z),
            (forall r, In r la -> f r = count_if p (filter (fun x => String.eqb (location_string x)
                                                          (la_location_string r)) log)) ->
            zsum (map f la) = count_if p log).
  { intros p f Hf. rewrite <- (RecomputeExtra.group_count_sum String.eqb String.eqb_eq location_string p log),
      <- Hk, map_map.
    f_equal. apply map_ext_in. exact Hf. }
  split; [|split; [|split; [|split]]].
  - rewrite Ht, <- count_if_true. apply Hsum. intros r Hr'.
    rewrite Forall_forall in Hok. destruct (Hok r Hr') as (x & rest & _ & _ & _ & _ & _ & _ & Ht' & _).
    rewrite Ht', count_if_true. reflexivity.
  - rewrite Hh. apply Hsum. intros r Hr'.
    rewrite Forall_forall in Hok. destruct (Hok r Hr') as (x & rest & _ & _ & _ & _ & _ & _ & _ & Hh' & _).
    exact Hh'.
  - rewrite Hd. apply Hsum. intros r Hr'.
    rewrite Forall_forall in Hok.
    destruct (Hok r Hr') as (x & rest & _ & _ & _ & _ & _ & _ & _ & _ & Hd' & _).
    exact Hd'.
  - rewrite Ha, <- Hk, length_map. reflexivity.
  - rewrite Hc. destruct r4 as [r|]; simpl in Htop |- *.
    + split; [discriminate|]. intros ->. destruct Htop as [Hin _].
      assert (Hn : map la_location_string la = []) by exact Hk.
      destruct la; [destruct Hin|discriminate].
    + split; [|reflexivity]. intros _. subst la.
      destruct log as [|x log]; [reflexivity|]. exfalso.
      assert (Hx : In (location_string x) (group_keys String.eqb (map location_string (x :: log)))).
      { apply (in_group_keys _ String.eqb_eq). left. reflexivity. }
      rewrite <- Hk in Hx. destruct Hx.
Qed.

Lemma summary_matches_log_witness :
  let e := mk_scan "s1" (Some "u1") "Maize" "Leaf Rust" (4 # 5) "Rwanda"
             (Some "Kigali") None None "Kigali, Rwanda" 100 in
  let s := insert_scan e empty_db in
  let sm := mk_summary 1 0 1 0 1 None None (Some "Kigali") (Some 1) in
  reachable s /\ analytics_summary_result (location_analytics s) [] sm /\
  s_total_scans sm = Z.of_nat (length (scan_history s)) /\
  s_total_healthy_scans sm = count_if healthy_scan (scan_history s) /\
  s_total_diseased_scans sm = count_if (fun x => negb (healthy_scan x)) (scan_history s) /\
  s_active_locations sm =
    Z.of_nat (length (group_keys String.eqb (map location_string (scan_history s)))) /\
  (s_location_scan_count sm = None <-> scan_history s = []).
Proof.
  cbv zeta.
  match goal with
  | |- reachable ?s /\ analytics_summary_result _ ?dt ?sm /\ _ =>
      assert (H1 : reachable s) by (apply reach_insert, reach_empty);
      assert (H2 : analytics_summary_result (location_analytics s) dt sm)
  end.
  { unfold analytics_summary_result. cbv zeta.
    split; [reflexivity|]. split; [reflexivity|]. split; [reflexivity|].
    split; [reflexivity|]. split; [reflexivity|].
    split; [exists None; split; reflexivity|]. split; [exists None; split; reflexivity|].
    split.
    - eexists (Some _). split; [split; [left; reflexivity|repeat constructor; simpl; lia]|reflexivity].
    - eexists (Some _). split; [split; [left; reflexivity|repeat constructor; simpl; lia]|reflexivity]. }
  split; [exact H1|]. split; [exact H2|]. exact (summary_matches_log _ _ _ H1 H2).
Defined.

End Step5SummaryFacts.
